(** * LDR monitor front end: the real-time feed client and the polling client

    A shallow embedding of [shared/js/config.js], [shared/js/websocket-service.js]
    and [shared/js/api-service.js], together with the two ends they sit
    between: the sketch that reads the sensor and sends its datagrams, and
    the history of the monitor page.

    Conventions of the embedding.
    - A JavaScript number is a [number]: [NaN], an infinity or an exact
      rational.  [parseInt] rounds the integer it reads to the nearest double,
      as the engine does; the arithmetic operators are exact on rationals, the
      rounding and the overflow of their results being abstracted.  There is
      one zero: the sign of zero is not modelled.
    - Counters that start at 0 and only ever get incremented are [nat].
    - [Date.now()] and [Math.random()] are inputs of the operation that reads
      them; the outcome of a network call is an input of the continuation that
      runs after the [await].
    - Every observable action (log line, listener fan-out, timer, socket or
      network call) is appended to the [trace] of the component's world.
    - Listeners are opaque observers: they do not call back into the service
      while they run.
    - Console texts and close reasons are written without accents and
      without the interpolated values. *)

From Stdlib Require Import QArith Qround.
From stdpp Require Import gmap strings list fin_maps pretty.
From Stdlib Require Import Lia Lqa.

Local Open Scope Z_scope.

(** ** JavaScript numbers and values *)

Module JS.

Inductive number :=
| NaN
| Num (q : Q)
| Infinity (negative : bool).

Definition of_Z (z : Z) : number := Num (inject_Z z).
Definition of_nat (n : nat) : number := of_Z (Z.of_nat n).

(** Whether a finite number is below zero. *)
Definition negative_Q (x : Q) : bool := negb (Qle_bool 0 x).

Definition nadd (a b : number) : number :=
  match a with
  | NaN => NaN
  | Num x =>
      match b with
      | NaN => NaN
      | Num y => Num (Qred (x + y))
      | Infinity t => Infinity t
      end
  | Infinity s =>
      match b with
      | NaN => NaN
      | Num _ => Infinity s
      | Infinity t => if Bool.eqb s t then Infinity s else NaN
      end
  end.

Definition nsub (a b : number) : number :=
  match a with
  | NaN => NaN
  | Num x =>
      match b with
      | NaN => NaN
      | Num y => Num (Qred (x - y))
      | Infinity t => Infinity (negb t)
      end
  | Infinity s =>
      match b with
      | NaN => NaN
      | Num _ => Infinity s
      | Infinity t => if Bool.eqb s t then NaN else Infinity s
      end
  end.

Definition nmul (a b : number) : number :=
  match a with
  | NaN => NaN
  | Num x =>
      match b with
      | NaN => NaN
      | Num y => Num (Qred (x * y))
      | Infinity t => if Qeq_bool x 0 then NaN else Infinity (xorb (negative_Q x) t)
      end
  | Infinity s =>
      match b with
      | NaN => NaN
      | Num y => if Qeq_bool y 0 then NaN else Infinity (xorb s (negative_Q y))
      | Infinity t => Infinity (xorb s t)
      end
  end.

Definition ndiv (a b : number) : number :=
  match a with
  | NaN => NaN
  | Num x =>
      match b with
      | NaN => NaN
      | Num y =>
          if Qeq_bool y 0
          then (if Qeq_bool x 0 then NaN else Infinity (negative_Q x))
          else Num (Qred (x / y))
      | Infinity _ => Num 0
      end
  | Infinity s =>
      match b with
      | NaN => NaN
      | Num y => Infinity (xorb s (negative_Q y))
      | Infinity _ => NaN
      end
  end.

(** [a === b] on numbers: [NaN] differs from everything, itself included. *)
Definition strict_eq (a b : number) : bool :=
  match a, b with
  | Num x, Num y => Qeq_bool x y
  | Infinity s, Infinity t => Bool.eqb s t
  | _, _ => false
  end.

(** The relational operators answer [false] as soon as one side is [NaN]. *)
Definition lt (a b : number) : bool :=
  match a, b with
  | Num x, Num y => negb (Qle_bool y x)
  | Num _, Infinity t => negb t
  | Infinity s, Num _ => s
  | Infinity s, Infinity t => s && negb t
  | _, _ => false
  end.

Definition gt (a b : number) : bool := lt b a.

Definition ge (a b : number) : bool :=
  match a, b with
  | Num x, Num y => Qle_bool y x
  | Num _, Infinity t => t
  | Infinity s, Num _ => negb s
  | Infinity s, Infinity t => negb s || t
  | _, _ => false
  end.

Definition le (a b : number) : bool := ge b a.

(** ToBoolean on a number: [0] and [NaN] are falsy. *)
Definition truthy (a : number) : bool :=
  match a with
  | NaN => false
  | Num x => negb (Qeq_bool x 0)
  | Infinity _ => true
  end.

(** [a || b] on numbers. *)
Definition or_else (a b : number) : number := if truthy a then a else b.

(** [Math.min(a, b)]: [NaN] when either argument is. *)
Definition Math_min (a b : number) : number :=
  match a, b with
  | Num x, Num y => if Qle_bool x y then Num x else Num y
  | Num x, Infinity t => if t then Infinity true else Num x
  | Infinity s, Num y => if s then Infinity true else Num y
  | Infinity s, Infinity t => Infinity (s || t)
  | _, _ => NaN
  end.

(** [Math.pow(b, e)] at an integer exponent, the only way the code calls it. *)
Definition Math_pow (b : number) (e : Z) : number :=
  match b with
  | Num x => if Qeq_bool x 0 && (e <? 0) then Infinity false
             else Num (Qred (Qpower x e))
  | NaN => if e =? 0 then Num 1 else NaN
  | Infinity s => if e =? 0 then Num 1
                  else if e <? 0 then Num 0
                  else Infinity (s && Z.odd e)
  end.

(** [Math.round(a)]: the nearest integer, halves going up. *)
Definition Math_round (a : number) : number :=
  match a with
  | Num x => of_Z (Qfloor (x + (1 # 2)))
  | NaN => NaN
  | Infinity s => Infinity s
  end.

(** The Number value of an integer: the double nearest to it, the even
    significand winning a tie, and an infinity once the rounded magnitude
    reaches 2^1024.  Integers up to 2^53 in magnitude are their own
    double. *)
Definition double_of_Z (z : Z) : number :=
  let a := Z.abs z in
  let e := Z.log2 a - 52 in
  let rounded :=
    if e <=? 0 then a
    else
      let q := Z.shiftr a e in
      let r := Z.land a (Z.ones e) in
      let half := Z.shiftl 1 (e - 1) in
      Z.shiftl (if (half <? r) || ((r =? half) && Z.odd q) then q + 1 else q) e in
  if 2 ^ 1024 <=? rounded then Infinity (z <? 0)
  else of_Z (if z <? 0 then - rounded else rounded).


(** What a property read yields: the stored number, or [undefined] when the
    object has no such property. *)
Inductive value :=
| VUndefined
| VNumber (n : number).

Definition ToNumber (v : value) : number :=
  match v with
  | VUndefined => NaN
  | VNumber n => n
  end.

(** A plain object whose properties hold numbers. *)
Definition object := list (string * number).

Fixpoint get (o : object) (key : string) : value :=
  match o with
  | [] => VUndefined
  | (k, n) :: rest => if String.eqb k key then VNumber n else get rest key
  end.

(** *** Strings and raw wire values *)

(** A string is its sequence of UTF-16 code units. *)
Definition jsstring := list N.

Definition lit (s : string) : jsstring :=
  map Ascii.N_of_ascii (String.list_ascii_of_string s).

Definition is_digit (c : N) : bool := ((48 <=? c) && (c <=? 57))%N.

Definition digit (c : N) : Prop := is_digit c = true.

(** The value of [c] as a digit in radix [R], when it is one. *)
Definition digit_in_radix (R c : N) : option N :=
  let v := (if (48 <=? c) && (c <=? 57) then Some (c - 48)
            else if (97 <=? c) && (c <=? 122) then Some (c - 97 + 10)
            else if (65 <=? c) && (c <=? 90) then Some (c - 65 + 10)
            else None)%N in
  match v with
  | Some d => if (d <? R)%N then Some d else None
  | None => None
  end.

Definition is_radix_digit (R c : N) : bool :=
  match digit_in_radix R c with Some _ => true | None => false end.

Fixpoint take_while (p : N -> bool) (s : jsstring) : jsstring :=
  match s with
  | c :: r => if p c then c :: take_while p r else []
  | [] => []
  end.

Fixpoint drop_while (p : N -> bool) (s : jsstring) : jsstring :=
  match s with
  | c :: r => if p c then drop_while p r else s
  | [] => []
  end.

(** The mathematical integer a run of radix-[R] digits denotes. *)
Definition digits_value (R : N) (ds : jsstring) : Z :=
  fold_left (fun acc c =>
               match digit_in_radix R c with
               | Some d => acc * Z.of_N R + Z.of_N d
               | None => acc
               end) ds 0.

(** StrWhiteSpaceChar: white space and line terminators. *)
Definition is_whitespace (c : N) : bool :=
  existsb (N.eqb c)
    [9; 10; 11; 12; 13; 32; 160; 5760; 8192; 8193; 8194; 8195; 8196; 8197;
     8198; 8199; 8200; 8201; 8202; 8232; 8233; 8239; 8287; 12288; 65279]%N.

(** An optional sign in front: whether it is a minus, and what follows. *)
Definition read_sign (s : jsstring) : bool * jsstring :=
  match s with
  | c :: r => if (c =? 45)%N then (true, r)
              else if (c =? 43)%N then (false, r)
              else (false, s)
  | [] => (false, s)
  end.

(** A [0x] or [0X] prefix selects radix 16; the radix is 10 without one. *)
Definition read_radix (s : jsstring) : N * jsstring :=
  match s with
  | c0 :: cx :: r =>
      if ((c0 =? 48) && ((cx =? 120) || (cx =? 88)))%N then (16%N, r)
      else (10%N, s)
  | _ => (10%N, s)
  end.

(** [parseInt(s)] with no radix argument: leading white space is skipped, a
    sign is read, a [0x]/[0X] prefix selects radix 16, and the longest run
    of digits that follows is read as an integer, of which the result is
    the Number value; no digit at all gives [NaN]. *)
Definition parseInt (s : jsstring) : number :=
  let signed := read_sign (drop_while is_whitespace s) in
  let based := read_radix (snd signed) in
  match take_while (is_radix_digit (fst based)) (snd based) with
  | [] => NaN
  | ds => double_of_Z (if fst signed then - digits_value (fst based) ds
                       else digits_value (fst based) ds)
  end.

Fixpoint strip_prefix (p s : jsstring) : option jsstring :=
  match p, s with
  | [], _ => Some s
  | a :: p', b :: s' => if (a =? b)%N then strip_prefix p' s' else None
  | _ :: _, [] => None
  end.

(** [s.includes(needle)] *)
Fixpoint includes (needle s : jsstring) : bool :=
  match strip_prefix needle s with
  | Some _ => true
  | None => match s with
            | [] => false
            | _ :: r => includes needle r
            end
  end.

(** A value as it arrives on the wire, seen through what the decoder can
    observe of it: its [typeof] and, unless it is a number, its ToString
    image.  Arrays and objects are [OObject], carrying the string ToString
    yields for them. *)
Inductive other :=
| OUndefined
| ONull
| OBoolean (b : bool)
| OObject (image : jsstring).

Inductive raw :=
| RNumber (n : number)
| RString (s : jsstring)
| ROther (o : other).

Definition ToString (o : other) : jsstring :=
  match o with
  | OUndefined => lit "undefined"
  | ONull => lit "null"
  | OBoolean true => lit "true"
  | OBoolean false => lit "false"
  | OObject image => image
  end.

(** ToBoolean *)
Definition raw_truthy (v : raw) : bool :=
  match v with
  | RNumber n => truthy n
  | RString s => match s with [] => false | _ => true end
  | ROther (OBoolean b) => b
  | ROther (OObject _) => true
  | ROther _ => false
  end.

(** [a || b] *)
Definition raw_or (a b : raw) : raw := if raw_truthy a then a else b.

End JS.

(** ** config.js *)

Module Config.
Import JS.

Record app_config := {
  TIMEOUTS : object;
  RECONNECTION : object;
  DATA : object;
  EFFECTS : object
}.

Definition APP_CONFIG : app_config := {|
  TIMEOUTS := [ ("API_REQUEST", of_Z 5000);
                ("WS_CONNECTION", of_Z 10000);
                ("HEALTH_CHECK", of_Z 30000);
                ("STATS_UPDATE", of_Z 10000);
                ("RECONNECT_DELAY", of_Z 3000) ]%string;
  RECONNECTION := [ ("MAX_ATTEMPTS", of_Z 10);
                    ("BACKOFF_FACTOR", Num 1.5);
                    ("MAX_DELAY", of_Z 30000) ]%string;
  DATA := [ ("MAX_HISTORY_DISPLAY", of_Z 50);
            ("CACHE_DURATION", of_Z 300000) ]%string;
  EFFECTS := [ ("TRANSITION_DURATION", of_Z 1500);
               ("ANIMATION_DURATION", of_Z 500) ]%string
|}.

(** The marker of a sensor datagram, [LDR=]. *)
Definition marker : jsstring := lit "LDR=".

(** [rawData.match(/LDR=(\d+)/)]: the first capture group of the leftmost
    match, that is the longest run of digits behind the first occurrence of
    the marker that has a digit behind it. *)
Fixpoint match_LDR (s : jsstring) : option jsstring :=
  match s with
  | [] => None
  | _ :: r =>
      match strip_prefix marker s with
      | Some behind =>
          match take_while is_digit behind with
          | [] => match_LDR r
          | ds => Some ds
          end
      | None => match_LDR r
      end
  end.

Definition extractLDRValue (rawData : raw) : number :=
  match rawData with
  | RNumber n => n
  | RString s =>
      if includes marker s then
        match match_LDR s with
        | Some m1 => parseInt m1
        | None => of_Z 0
        end
      else or_else (parseInt s) (of_Z 0)
  | ROther o => or_else (parseInt (ToString o)) (of_Z 0)
  end.

Definition API_BASE : string := "http://[2803:d100:e580:1222:a0c8:a5f4:f585:1f90]:8080".
Definition WEBSOCKET_URL : string := "ws://[2803:d100:e580:1222:a0c8:a5f4:f585:1f90]:8765".

(** [THEMES_CONFIG]: the three bands, in the order [Object.entries] walks
    them. *)
Inductive theme := DARK | MEDIUM | BRIGHT.

Record range := {
  range_min : number;
  range_max : number
}.

Definition THEMES_CONFIG : list (theme * range) :=
  [ (DARK, {| range_min := of_Z 0; range_max := of_Z 199 |});
    (MEDIUM, {| range_min := of_Z 200; range_max := of_Z 599 |});
    (BRIGHT, {| range_min := of_Z 600; range_max := of_Z 1023 |}) ].

(** The loop of [determineTheme] over the entries still to visit. *)
Fixpoint first_band (entries : list (theme * range)) (ldrValue : number) : theme :=
  match entries with
  | [] => MEDIUM
  | (key, r) :: rest =>
      if ge ldrValue (range_min r) && le ldrValue (range_max r) then key
      else first_band rest ldrValue
  end.

Definition determineTheme (ldrValue : number) : theme :=
  first_band THEMES_CONFIG ldrValue.

(** [BACKEND_CONFIG.ENDPOINTS], in the order [Object.entries] walks them. *)
Definition HEALTH : string := "/api/health".

Definition ENDPOINTS : list (string * string) :=
  [ ("HEALTH", HEALTH); ("LATEST", "/api/latest"); ("HISTORY", "/api/history");
    ("STATS", "/api/stats"); ("NETWORK", "/api/network") ]%string.

End Config.

(** ** The sensor sketch *)

Module Firmware.
Import JS Config.

(** [unsigned long] arithmetic: 32 bits, wrapping. *)
Definition ulong (z : Z) : Z := z mod 2 ^ 32.

Definition THRESHOLD : Z := 5.
Definition MIN_SEND_INTERVAL : Z := 100.

(** The globals the loop keeps between iterations.  [lastSentValue] is an
    [int] holding -1 or a reading of the 10-bit converter, so its arithmetic
    never leaves the range of an [int]. *)
Record Sketch := {
  lastSentValue : Z;
  lastSendTime : Z
}.

Definition setup : Sketch := {| lastSentValue := -1; lastSendTime := 0 |}.

Definition shouldSendData (currentValue currentTime : Z) (s : Sketch) : bool :=
  if lastSentValue s =? -1 then true
  else if ulong (currentTime - lastSendTime s) <? MIN_SEND_INTERVAL then false
  else THRESHOLD <=? Z.abs (currentValue - lastSentValue s).

(** [snprintf(buffer, sizeof(buffer), "LDR=%d", ldr)]: at most 10 characters,
    well within the 32 of the buffer. *)
Definition datagram (ldr : Z) : jsstring := lit ("LDR=" +:+ pretty ldr).

(** One pass of [loop]: [ldr] is what [analogRead] returns, [currentTime]
    what [millis] returns, [remote_ok] whether [setRemoteAddress] succeeds.
    The result is the datagram sent, if any. *)
Definition loop (ldr currentTime : Z) (remote_ok : bool) (s : Sketch)
  : Sketch * option jsstring :=
  if shouldSendData ldr currentTime s then
    if remote_ok then
      ({| lastSentValue := ldr; lastSendTime := currentTime |}, Some (datagram ldr))
    else (s, None)
  else (s, None).

(** What one pass reads from the outside. *)
Record pass := {
  reading : Z;
  clock : Z;
  remote : bool
}.

(** The passes of a run at which a datagram left, oldest first, each with
    its datagram. *)
Fixpoint run (passes : list pass) (s : Sketch) : list (pass * jsstring) :=
  match passes with
  | [] => []
  | p :: rest =>
      let '(s', out) := loop (reading p) (clock p) (remote p) s in
      match out with
      | Some d => (p, d) :: run rest s'
      | None => run rest s'
      end
  end.

(** What [analogRead] and [millis] can return. *)
Definition plausible (p : pass) : Prop :=
  0 <= reading p <= 1023 /\ 0 <= clock p < 2 ^ 32.

(** Neighbours in a list are related by [R]. *)
Fixpoint chain {A} (R : A -> A -> Prop) (l : list A) : Prop :=
  match l with
  | a :: (b :: _) as rest => R a b /\ chain R rest
  | _ => True
  end.

(** How two successive transmissions relate. *)
Definition significant (a b : pass) : Prop :=
  THRESHOLD <= Z.abs (reading b - reading a) /\
  MIN_SEND_INTERVAL <= ulong (clock b - clock a).

End Firmware.

(** ** websocket-service.js *)

Module WS.
Import JS Config.

Inductive event_name := onData | onConnected | onDisconnected | onError | onReconnecting.

#[global] Instance event_name_eq_dec : EqDecision event_name.
Proof. solve_decision. Defined.

(** A registered callback, known by its identity only. *)
Definition listener := nat.

Record CloseEvent := {
  code : Z;
  reason : string;
  wasClean : bool
}.

(** A parsed inbound frame, as far as [handleMessage] looks into it. *)
Inductive message :=
| Malformed                                      (* JSON.parse throws *)
| JsonNull                                       (* parses to null: reading .type throws *)
| LdrUpdate (value timestamp raw_data : raw)     (* type: 'ldr_update' *)
| Pong (timestamp : JS.value)                    (* type: 'pong' *)
| SystemStatusFrame                              (* type: 'system_status' *)
| UnknownFrame.                                  (* any other type *)

(** What listeners receive. *)
Inductive payload :=
| ConnectAttempt (attempt : nat)
| ConnectedInfo (connectionTime : Z) (url : string)
| DisconnectedInfo (code : Z) (reason : string) (wasClean : bool)
| Thrown (what : string)
| WebsocketError
| MaxReconnectsReached (attempts : nat)
| ReconnectingInfo (attempt : nat) (maxAttempts : JS.value) (delay : number)
| LdrReading (value : number) (timestamp rawData : raw)
| SystemStatus.

Inductive log_level := DEBUG | INFO | WARN | ERROR.

(** What a pending timer will run when it fires. *)
Inductive timer :=
| ConnectTimeout (sock : nat)
| ReconnectTimer
| PingTimer
| ForceReconnectWait.

Inductive ready_state := CONNECTING | OPEN | CLOSING | CLOSED.

Inductive settlement := ResolvedWith (b : bool) | RejectedWith (why : string).

Inductive effect :=
| Console (level : log_level) (text : string)
| Callbacks (event : event_name) (data : payload) (listeners : list listener)
| NewWebSocket (url : string) (sock : nat)
| AddEventListeners (sock : nat)
| CloseCall (sock : nat) (code : Z) (reason : string)
| SendPing (sock : nat) (timestamp : Z)
| SetTimeout (handle : nat) (what : timer) (delay : JS.value)
| SetInterval (handle : nat) (what : timer) (delay : JS.value)
| ClearTimeout (handle : nat)
| ClearInterval (handle : nat)
| Settle (sock : nat) (how : settlement).

Record Metrics := {
  messagesReceived : nat;
  lastMessageTime : option Z;
  totalReconnects : nat;
  avgLatency : number
}.

Record WebSocketService := {
  ws : option nat;
  isConnected : bool;
  reconnectAttempts : nat;
  maxReconnectAttempts : JS.value;
  reconnectDelay : JS.value;
  connectionStartTime : option Z;
  pingInterval : option nat;
  reconnectTimeout : option nat;
  callbacks : event_name -> list listener;
  metrics : Metrics
}.

(** The promise [connect()] hands out for one socket. *)
Record connecting := {
  timeout_handle : nat;
  awaited_by_reconnect : bool;
  listening : bool;      (* the once-listeners onOpen/onError are still on the socket *)
  settled : bool
}.

(** The part of the browser the service talks to. *)
Record Browser := {
  timers : gmap nat timer;
  next_handle : nat;
  sockets : gmap nat ready_state;
  next_socket : nat;
  promises : gmap nat connecting
}.

Record World := {
  service : WebSocketService;
  browser : Browser
}.

(** *** Field updates *)

Definition set_ws v (s : WebSocketService) :=
  {| ws := v; isConnected := isConnected s; reconnectAttempts := reconnectAttempts s;
     maxReconnectAttempts := maxReconnectAttempts s; reconnectDelay := reconnectDelay s;
     connectionStartTime := connectionStartTime s; pingInterval := pingInterval s;
     reconnectTimeout := reconnectTimeout s; callbacks := callbacks s; metrics := metrics s |}.

Definition set_isConnected v (s : WebSocketService) :=
  {| ws := ws s; isConnected := v; reconnectAttempts := reconnectAttempts s;
     maxReconnectAttempts := maxReconnectAttempts s; reconnectDelay := reconnectDelay s;
     connectionStartTime := connectionStartTime s; pingInterval := pingInterval s;
     reconnectTimeout := reconnectTimeout s; callbacks := callbacks s; metrics := metrics s |}.

Definition set_reconnectAttempts v (s : WebSocketService) :=
  {| ws := ws s; isConnected := isConnected s; reconnectAttempts := v;
     maxReconnectAttempts := maxReconnectAttempts s; reconnectDelay := reconnectDelay s;
     connectionStartTime := connectionStartTime s; pingInterval := pingInterval s;
     reconnectTimeout := reconnectTimeout s; callbacks := callbacks s; metrics := metrics s |}.

Definition set_connectionStartTime v (s : WebSocketService) :=
  {| ws := ws s; isConnected := isConnected s; reconnectAttempts := reconnectAttempts s;
     maxReconnectAttempts := maxReconnectAttempts s; reconnectDelay := reconnectDelay s;
     connectionStartTime := v; pingInterval := pingInterval s;
     reconnectTimeout := reconnectTimeout s; callbacks := callbacks s; metrics := metrics s |}.

Definition set_pingInterval v (s : WebSocketService) :=
  {| ws := ws s; isConnected := isConnected s; reconnectAttempts := reconnectAttempts s;
     maxReconnectAttempts := maxReconnectAttempts s; reconnectDelay := reconnectDelay s;
     connectionStartTime := connectionStartTime s; pingInterval := v;
     reconnectTimeout := reconnectTimeout s; callbacks := callbacks s; metrics := metrics s |}.

Definition set_reconnectTimeout v (s : WebSocketService) :=
  {| ws := ws s; isConnected := isConnected s; reconnectAttempts := reconnectAttempts s;
     maxReconnectAttempts := maxReconnectAttempts s; reconnectDelay := reconnectDelay s;
     connectionStartTime := connectionStartTime s; pingInterval := pingInterval s;
     reconnectTimeout := v; callbacks := callbacks s; metrics := metrics s |}.

Definition set_callbacks v (s : WebSocketService) :=
  {| ws := ws s; isConnected := isConnected s; reconnectAttempts := reconnectAttempts s;
     maxReconnectAttempts := maxReconnectAttempts s; reconnectDelay := reconnectDelay s;
     connectionStartTime := connectionStartTime s; pingInterval := pingInterval s;
     reconnectTimeout := reconnectTimeout s; callbacks := v; metrics := metrics s |}.

Definition set_metrics v (s : WebSocketService) :=
  {| ws := ws s; isConnected := isConnected s; reconnectAttempts := reconnectAttempts s;
     maxReconnectAttempts := maxReconnectAttempts s; reconnectDelay := reconnectDelay s;
     connectionStartTime := connectionStartTime s; pingInterval := pingInterval s;
     reconnectTimeout := reconnectTimeout s; callbacks := callbacks s; metrics := v |}.

Definition set_timers v (b : Browser) :=
  {| timers := v; next_handle := next_handle b; sockets := sockets b;
     next_socket := next_socket b; promises := promises b |}.

Definition set_next_handle v (b : Browser) :=
  {| timers := timers b; next_handle := v; sockets := sockets b;
     next_socket := next_socket b; promises := promises b |}.

Definition set_sockets v (b : Browser) :=
  {| timers := timers b; next_handle := next_handle b; sockets := v;
     next_socket := next_socket b; promises := promises b |}.

Definition set_next_socket v (b : Browser) :=
  {| timers := timers b; next_handle := next_handle b; sockets := sockets b;
     next_socket := v; promises := promises b |}.

Definition set_promises v (b : Browser) :=
  {| timers := timers b; next_handle := next_handle b; sockets := sockets b;
     next_socket := next_socket b; promises := v |}.

(** *** The monad of the service: state of the world, list of effects *)

Definition M (A : Type) : Type := World -> A * World * list effect.

Definition ret {A} (a : A) : M A := fun w => (a, w, []).

Definition bind {A B} (m : M A) (k : A -> M B) : M B :=
  fun w =>
    let '(a, w1, e1) := m w in
    let '(b, w2, e2) := k a w1 in
    (b, w2, e1 ++ e2).

#[global] Instance M_ret : MRet M := @ret.
#[global] Instance M_bind : MBind M := fun A B k m => bind m k.

Definition result_of {A} (r : A * World * list effect) : A := fst (fst r).
Definition world_of {A} (r : A * World * list effect) : World := snd (fst r).
Definition effects_of {A} (r : A * World * list effect) : list effect := snd r.

Definition tell (e : effect) : M unit := fun w => (tt, w, [e]).
Definition this : M WebSocketService := fun w => (service w, w, []).
Definition window : M Browser := fun w => (browser w, w, []).
Definition update (f : WebSocketService -> WebSocketService) : M unit :=
  fun w => (tt, {| service := f (service w); browser := browser w |}, []).
Definition update_browser (f : Browser -> Browser) : M unit :=
  fun w => (tt, {| service := service w; browser := f (browser w) |}, []).

(** *** Browser primitives *)

Definition level_num (l : log_level) : nat :=
  match l with DEBUG => 0 | INFO => 1 | WARN => 2 | ERROR => 3 end.

(** [LOG_CONFIG.LEVEL] *)
Definition LOG_LEVEL : log_level := INFO.

(** [log(level, module, message)] of config.js: lines below the configured
    level are dropped, the others go to the console. *)
Definition log (level : log_level) (text : string) : M unit :=
  if (level_num level <? level_num LOG_LEVEL)%nat then mret tt
  else tell (Console level text).

Definition setTimeout (what : timer) (delay : JS.value) : M nat :=
  b ← window;
  let h := next_handle b in
  update_browser (fun b => set_next_handle (S h) (set_timers (<[h := what]> (timers b)) b));;
  tell (SetTimeout h what delay);;
  mret h.

Definition setInterval (what : timer) (delay : JS.value) : M nat :=
  b ← window;
  let h := next_handle b in
  update_browser (fun b => set_next_handle (S h) (set_timers (<[h := what]> (timers b)) b));;
  tell (SetInterval h what delay);;
  mret h.

Definition clearTimeout (h : nat) : M unit :=
  update_browser (fun b => set_timers (delete h (timers b)) b);;
  tell (ClearTimeout h).

Definition clearInterval (h : nat) : M unit :=
  update_browser (fun b => set_timers (delete h (timers b)) b);;
  tell (ClearInterval h).

(** [new WebSocket(url)] when the constructor does not throw. *)
Definition new_WebSocket (url : string) : M nat :=
  b ← window;
  let sock := next_socket b in
  update_browser (fun b => set_next_socket (S sock) (set_sockets (<[sock := CONNECTING]> (sockets b)) b));;
  tell (NewWebSocket url sock);;
  mret sock.

Definition readyState (sock : nat) : M ready_state :=
  b ← window;
  mret (default CLOSED (sockets b !! sock)).

(** The close codes [WebSocket.close] accepts, and the longest reason. *)
Definition close_arguments_ok (code : Z) (reason : string) : bool :=
  ((code =? 1000) || ((3000 <=? code) && (code <=? 4999)))
  && (String.length reason <=? 123)%nat.

Inductive completion := Normal | Throws (what : string).

(** [sock.close(code, reason)]: throws on bad arguments, does nothing on a
    socket that is closing or closed, and starts the closing handshake
    otherwise. *)
Definition ws_close (sock : nat) (code : Z) (reason : string) : M completion :=
  if close_arguments_ok code reason then
    st ← readyState sock;
    match st with
    | CONNECTING | OPEN =>
        update_browser (fun b => set_sockets (<[sock := CLOSING]> (sockets b)) b);;
        tell (CloseCall sock code reason);;
        mret Normal
    | CLOSING | CLOSED =>
        tell (CloseCall sock code reason);;
        mret Normal
    end
  else mret (Throws "close").

(** *** The service *)

Definition constructor : WebSocketService := {|
  ws := None;
  isConnected := false;
  reconnectAttempts := 0;
  maxReconnectAttempts := get (RECONNECTION APP_CONFIG) "MAX_ATTEMPTS";
  reconnectDelay := get (RECONNECTION APP_CONFIG) "BACKOFF_FACTOR";
  connectionStartTime := None;
  pingInterval := None;
  reconnectTimeout := None;
  callbacks := fun _ => [];
  metrics := {| messagesReceived := 0; lastMessageTime := None;
                totalReconnects := 0; avgLatency := of_Z 0 |}
|}.

Definition triggerCallbacks (event : event_name) (data : payload) : M unit :=
  s ← this;
  tell (Callbacks event data (callbacks s event)).

Definition on (event : event_name) (callback : listener) : M unit :=
  update (fun s => set_callbacks
            (fun e => if decide (e = event) then callbacks s e ++ [callback]
                      else callbacks s e) s).

(** [splice] at the first index of [callback] *)
Fixpoint remove_first (callback : listener) (l : list listener) : list listener :=
  match l with
  | [] => []
  | c :: r => if (c =? callback)%nat then r else c :: remove_first callback r
  end.

Definition off (event : event_name) (callback : listener) : M unit :=
  update (fun s => set_callbacks
            (fun e => if decide (e = event) then remove_first callback (callbacks s e)
                      else callbacks s e) s).

Definition updateMetrics (now : Z) : M unit :=
  update (fun s =>
    let m := metrics s in
    set_metrics {| messagesReceived := S (messagesReceived m);
                   lastMessageTime := Some now;
                   totalReconnects := totalReconnects m;
                   avgLatency := avgLatency m |} s).

(** The smoothing step of [updateLatency], on the stored average. *)
Definition smooth (avg sample : number) : number :=
  if strict_eq avg (of_Z 0) then sample
  else nadd (nmul avg (Num 0.8)) (nmul sample (Num 0.2)).

Definition updateLatency (latency : number) : M unit :=
  update (fun s =>
    let m := metrics s in
    set_metrics {| messagesReceived := messagesReceived m;
                   lastMessageTime := lastMessageTime m;
                   totalReconnects := totalReconnects m;
                   avgLatency := smooth (avgLatency m) latency |} s).

(** A run of pongs, as far as the average is concerned. *)
Fixpoint updateLatency_each (samples : list number) : M unit :=
  match samples with
  | [] => mret tt
  | latency :: rest => updateLatency latency;; updateLatency_each rest
  end.

(** The smoothed average in the words of the specification: the first
    sample, then [0.8 * a + 0.2 * s] for every further sample [s]. *)
Definition smoothed_average (first : Q) (rest : list Q) : Q :=
  fold_left (fun a s => 0.8 * a + 0.2 * s)%Q rest first.

Definition startPingInterval : M unit :=
  h ← setInterval PingTimer (get (TIMEOUTS APP_CONFIG) "WS_PING_INTERVAL");
  update (set_pingInterval (Some h));;
  log DEBUG "Intervalo de ping iniciado".

Definition stopPingInterval : M unit :=
  s ← this;
  match pingInterval s with
  | Some h =>
      clearInterval h;;
      update (set_pingInterval None);;
      log DEBUG "Intervalo de ping detenido"
  | None => mret tt
  end.

Definition setupEventHandlers (sock : nat) : M unit :=
  tell (AddEventListeners sock).

Inductive connect_result :=
| Returned (b : bool)        (* the promise is already resolved with [b] *)
| Awaiting (sock : nat).     (* it settles on the socket's open or error, or on timeout *)

(** [connect()]; [ctor_ok] tells whether [new WebSocket] succeeds. *)
Definition connect (ctor_ok : bool) : M connect_result :=
  s ← this;
  if isConnected s then
    log WARN "Ya esta conectado";;
    mret (Returned true)
  else
    log INFO "Conectando a:";;
    triggerCallbacks onReconnecting (ConnectAttempt (reconnectAttempts s + 1));;
    if ctor_ok then
      sock ← new_WebSocket WEBSOCKET_URL;
      update (set_ws (Some sock));;
      setupEventHandlers sock;;
      t ← setTimeout (ConnectTimeout sock) (get (TIMEOUTS APP_CONFIG) "WS_CONNECTION");
      update_browser (fun b => set_promises
        (<[sock := {| timeout_handle := t; awaited_by_reconnect := false;
                      listening := true; settled := false |}]> (promises b)) b);;
      mret (Awaiting sock)
    else
      log ERROR "Error creando WebSocket:";;
      triggerCallbacks onError (Thrown "WebSocket");;
      mret (Returned false).

(** Lines 251-254: the delay before reconnection attempt [attempt]. *)
Definition reconnect_delay (attempt : nat) : number :=
  Math_min
    (nmul (ToNumber (get (RECONNECTION APP_CONFIG) "RECONNECT_DELAY"))
          (Math_pow (ToNumber (get (RECONNECTION APP_CONFIG) "BACKOFF_FACTOR"))
                    (Z.of_nat attempt - 1)))
    (ToNumber (get (RECONNECTION APP_CONFIG) "MAX_DELAY")).

(** The delay formula itself, at a given base delay. *)
Definition backoff (base : JS.value) (attempt : nat) : number :=
  Math_min
    (nmul (ToNumber base)
          (Math_pow (ToNumber (get (RECONNECTION APP_CONFIG) "BACKOFF_FACTOR"))
                    (Z.of_nat attempt - 1)))
    (ToNumber (get (RECONNECTION APP_CONFIG) "MAX_DELAY")).

Definition attemptReconnect : M unit :=
  s ← this;
  if ge (of_nat (reconnectAttempts s)) (ToNumber (maxReconnectAttempts s)) then
    log ERROR "Maximo de intentos de reconexion alcanzado";;
    triggerCallbacks onError (MaxReconnectsReached (reconnectAttempts s))
  else
    update (fun s => set_reconnectAttempts (S (reconnectAttempts s)) s);;
    update (fun s =>
      let m := metrics s in
      set_metrics {| messagesReceived := messagesReceived m;
                     lastMessageTime := lastMessageTime m;
                     totalReconnects := S (totalReconnects m);
                     avgLatency := avgLatency m |} s);;
    s ← this;
    let delay := reconnect_delay (reconnectAttempts s) in
    log INFO "Reintentando conexion";;
    triggerCallbacks onReconnecting
      (ReconnectingInfo (reconnectAttempts s) (maxReconnectAttempts s) delay);;
    h ← setTimeout ReconnectTimer (VNumber delay);
    update (set_reconnectTimeout (Some h)).

Definition handleOpen (now : Z) : M unit :=
  log INFO "Conectado al servidor";;
  update (set_isConnected true);;
  update (set_reconnectAttempts 0);;
  update (set_connectionStartTime (Some now));;
  startPingInterval;;
  triggerCallbacks onConnected (ConnectedInfo now WEBSOCKET_URL).

Definition handleLDRUpdate (value timestamp raw_data : raw) : M unit :=
  log DEBUG "LDR actualizado:";;
  triggerCallbacks onData
    (LdrReading (extractLDRValue value) timestamp (raw_or raw_data value)).

Definition handlePong (timestamp : JS.value) (now : Z) : M unit :=
  log DEBUG "Pong recibido";;
  if truthy (ToNumber timestamp) then
    updateLatency (nsub (of_Z now) (ToNumber timestamp))
  else mret tt.

Definition handleSystemStatus : M unit :=
  log INFO "Estado del sistema recibido:";;
  triggerCallbacks onData SystemStatus.

Definition handleMessage (msg : message) (now : Z) : M unit :=
  match msg with
  | Malformed =>
      log ERROR "Error parseando mensaje:";;
      triggerCallbacks onError (Thrown "SyntaxError")
  | JsonNull =>
      updateMetrics now;;
      log DEBUG "Mensaje recibido:";;
      log ERROR "Error parseando mensaje:";;
      triggerCallbacks onError (Thrown "TypeError")
  | LdrUpdate value timestamp raw_data =>
      updateMetrics now;;
      log DEBUG "Mensaje recibido:";;
      handleLDRUpdate value timestamp raw_data
  | Pong timestamp =>
      updateMetrics now;;
      log DEBUG "Mensaje recibido:";;
      handlePong timestamp now
  | SystemStatusFrame =>
      updateMetrics now;;
      log DEBUG "Mensaje recibido:";;
      handleSystemStatus
  | UnknownFrame =>
      updateMetrics now;;
      log DEBUG "Mensaje recibido:";;
      log WARN "Tipo de mensaje desconocido:"
  end.

(** A close is abnormal when it is not clean and its code is not 1000. *)
Definition abnormal (event : CloseEvent) : bool :=
  negb (wasClean event) && negb (code event =? 1000).

Definition handleClose (event : CloseEvent) : M unit :=
  log INFO "Conexion cerrada:";;
  update (set_isConnected false);;
  stopPingInterval;;
  triggerCallbacks onDisconnected
    (DisconnectedInfo (code event) (reason event) (wasClean event));;
  if abnormal event then attemptReconnect else mret tt.

Definition handleError : M unit :=
  log ERROR "Error WebSocket:";;
  triggerCallbacks onError WebsocketError.

Definition sendPing (sock : nat) (now : Z) : M unit :=
  tell (SendPing sock now);;
  log DEBUG "Ping enviado".

(** [disconnect(code, reason)] *)
Definition disconnect (code : Z) (reason : string) : M completion :=
  s ← this;
  match ws s with
  | Some sock =>
      if isConnected s then
        log INFO "Desconectando...";;
        stopPingInterval;;
        match reconnectTimeout s with
        | Some h => clearTimeout h;; update (set_reconnectTimeout None)
        | None => mret tt
        end;;
        ws_close sock code reason
      else mret Normal
  | None => mret Normal
  end.

(** The part of [forceReconnect] behind its pause. *)
Definition forceReconnect_resume (ctor_ok : bool) : M connect_result :=
  update (set_reconnectAttempts 0);;
  connect ctor_ok.

(** [forceReconnect()]: [None] while it sleeps on its 1000 ms timer. *)
Definition forceReconnect (ctor_ok : bool) : M (option connect_result) :=
  log INFO "Forzando reconexion manual";;
  s ← this;
  if isConnected s then
    disconnect 1000 "Reconexion manual";;
    setTimeout ForceReconnectWait (VNumber (of_Z 1000));;
    mret None
  else
    r ← forceReconnect_resume ctor_ok;
    mret (Some r).

(** *** The promise of [connect] *)

Definition settle (sock : nat) (how : settlement) : M unit :=
  b ← window;
  match promises b !! sock with
  | Some p =>
      if settled p then mret tt
      else
        update_browser (fun b => set_promises
          (<[sock := {| timeout_handle := timeout_handle p;
                        awaited_by_reconnect := awaited_by_reconnect p;
                        listening := listening p; settled := true |}]> (promises b)) b);;
        tell (Settle sock how);;
        match how with
        | RejectedWith _ =>
            if awaited_by_reconnect p then log WARN "Fallo en reconexion:" else mret tt
        | ResolvedWith _ => mret tt
        end
  | None => mret tt
  end.

(** [onOpen] and [onError] of the promise: whichever runs first takes the
    other one off the socket. *)
Definition promise_listener (sock : nat) (how : settlement) : M unit :=
  b ← window;
  match promises b !! sock with
  | Some p =>
      if listening p then
        clearTimeout (timeout_handle p);;
        update_browser (fun b => set_promises
          (<[sock := {| timeout_handle := timeout_handle p;
                        awaited_by_reconnect := awaited_by_reconnect p;
                        listening := false; settled := settled p |}]> (promises b)) b);;
        settle sock how
      else mret tt
  | None => mret tt
  end.

(** The callback of the reconnect timer: [await this.connect()] in a [try]. *)
Definition reconnect_callback (ctor_ok : bool) : M unit :=
  r ← connect ctor_ok;
  match r with
  | Awaiting sock =>
      update_browser (fun b =>
        match promises b !! sock with
        | Some p => set_promises
            (<[sock := {| timeout_handle := timeout_handle p;
                          awaited_by_reconnect := true;
                          listening := listening p; settled := settled p |}]> (promises b)) b
        | None => b
        end)
  | Returned _ => mret tt
  end.

(** *** The event loop *)

Inductive input :=
| SocketOpen (sock : nat) (now : Z)
| SocketError (sock : nat)
| SocketClose (sock : nat) (event : CloseEvent)
| SocketMessage (sock : nat) (msg : message) (now : Z)
| TimerFires (handle : nat) (now : Z) (ctor_ok : bool)
| CallConnect (ctor_ok : bool)
| CallDisconnect (code : Z) (reason : string)
| CallForceReconnect (ctor_ok : bool).

Definition set_readyState (sock : nat) (st : ready_state) : M unit :=
  update_browser (fun b => set_sockets (<[sock := st]> (sockets b)) b).

Definition fire (h : nat) (now : Z) (ctor_ok : bool) : M unit :=
  b ← window;
  match timers b !! h with
  | Some (ConnectTimeout sock) =>
      update_browser (fun b => set_timers (delete h (timers b)) b);;
      settle sock (RejectedWith "Timeout de conexion WebSocket")
  | Some ReconnectTimer =>
      update_browser (fun b => set_timers (delete h (timers b)) b);;
      reconnect_callback ctor_ok
  | Some PingTimer =>
      s ← this;
      match ws s with
      | Some sock =>
          st ← readyState sock;
          match st with
          | OPEN => if isConnected s then sendPing sock now else mret tt
          | _ => mret tt
          end
      | None => mret tt
      end
  | Some ForceReconnectWait =>
      update_browser (fun b => set_timers (delete h (timers b)) b);;
      forceReconnect_resume ctor_ok;;
      mret tt
  | None => mret tt
  end.

(** One turn of the event loop.  Socket events are those of sockets the
    service created, so its handlers are on them. *)
Definition step (i : input) : M unit :=
  match i with
  | SocketOpen sock now =>
      set_readyState sock OPEN;;
      handleOpen now;;
      promise_listener sock (ResolvedWith true)
  | SocketError sock =>
      handleError;;
      promise_listener sock (RejectedWith "error")
  | SocketClose sock event =>
      set_readyState sock CLOSED;;
      handleClose event
  | SocketMessage sock msg now => handleMessage msg now
  | TimerFires h now ctor_ok => fire h now ctor_ok
  | CallConnect ctor_ok => connect ctor_ok;; mret tt
  | CallDisconnect code reason => disconnect code reason;; mret tt
  | CallForceReconnect ctor_ok => forceReconnect ctor_ok;; mret tt
  end.

Fixpoint run (ins : list input) : M unit :=
  match ins with
  | [] => mret tt
  | i :: rest => step i;; run rest
  end.

(** *** Observations on a list of effects *)

(** The effect arms a reconnect timer, that is, schedules a [connect()]. *)
Definition schedules_reconnect (e : effect) : bool :=
  match e with
  | SetTimeout _ ReconnectTimer _ => true
  | _ => false
  end.

(** The effect is one [attemptReconnect] performs: the announcement of a
    retry, its timer, or the report that the attempts are used up. *)
Definition reconnect_path (e : effect) : bool :=
  match e with
  | SetTimeout _ ReconnectTimer _ => true
  | Callbacks onReconnecting (ReconnectingInfo _ _ _) _ => true
  | Callbacks onError (MaxReconnectsReached _) _ => true
  | _ => false
  end.

(** The effect is an Error event of kind max-reconnects-reached. *)
Definition max_reconnects_event (e : effect) : bool :=
  match e with
  | Callbacks onError (MaxReconnectsReached _) _ => true
  | _ => false
  end.

(** The effect creates a transport. *)
Definition creates_transport (e : effect) : bool :=
  match e with
  | NewWebSocket _ _ => true
  | _ => false
  end.

(** The effect hands an event to the listeners. *)
Definition emits_event (e : effect) : bool :=
  match e with
  | Callbacks _ _ _ => true
  | _ => false
  end.

(** Inputs that put the attempt counter back to 0: a successful open and a
    manual [forceReconnect()]. *)
Definition resets (i : input) : bool :=
  match i with
  | SocketOpen _ _ | CallForceReconnect _ => true
  | _ => false
  end.

Definition abnormal_closure (i : input) : bool :=
  match i with
  | SocketClose _ event => abnormal event
  | _ => false
  end.

(** No [forceReconnect()] is asleep on its timer. *)
Definition no_force_pending (w : World) : Prop :=
  forall h, timers (browser w) !! h <> Some ForceReconnectWait.

(** How many abnormal closures a run of inputs holds. *)
Fixpoint abnormal_closures (ins : list input) : nat :=
  match ins with
  | [] => 0
  | i :: rest => (if abnormal_closure i then 1 else 0) + abnormal_closures rest
  end.

(** An operation is quiet when it leaves the attempt counter and its bound
    alone, puts no [forceReconnect()] to sleep, arms no reconnect timer and
    does not report that the attempts are used up. *)
Definition quiet_between (w w' : World) (es : list effect) : Prop :=
  maxReconnectAttempts (service w') = maxReconnectAttempts (service w) /\
  reconnectAttempts (service w') = reconnectAttempts (service w) /\
  (forall h, timers (browser w') !! h = Some ForceReconnectWait ->
             timers (browser w) !! h = Some ForceReconnectWait) /\
  Forall (fun e => schedules_reconnect e = false) es /\
  Forall (fun e => max_reconnects_event e = false) es.

Definition quiet_at {A} (m : M A) (w : World) : Prop :=
  quiet_between w (world_of (m w)) (effects_of (m w)).

Definition quiet {A} (m : M A) : Prop := forall w, quiet_at m w.

(** The world a close handler reaches before it looks at the close code. *)
Definition closed (w : World) : World :=
  world_of (stopPingInterval {| service := set_isConnected false (service w);
                                browser := browser w |}).

(** The timers [disconnect] and [handleClose] clear. *)
Definition clears_ping (w : World) : list effect :=
  match pingInterval (service w) with
  | Some h => [ClearInterval h]
  | None => []
  end.

Definition clears_reconnect (w : World) : list effect :=
  match reconnectTimeout (service w) with
  | Some h => [ClearTimeout h]
  | None => []
  end.

(** An abnormal closure, as the browser reports a dropped connection. *)
Definition dropped : CloseEvent := {| code := 1006; reason := ""; wasClean := false |}.

(** A fresh page: the constructed service in a browser with no timer and no
    socket. *)
Definition initial : World := {|
  service := constructor;
  browser := {| timers := ∅; next_handle := 1; sockets := ∅; next_socket := 0;
                promises := ∅ |}
|}.

(** The page once [connect()] succeeded at time 100. *)
Definition connected_page : World :=
  world_of (run [CallConnect true; SocketOpen 0 100] initial).

(** The same page after the connection dropped: a reconnect is pending. *)
Definition reconnecting_page : World :=
  world_of (run [SocketClose 0 dropped] connected_page).

(** [n] failed reconnections in a row, starting with the loss of socket
    [k]: the connection drops, the reconnect timer fires and creates socket
    [k + 1], which fails to open. *)
Fixpoint failed_rounds (n k : nat) : list input :=
  match n with
  | O => []
  | S n' =>
      [SocketClose k dropped; TimerFires (2 * k + 3) 0 true; SocketError (S k)]
      ++ failed_rounds n' (S k)
  end.

(** *** Observations on whole runs *)

(** The effect puts a liveness probe on the wire. *)
Definition sends_ping (e : effect) : bool :=
  match e with
  | SendPing _ _ => true
  | _ => false
  end.

(** The effect settles the promise of a [connect()]. *)
Definition settles (e : effect) : bool :=
  match e with
  | Settle _ _ => true
  | _ => false
  end.

(** The effect asks the browser to close a socket. *)
Definition closes_socket (e : effect) : bool :=
  match e with
  | CloseCall _ _ _ => true
  | _ => false
  end.

(** The effect tells the listeners that the client is connected. *)
Definition announces_connected (e : effect) : bool :=
  match e with
  | Callbacks onConnected _ _ => true
  | _ => false
  end.

(** How many reconnect timers a list of effects arms. *)
Definition scheduled (es : list effect) : nat :=
  length (List.filter schedules_reconnect es).

(** An operation is calm for [P] at a world when it leaves the count of
    reconnections and the bound of the attempts alone, does not raise the
    attempt counter and performs only effects in [P]. *)
Definition calm_between (P : effect -> bool) (w w' : World) (es : list effect) : Prop :=
  totalReconnects (metrics (service w')) = totalReconnects (metrics (service w)) /\
  maxReconnectAttempts (service w') = maxReconnectAttempts (service w) /\
  (reconnectAttempts (service w') <= reconnectAttempts (service w))%nat /\
  Forall (fun e => P e = true) es.

Definition calm_at {A} (P : effect -> bool) (m : M A) (w : World) : Prop :=
  calm_between P w (world_of (m w)) (effects_of (m w)).

Definition calm {A} (P : effect -> bool) (m : M A) : Prop := forall w, calm_at P m w.


(** The attempt counter is within the bound [n] the service was built with. *)
Definition bounded (n : nat) (w : World) : Prop :=
  maxReconnectAttempts (service w) = VNumber (of_nat n) /\
  (reconnectAttempts (service w) <= n)%nat.





End WS.

(** ** api-service.js *)

Module API.
Import JS Config.

(** What gets thrown.  Every rejection in this file carries an error
    object: [request] rethrows what [fetch] or [json()] rejected with or an
    [Error] it built itself, and the wrappers rethrow that or the [TypeError]
    of a property read. *)
Record js_error := {
  name : string;
  message : string
}.

(** How a promise settles. *)
Inductive attempt (A : Type) :=
| Fulfilled (v : A)
| Rejected (why : js_error).
Arguments Fulfilled {A} v.
Arguments Rejected {A} why.

(** One element of a history array. *)
Inductive item :=
| ItemNullish
| ItemValue (raw_data timestamp : raw).

(** The properties the wrappers read off [response.data]. *)
Record fields := {
  raw_data : raw;
  timestamp : raw;
  total_readings : raw;
  min_value : raw;
  max_value : raw;
  avg_value : raw;
  first_reading : raw;
  last_reading : raw
}.

(** [response.data], seen through what the wrappers do with it. *)
Inductive data_field :=
| DataNullish                       (* undefined or null *)
| DataFalsy                         (* false, 0, NaN or the empty string *)
| DataArray (items : list item)
| DataObject (f : fields).

(** A parsed response body that is not [null]: [success] is the truthiness
    of its flag, [error] its message when it has a truthy one. *)
Record Envelope := {
  success : bool;
  error : option string;
  data : data_field
}.

Inductive body :=
| BodyInvalid                       (* response.json() rejects *)
| BodyNull                          (* parses to null *)
| Body (e : Envelope).

(** What comes back from [fetch]: a rejection, or a response together with
    the clock readings taken when it arrives and when its body is stored. *)
Inductive fetch_result :=
| FetchRejected (why : js_error)
| Response (arrived : Z) (ok : bool) (status : string) (statusText : string)
           (content : body) (stored : Z).

Definition AbortError : js_error := {| name := "AbortError"; message := "The user aborted a request." |}.

Record options := {
  method : option string
}.

Record CacheEntry := {
  entry_data : Envelope;
  entry_timestamp : Z
}.

Record Metrics := {
  requestCount : nat;
  successCount : nat;
  errorCount : nat;
  avgResponseTime : number;
  lastRequestTime : option Z
}.

Record APIService := {
  baseUrl : string;
  timeout : JS.value;
  cache : gmap string CacheEntry;
  cacheTimeout : JS.value;
  metrics : Metrics
}.

Inductive log_level := DEBUG | INFO | WARN | ERROR.

Inductive effect :=
| Console (level : log_level) (text : string)
| Fetch (url : string) (method : option string)
| SetAbortTimer (delay : JS.value)
| ClearAbortTimer.

Definition set_cache v (s : APIService) :=
  {| baseUrl := baseUrl s; timeout := timeout s; cache := v;
     cacheTimeout := cacheTimeout s; metrics := metrics s |}.

Definition set_metrics v (s : APIService) :=
  {| baseUrl := baseUrl s; timeout := timeout s; cache := cache s;
     cacheTimeout := cacheTimeout s; metrics := v |}.

Definition set_timeout v (s : APIService) :=
  {| baseUrl := baseUrl s; timeout := v; cache := cache s;
     cacheTimeout := cacheTimeout s; metrics := metrics s |}.

Definition set_cacheTimeout v (s : APIService) :=
  {| baseUrl := baseUrl s; timeout := timeout s; cache := cache s;
     cacheTimeout := v; metrics := metrics s |}.

(** The monad of the service: its state, and the effects it performs. *)
Definition M (A : Type) : Type := APIService -> A * APIService * list effect.

Definition ret {A} (a : A) : M A := fun s => (a, s, []).

Definition bind {A B} (m : M A) (k : A -> M B) : M B :=
  fun s =>
    let '(a, s1, e1) := m s in
    let '(b, s2, e2) := k a s1 in
    (b, s2, e1 ++ e2).

#[global] Instance M_ret : MRet M := @ret.
#[global] Instance M_bind : MBind M := fun A B k m => bind m k.

Definition result_of {A} (r : A * APIService * list effect) : A := fst (fst r).
Definition state_of {A} (r : A * APIService * list effect) : APIService := snd (fst r).
Definition effects_of {A} (r : A * APIService * list effect) : list effect := snd r.

Definition tell (e : effect) : M unit := fun s => (tt, s, [e]).
Definition this : M APIService := fun s => (s, s, []).
Definition update (f : APIService -> APIService) : M unit := fun s => (tt, f s, []).

Definition level_num (l : log_level) : nat :=
  match l with DEBUG => 0 | INFO => 1 | WARN => 2 | ERROR => 3 end.

Definition LOG_LEVEL : log_level := INFO.

Definition log (level : log_level) (text : string) : M unit :=
  if (level_num level <? level_num LOG_LEVEL)%nat then mret tt
  else tell (Console level text).

Definition constructor : APIService := {|
  baseUrl := API_BASE;
  timeout := get (TIMEOUTS APP_CONFIG) "API_REQUEST";
  cache := ∅;
  cacheTimeout := get (DATA APP_CONFIG) "CACHE_DURATION";
  metrics := {| requestCount := 0; successCount := 0; errorCount := 0;
                avgResponseTime := of_Z 0; lastRequestTime := None |}
|}.

(** *** The cache *)

(** [now - cached.timestamp > this.cacheTimeout] *)
Definition expired (now : Z) (ttl : JS.value) (e : CacheEntry) : bool :=
  gt (of_Z (now - entry_timestamp e)) (ToNumber ttl).

Definition cleanupCache (now : Z) : M unit :=
  s ← this;
  let dead := filter (fun kv => expired now (cacheTimeout s) kv.2 = true) (cache s) in
  update (set_cache (filter (fun kv => expired now (cacheTimeout s) kv.2 = false) (cache s)));;
  if (0 <? size dead)%nat then log DEBUG "Cache limpiado:" else mret tt.

Definition setCache (key : string) (d : Envelope) (now : Z) : M unit :=
  update (fun s => set_cache (<[key := {| entry_data := d; entry_timestamp := now |}]> (cache s)) s);;
  s ← this;
  if (50 <? size (cache s))%nat then cleanupCache now else mret tt.

Definition getFromCache (key : string) (now : Z) : M (option Envelope) :=
  s ← this;
  match cache s !! key with
  | None => mret None
  | Some cached =>
      if expired now (cacheTimeout s) cached then
        update (fun s => set_cache (delete key (cache s)) s);;
        mret None
      else mret (Some (entry_data cached))
  end.

Definition clearCache : M unit :=
  update (set_cache ∅);;
  log INFO "Cache completamente limpiado:".

(** *** Metrics *)

Definition updateResponseTime (responseTime : number) : M unit :=
  update (fun s =>
    let m := metrics s in
    set_metrics {| requestCount := requestCount m; successCount := successCount m;
                   errorCount := errorCount m;
                   avgResponseTime :=
                     if strict_eq (avgResponseTime m) (of_Z 0) then responseTime
                     else nadd (nmul (avgResponseTime m) (Num 0.8))
                               (nmul responseTime (Num 0.2));
                   lastRequestTime := lastRequestTime m |} s).

Definition count_request (now : Z) : M unit :=
  update (fun s =>
    let m := metrics s in
    set_metrics {| requestCount := S (requestCount m); successCount := successCount m;
                   errorCount := errorCount m; avgResponseTime := avgResponseTime m;
                   lastRequestTime := Some now |} s).

Definition count_success : M unit :=
  update (fun s =>
    let m := metrics s in
    set_metrics {| requestCount := requestCount m; successCount := S (successCount m);
                   errorCount := errorCount m; avgResponseTime := avgResponseTime m;
                   lastRequestTime := lastRequestTime m |} s).

Definition count_error : M unit :=
  update (fun s =>
    let m := metrics s in
    set_metrics {| requestCount := requestCount m; successCount := successCount m;
                   errorCount := S (errorCount m); avgResponseTime := avgResponseTime m;
                   lastRequestTime := lastRequestTime m |} s).

(** *** request *)

(** [!options.method || options.method === 'GET'] *)
Definition is_get (o : options) : bool :=
  match method o with
  | None => true
  | Some m => String.eqb m "" || String.eqb m "GET"
  end.

(** [options.method || 'GET'] *)
Definition method_or_GET (o : options) : string :=
  match method o with
  | None => "GET"
  | Some m => if String.eqb m "" then "GET" else m
  end.

Definition full_url (s : APIService) (endpoint : string) : string :=
  if String.prefix "http" endpoint then endpoint else baseUrl s +:+ endpoint.

Definition cache_key (o : options) (url : string) : string :=
  method_or_GET o +:+ "_" +:+ url.

(** What a call in flight remembers across its [await]. *)
Record in_flight := {
  startTime : Z;
  url : string;
  cacheKey : string;
  safe : bool
}.

Inductive started :=
| FromCache (payload : Envelope)
| InFlight (ctx : in_flight).

(** [request], up to its first [await]. *)
Definition request_begin (endpoint : string) (o : options) (now : Z) : M started :=
  s ← this;
  let url := full_url s endpoint in
  let cacheKey := cache_key o url in
  count_request now;;
  cached ← (if is_get o then getFromCache cacheKey now else mret None);
  match cached with
  | Some payload =>
      log DEBUG "Respuesta desde cache:";;
      mret (FromCache payload)
  | None =>
      s ← this;
      tell (SetAbortTimer (timeout s));;
      log DEBUG "Peticion:";;
      tell (Fetch url (method o));;
      mret (InFlight {| startTime := now; url := url; cacheKey := cacheKey;
                        safe := is_get o |})
  end.

(** The [catch] block of [request]. *)
Definition request_catch (e : js_error) : M (attempt Envelope) :=
  tell ClearAbortTimer;;
  count_error;;
  if String.eqb (name e) "AbortError" then
    log ERROR "Timeout en";;
    mret (Rejected {| name := "Error"; message := "Timeout de peticion" |})
  else
    log ERROR "Error en";;
    mret (Rejected e).

(** [request], from the moment [fetch] settles. *)
Definition request_end (ctx : in_flight) (res : fetch_result) : M (attempt Envelope) :=
  match res with
  | FetchRejected e => request_catch e
  | Response arrived ok status statusText content stored =>
      tell ClearAbortTimer;;
      updateResponseTime (of_Z (arrived - startTime ctx));;
      if negb ok then
        request_catch {| name := "Error"; message := "HTTP " +:+ status +:+ ": " +:+ statusText |}
      else
        match content with
        | BodyInvalid => request_catch {| name := "SyntaxError"; message := "Unexpected token" |}
        | BodyNull => request_catch {| name := "TypeError"; message := "Cannot read properties of null" |}
        | Body d =>
            if negb (success d) then
              request_catch {| name := "Error";
                               message := default "Error del servidor" (error d) |}
            else
              (if safe ctx && success d then setCache (cacheKey ctx) d stored else mret tt);;
              count_success;;
              log DEBUG "Respuesta exitosa de";;
              mret (Fulfilled d)
        end
  end.

(** A whole call of [request], with nothing else running in between. *)
Definition request (endpoint : string) (o : options) (now : Z) (res : fetch_result)
  : M (attempt Envelope) :=
  r ← request_begin endpoint o now;
  match r with
  | FromCache payload => mret (Fulfilled payload)
  | InFlight ctx => request_end ctx res
  end.

(** *** The typed wrappers, from the moment their [request] settles *)

Record Reading := {
  value : number;
  reading_timestamp : raw;
  rawData : raw
}.

Record Stats := {
  totalReadings : raw;
  minValue : raw;
  maxValue : raw;
  avgValue : raw;
  firstReading : raw;
  lastReading : raw
}.

Definition undefined : raw := ROther OUndefined.

Definition TypeError : js_error := {| name := "TypeError"; message := "Cannot read properties" |}.

(** Property reads on [response.data]: they throw on [undefined] and
    [null], and find nothing on a primitive or an array. *)
Definition fields_of (d : data_field) : option fields :=
  match d with
  | DataNullish => None
  | DataFalsy | DataArray _ =>
      Some {| raw_data := undefined; timestamp := undefined; total_readings := undefined;
              min_value := undefined; max_value := undefined; avg_value := undefined;
              first_reading := undefined; last_reading := undefined |}
  | DataObject f => Some f
  end.



Fixpoint map_items (items : list item) : option (list Reading) :=
  match items with
  | [] => Some []
  | ItemNullish :: _ => None
  | ItemValue raw_data timestamp :: rest =>
      match map_items rest with
      | Some readings =>
          Some ({| value := extractLDRValue raw_data; reading_timestamp := timestamp;
                   rawData := raw_data |} :: readings)
      | None => None
      end
  end.

Definition getHistory (r : attempt Envelope) : M (attempt (list Reading)) :=
  match r with
  | Rejected e => log ERROR "Error obteniendo historial";; mret (Rejected e)
  | Fulfilled response =>
      match data response with
      | DataArray items =>
          match map_items items with
          | Some history => log DEBUG "Historial obtenido:";; mret (Fulfilled history)
          | None => log ERROR "Error obteniendo historial";; mret (Rejected TypeError)
          end
      | _ => log ERROR "Error obteniendo historial";; mret (Rejected TypeError)
      end
  end.

Definition getStats (r : attempt Envelope) : M (attempt Stats) :=
  match r with
  | Rejected e => log ERROR "Error obteniendo estadisticas";; mret (Rejected e)
  | Fulfilled response =>
      match fields_of (data response) with
      | Some f =>
          log DEBUG "Estadisticas obtenidas:";;
          mret (Fulfilled {| totalReadings := raw_or (total_readings f) (RNumber (of_Z 0));
                             minValue := min_value f; maxValue := max_value f;
                             avgValue := avg_value f; firstReading := first_reading f;
                             lastReading := last_reading f |})
      | None => log ERROR "Error obteniendo estadisticas";; mret (Rejected TypeError)
      end
  end.

(** *** getCompleteData *)

Inductive stats_slot :=
| StatsValue (s : Stats)
| EmptyObject.

Record CompleteData := {
  latest : option Reading;
  stats : stats_slot;
  recentHistory : list Reading;
  complete_timestamp : string;
  errors : list string
}.

(** [getCompleteData], up to its [await]: the three sub-calls are started. *)
Definition getCompleteData_begin : M unit :=
  log INFO "Obteniendo datos completos...".

(** [getCompleteData], from the moment [Promise.allSettled] hands back the
    outcomes of its three sub-calls; [iso] is [new Date().toISOString()]. *)
Definition getCompleteData (latest : attempt (option Reading)) (stats : attempt Stats)
    (history : attempt (list Reading)) (iso : string) : M (attempt CompleteData) :=
  let errors0 : list string := [] in
  let errors1 := match latest with
                 | Rejected why => errors0 ++ ["Latest: " +:+ message why]
                 | Fulfilled _ => errors0
                 end in
  let errors2 := match stats with
                 | Rejected why => errors1 ++ ["Stats: " +:+ message why]
                 | Fulfilled _ => errors1
                 end in
  let errors3 := match history with
                 | Rejected why => errors2 ++ ["History: " +:+ message why]
                 | Fulfilled _ => errors2
                 end in
  log INFO "Datos completos obtenidos";;
  mret (Fulfilled
    {| latest := match latest with Fulfilled v => v | Rejected _ => None end;
       stats := match stats with Fulfilled v => StatsValue v | Rejected _ => EmptyObject end;
       recentHistory := match history with Fulfilled v => v | Rejected _ => [] end;
       complete_timestamp := iso;
       errors := errors3 |}).

(** *** getMetrics *)

Record MetricsReport := {
  report : Metrics;
  successRate : number;
  roundedResponseTime : number;
  cacheSize : nat;
  cacheHitRate : number
}.

(** [calculateCacheHitRate()]; [random] is what [Math.random()] returns. *)
Definition calculateCacheHitRate (random : number) (s : APIService) : number :=
  if (0 <? size (cache s))%nat then
    Math_min (nadd (of_Z 85) (nmul random (of_Z 10))) (of_Z 100)
  else of_Z 0.

Definition getMetrics (random : number) (s : APIService) : MetricsReport :=
  let m := metrics s in
  let rate :=
    if (0 <? requestCount m)%nat then
      nmul (ndiv (of_nat (successCount m)) (of_nat (requestCount m))) (of_Z 100)
    else of_Z 0 in
  {| report := m;
     successRate := ndiv (Math_round (nmul rate (of_Z 100))) (of_Z 100);
     roundedResponseTime := ndiv (Math_round (nmul (avgResponseTime m) (of_Z 100))) (of_Z 100);
     cacheSize := size (cache s);
     cacheHitRate := calculateCacheHitRate random s |}.

(** *** Observations *)

(** The effect is a network call. *)
Definition is_fetch (e : effect) : bool :=
  match e with
  | Fetch _ _ => true
  | _ => false
  end.

Definition network_calls (es : list effect) : list effect := List.filter is_fetch es.

(** 1 for a sub-call that failed, 0 for one that succeeded. *)
Definition failed {A} (a : attempt A) : nat :=
  match a with
  | Rejected _ => 1
  | Fulfilled _ => 0
  end.

(** A successful reading of [/api/latest]. *)
Definition sample_envelope : Envelope :=
  {| success := true; error := None;
     data := DataObject {| raw_data := RString (lit "LDR=742");
                           timestamp := RString (lit "2024-01-01T00:00:00");
                           total_readings := undefined; min_value := undefined;
                           max_value := undefined; avg_value := undefined;
                           first_reading := undefined; last_reading := undefined |} |}.

Definition sample_response : fetch_result :=
  Response 40 true "200" "OK" (Body sample_envelope) 41.

Definition GET : options := {| method := None |}.

(** The service after one successful GET of [/api/latest] issued at time 0. *)
Definition warmed_up : APIService :=
  state_of (request "/api/latest" GET 0 sample_response constructor).

(** What [Math.random()] may return: a number in [0, 1). *)
Definition is_random (r : number) : Prop :=
  match r with
  | Num q => (0 <= q)%Q /\ (q < 1)%Q
  | _ => False
  end.

(** Whether a call succeeded. *)
Definition fulfilled {A} (a : attempt A) : bool :=
  match a with
  | Fulfilled _ => true
  | Rejected _ => false
  end.

(** *** Health checks and probes *)

(** [checkHealth], from the moment its [request] settles. *)
Definition checkHealth (r : attempt Envelope) : M (attempt data_field) :=
  match r with
  | Fulfilled response =>
      log INFO "Backend saludable";;
      mret (Fulfilled (data response))
  | Rejected _ =>
      log ERROR "Backend no disponible";;
      mret (Rejected {| name := "Error"; message := "Backend no disponible" |})
  end.

(** [testConnection], from the moment [checkHealth] settles. *)
Definition testConnection (h : attempt data_field) : bool :=
  match h with
  | Fulfilled _ => true
  | Rejected _ => false
  end.

(** [pingEndpoint], from the moment its [request] settles. *)
Definition pingEndpoint (r : attempt Envelope) : M bool :=
  match r with
  | Fulfilled _ => log DEBUG "Endpoint disponible";; mret true
  | Rejected _ => log WARN "Endpoint no disponible";; mret false
  end.

(** Whole calls, with nothing else running in between. *)
Definition checkHealth_call (now : Z) (res : fetch_result) : M (attempt data_field) :=
  r ← request HEALTH GET now res;
  checkHealth r.

Definition testConnection_call (now : Z) (res : fetch_result) : M bool :=
  h ← checkHealth_call now res;
  mret (testConnection h).

(** One call after the other, each finished before the next starts. *)
Record call := {
  call_endpoint : string;
  call_options : options;
  call_time : Z;
  call_answer : fetch_result
}.

Fixpoint requests (calls : list call) : M (list (attempt Envelope)) :=
  match calls with
  | [] => mret []
  | c :: rest =>
      r ← request (call_endpoint c) (call_options c) (call_time c) (call_answer c);
      rs ← requests rest;
      mret (r :: rs)
  end.

(** *** runDiagnostics *)

Record EndpointReport := {
  report_endpoint : string;
  available : bool;
  status : string
}.

(** [getConfig()] *)
Record ServiceConfig := {
  config_baseUrl : string;
  config_timeout : JS.value;
  config_cacheTimeout : JS.value;
  config_endpoints : list string;
  config_cacheSize : nat
}.

Definition getConfig (s : APIService) : ServiceConfig :=
  {| config_baseUrl := baseUrl s;
     config_timeout := timeout s;
     config_cacheTimeout := cacheTimeout s;
     config_endpoints := map snd ENDPOINTS;
     config_cacheSize := size (cache s) |}.

Record Diagnostics := {
  diagnostics_timestamp : string;
  overall : string;
  endpoints : list (string * EndpointReport);
  diagnostics_metrics : MetricsReport;
  diagnostics_config : ServiceConfig;
  diagnostics_errors : list string;
  diagnostics_duration : Z;
  availability : number
}.

(** The endpoint tests, in the order in which their probes settle: each
    gets the name and the path of its endpoint and the outcome of the
    [request] of its probe.  [pingEndpoint] does not throw, so the [catch]
    around it never runs. *)
Fixpoint endpointTests (tests : list (string * string * attempt Envelope))
  : M (list (string * EndpointReport)) :=
  match tests with
  | [] => mret []
  | (name, endpoint, r) :: rest =>
      available ← pingEndpoint r;
      reports ← endpointTests rest;
      mret ((name, {| report_endpoint := endpoint; available := available;
                      status := if available then "healthy" else "unreachable" |})
              :: reports)
  end.

(** [runDiagnostics], from the moment the requests of its probes have
    settled.  [started] is the service as it was when the call began, where
    the metrics and the configuration are read; [random] is what
    [Math.random()] returned there, [iso] the time stamp, [startTime] and
    [finish] the two clock readings. *)
Definition runDiagnostics (started : APIService) (random : number) (iso : string)
    (startTime finish : Z) (tests : list (string * string * attempt Envelope))
  : M Diagnostics :=
  reports ← endpointTests tests;
  let availableEndpoints := length (List.filter (fun r => available (snd r)) reports) in
  let totalEndpoints := length reports in
  let overall := if (availableEndpoints =? totalEndpoints)%nat then "healthy"
                 else if (0 <? availableEndpoints)%nat then "degraded"
                 else "down" in
  log INFO "Diagnostico completado";;
  mret {| diagnostics_timestamp := iso;
          overall := overall;
          endpoints := reports;
          diagnostics_metrics := getMetrics random started;
          diagnostics_config := getConfig started;
          diagnostics_errors := [];
          diagnostics_duration := finish - startTime;
          availability :=
            if (0 <? totalEndpoints)%nat
            then nmul (ndiv (of_nat availableEndpoints) (of_nat totalEndpoints)) (of_Z 100)
            else of_Z 0 |}.

(** *** batchRequest *)

(** What a rejected promise was rejected with, as far as [.message] is
    read off it. *)
Inductive reason :=
| ReasonNullish
| ReasonValue (message : raw).

Inductive settled (A : Type) :=
| SettledFulfilled (v : A)
| SettledRejected (why : reason).
Arguments SettledFulfilled {A} v.
Arguments SettledRejected {A} why.

(** An element of the array handed to [batchRequest]: a function that
    throws when it is called, or something that settles (a promise, a
    function that returns one, or a plain value). *)
Inductive batch_entry (A : Type) :=
| FunctionThrows (e : js_error)
| Settles (s : settled A).
Arguments FunctionThrows {A} e.
Arguments Settles {A} s.

Record BatchResult (A : Type) := {
  successful : list (nat * A);
  batch_failed : list (nat * raw);
  duration : Z;
  total : nat;
  batch_successRate : number
}.
Arguments successful {A} _.
Arguments batch_failed {A} _.
Arguments duration {A} _.
Arguments total {A} _.
Arguments batch_successRate {A} _.

(** [requests.map(...)]: the first function that throws ends it. *)
Fixpoint call_all {A} (entries : list (batch_entry A)) : js_error + list (settled A) :=
  match entries with
  | [] => inr []
  | FunctionThrows e :: _ => inl e
  | Settles s :: rest =>
      match call_all rest with
      | inl e => inl e
      | inr results => inr (s :: results)
      end
  end.

(** [results.forEach(...)], from index [index] on: [None] when reading
    [.message] off a reason throws. *)
Fixpoint sort_out {A} (index : nat) (results : list (settled A))
  : option (list (nat * A) * list (nat * raw)) :=
  match results with
  | [] => Some ([], [])
  | SettledFulfilled v :: rest =>
      match sort_out (S index) rest with
      | Some (ok, ko) => Some ((index, v) :: ok, ko)
      | None => None
      end
  | SettledRejected ReasonNullish :: _ => None
  | SettledRejected (ReasonValue message) :: rest =>
      match sort_out (S index) rest with
      | Some (ok, ko) => Some (ok, (index, message) :: ko)
      | None => None
      end
  end.

(** [batchRequest(requests)]; [startTime] and [finish] are the two clock
    readings. *)
Definition batchRequest {A} (entries : list (batch_entry A)) (startTime finish : Z)
  : M (attempt (BatchResult A)) :=
  log INFO "Ejecutando batch";;
  match call_all entries with
  | inl e => mret (Rejected e)
  | inr results =>
      match sort_out 0 results with
      | None => mret (Rejected TypeError)
      | Some (ok, ko) =>
          log DEBUG "Batch completado";;
          mret (Fulfilled
            {| successful := ok;
               batch_failed := ko;
               duration := finish - startTime;
               total := length entries;
               batch_successRate :=
                 nmul (ndiv (of_nat (length ok)) (of_nat (length entries))) (of_Z 100) |})
      end
  end.

(** *** getSystemInfo *)

Record SystemInfo := {
  info_status : raw;
  info_service : raw;
  info_totalReadings : raw;
  info_endpoints : raw;
  lastUpdate : string;
  info_errors : list string
}.

(** The empty array. *)
Definition empty_array : raw := ROther (OObject []).

(** What [.status], [.service] and [.endpoints] read as on the health
    data: the reads throw on [undefined] and [null], find nothing on a
    primitive or an array, and give [status], [service] and [endpoints] on
    an object. *)
Definition health_properties (d : data_field) (status service endpoints : raw)
  : option (raw * raw * raw) :=
  match d with
  | DataNullish => None
  | DataFalsy | DataArray _ => Some (undefined, undefined, undefined)
  | DataObject _ => Some (status, service, endpoints)
  end.

(** [getSystemInfo], from the moment [Promise.allSettled] hands back the
    outcomes of [checkHealth] and [getStats]; [iso] is
    [new Date().toISOString()]. *)
Definition getSystemInfo (health : attempt data_field) (status service endpoints : raw)
    (stats : attempt Stats) (iso : string) : M (attempt SystemInfo) :=
  let stats_part :=
    match stats with
    | Fulfilled v => (totalReadings v, [])
    | Rejected why => (RNumber (of_Z 0), ["Stats: " +:+ message why])
    end in
  match health with
  | Fulfilled d =>
      match health_properties d status service endpoints with
      | None =>
          log ERROR "Error obteniendo info del sistema";;
          mret (Rejected TypeError)
      | Some (st, sv, en) =>
          mret (Fulfilled
            {| info_status := raw_or st (RString (lit "healthy"));
               info_service := raw_or sv (RString (lit "LDR Monitor API"));
               info_totalReadings := fst stats_part;
               info_endpoints := raw_or en empty_array;
               lastUpdate := iso;
               info_errors := snd stats_part |})
      end
  | Rejected why =>
      mret (Fulfilled
        {| info_status := RString (lit "unknown");
           info_service := RString (lit "LDR Monitor API");
           info_totalReadings := fst stats_part;
           info_endpoints := empty_array;
           lastUpdate := iso;
           info_errors := ("Health check: " +:+ message why) :: snd stats_part |})
  end.

End API.

(** ** The monitor page: its history and counters *)

Module Monitor.
Import JS Config.

(** The history of [MonitorApp] and its counters.  The chart, the table
    and the other DOM writes read these fields and write none of them, and
    neither do the fields left out here ([currentStats], [readingRate],
    [lastReadingTime] and the like), which the history operations fill in
    from these. *)
Record DataPoint := {
  point_number : nat;
  point_value : number;
  point_timestamp : raw;
  point_theme : theme;
  delta : number
}.

Record Distribution := {
  dark : nat;
  medium : nat;
  bright : nat
}.

Record MonitorApp := {
  isPaused : bool;
  sharedHistory : list DataPoint;
  maxHistoryPoints : nat;
  totalReadings : nat;
  themeDistribution : Distribution
}.

Definition constructor : MonitorApp := {|
  isPaused := false;
  sharedHistory := [];
  maxHistoryPoints := 100;
  totalReadings := 0;
  themeDistribution := {| dark := 0; medium := 0; bright := 0 |}
|}.

(** [themeDistribution[theme.toLowerCase()]++] *)
Definition tally (t : theme) (d : Distribution) : Distribution :=
  match t with
  | DARK => {| dark := S (dark d); medium := medium d; bright := bright d |}
  | MEDIUM => {| dark := dark d; medium := S (medium d); bright := bright d |}
  | BRIGHT => {| dark := dark d; medium := medium d; bright := S (bright d) |}
  end.

(** [forEach((point, index) => point.number = index + 1)], from [index] on. *)
Fixpoint renumber (index : nat) (h : list DataPoint) : list DataPoint :=
  match h with
  | [] => []
  | point :: rest =>
      {| point_number := index + 1; point_value := point_value point;
         point_timestamp := point_timestamp point; point_theme := point_theme point;
         delta := delta point |} :: renumber (S index) rest
  end.

Definition addToSharedHistory (ldrValue : number) (timestamp : raw) (app : MonitorApp)
  : MonitorApp :=
  let readingNumber := (length (sharedHistory app) + 1)%nat in
  let theme := determineTheme ldrValue in
  let dataPoint := {|
    point_number := readingNumber;
    point_value := ldrValue;
    point_timestamp := timestamp;
    point_theme := theme;
    delta := match last (sharedHistory app) with
             | Some previous => nsub ldrValue (point_value previous)
             | None => of_Z 0
             end |} in
  let pushed := sharedHistory app ++ [dataPoint] in
  {| isPaused := isPaused app;
     sharedHistory := if (maxHistoryPoints app <? length pushed)%nat
                      then renumber 0 (tail pushed) else pushed;
     maxHistoryPoints := maxHistoryPoints app;
     totalReadings := S (totalReadings app);
     themeDistribution := tally theme (themeDistribution app) |}.

(** [handleRealtimeData(data)]: [value] and [timestamp] are the two
    properties it reads of the payload, [iso] what [toISOString] gives for
    the current time. *)
Definition handleRealtimeData (value timestamp : raw) (iso : jsstring) (app : MonitorApp)
  : MonitorApp :=
  if isPaused app then app
  else addToSharedHistory (extractLDRValue value) (raw_or timestamp (RString iso)) app.

(** [loadSharedHistory(history)], on what [getCompleteData] hands over as
    [recentHistory]: readings whose [value] is a number and that have no
    [raw_data] property.  [history.reverse()] reverses the array of the
    caller where it stands and the loop walks that same array, so the
    call yields two things: the page, and the array of the caller as the
    call leaves it. *)
Definition loadSharedHistory (history : list API.Reading) (app : MonitorApp)
  : MonitorApp * list API.Reading :=
  let reversed := rev history in
  (fold_left
     (fun a reading =>
        addToSharedHistory
          (extractLDRValue (raw_or (RNumber (API.value reading)) (ROther OUndefined)))
          (API.reading_timestamp reading) a)
     reversed
     {| isPaused := isPaused app; sharedHistory := [];
        maxHistoryPoints := maxHistoryPoints app; totalReadings := totalReadings app;
        themeDistribution := themeDistribution app |},
   reversed).

Definition togglePause (app : MonitorApp) : MonitorApp :=
  {| isPaused := negb (isPaused app); sharedHistory := sharedHistory app;
     maxHistoryPoints := maxHistoryPoints app; totalReadings := totalReadings app;
     themeDistribution := themeDistribution app |}.

(** [clearData()]; [confirmed] is the answer to the [confirm] dialog. *)
Definition clearData (confirmed : bool) (app : MonitorApp) : MonitorApp :=
  if confirmed then
    {| isPaused := isPaused app; sharedHistory := [];
       maxHistoryPoints := maxHistoryPoints app; totalReadings := 0;
       themeDistribution := {| dark := 0; medium := 0; bright := 0 |} |}
  else app.

(** What can happen to the page, and a session of such happenings from
    the freshly constructed application on.  [Load] carries the array as
    it is when the call is made. *)
Inductive action :=
| Realtime (value timestamp : raw) (iso : jsstring)
| Load (history : list API.Reading)
| Clear (confirmed : bool)
| TogglePause.

Definition act (app : MonitorApp) (a : action) : MonitorApp :=
  match a with
  | Realtime value timestamp iso => handleRealtimeData value timestamp iso app
  | Load history => fst (loadSharedHistory history app)
  | Clear confirmed => clearData confirmed app
  | TogglePause => togglePause app
  end.

Definition session (actions : list action) : MonitorApp :=
  fold_left act actions constructor.

(** Each point but the first carries the difference to the value before it. *)
Fixpoint deltas_follow (h : list DataPoint) : Prop :=
  match h with
  | p :: (q :: _) as rest =>
      delta q = nsub (point_value q) (point_value p) /\ deltas_follow rest
  | _ => True
  end.

Definition counted (d : Distribution) : nat := (dark d + medium d + bright d)%nat.

(** The last [n] elements of a list. *)
Definition window {A} (n : nat) (l : list A) : list A := drop (length l - n) l.

(** What every reachable state of the page satisfies. *)
Definition consistent (app : MonitorApp) : Prop :=
  maxHistoryPoints app = 100%nat /\
  (length (sharedHistory app) <= maxHistoryPoints app)%nat /\
  (length (sharedHistory app) <= totalReadings app)%nat /\
  map point_number (sharedHistory app) = seq 1 (length (sharedHistory app)) /\
  counted (themeDistribution app) = totalReadings app /\
  Forall (fun p => point_theme p = determineTheme (point_value p)) (sharedHistory app) /\
  deltas_follow (sharedHistory app).


(** What the page makes of a reading handed over by the polling client. *)
Definition loaded_value (reading : API.Reading) : number :=
  extractLDRValue (raw_or (RNumber (API.value reading)) (ROther OUndefined)).

End Monitor.

(** * Properties *)

Import JS Config.

(** ** The decoder of raw sensor values *)

Section Decoder.

Lemma marker_eq : marker = [76; 68; 82; 61]%N.
Proof. reflexivity. Qed.

Lemma is_digit_range (c : N) : is_digit c = true <-> (48 <= c <= 57)%N.
Proof.
  unfold is_digit. rewrite andb_true_iff, !N.leb_le. tauto.
Qed.

Lemma is_radix_digit_10 (c : N) : is_radix_digit 10 c = is_digit c.
Proof.
  unfold is_radix_digit, digit_in_radix, is_digit.
  destruct (48 <=? c)%N eqn:E1, (c <=? 57)%N eqn:E2; cbn [andb].
  - apply N.leb_le in E1, E2.
    destruct (c - 48 <? 10)%N eqn:E3; [reflexivity|]. apply N.ltb_ge in E3. lia.
  - apply N.leb_gt in E2.
    destruct ((97 <=? c) && (c <=? 122))%N eqn:E3.
    + apply andb_true_iff in E3 as [E3 E4]. apply N.leb_le in E3, E4.
      destruct (c - 97 + 10 <? 10)%N eqn:E5; [|reflexivity]. apply N.ltb_lt in E5. lia.
    + destruct ((65 <=? c) && (c <=? 90))%N eqn:E4; [|reflexivity].
      apply andb_true_iff in E4 as [E4 E5]. apply N.leb_le in E4, E5.
      destruct (c - 65 + 10 <? 10)%N eqn:E6; [|reflexivity]. apply N.ltb_lt in E6. lia.
  - apply N.leb_gt in E1.
    destruct ((97 <=? c) && (c <=? 122))%N eqn:E3.
    + apply andb_true_iff in E3 as [E3 E4]. apply N.leb_le in E3. lia.
    + destruct ((65 <=? c) && (c <=? 90))%N eqn:E4; [|reflexivity].
      apply andb_true_iff in E4 as [E4 E5]. apply N.leb_le in E4. lia.
  - apply N.leb_gt in E1, E2. lia.
Qed.

Lemma digit_not_whitespace (c : N) : digit c -> is_whitespace c = false.
Proof.
  intros Hd. apply is_digit_range in Hd. unfold is_whitespace. cbn [existsb].
  repeat match goal with
         | |- context [(c =? ?k)%N] =>
             replace (c =? k)%N with false by (symmetry; apply N.eqb_neq; lia)
         end.
  reflexivity.
Qed.

Lemma take_while_all (p : N -> bool) (l : jsstring) :
  Forall (fun c => p c = true) l -> take_while p l = l.
Proof. induction 1 as [|c l Hc _ IH]; cbn; [reflexivity|]. now rewrite Hc, IH. Qed.

Lemma take_while_app (p : N -> bool) (l rest : jsstring) :
  Forall (fun c => p c = true) l -> take_while p rest = [] ->
  take_while p (l ++ rest) = l.
Proof.
  intros Hl Hr. induction Hl as [|c l Hc _ IH]; cbn; [exact Hr|]. now rewrite Hc, IH.
Qed.





Lemma strip_prefix_app (p t : jsstring) : strip_prefix p (p ++ t) = Some t.
Proof. induction p as [|a p IH]; cbn; [reflexivity|]. now rewrite N.eqb_refl. Qed.

(** Whether [p] is a prefix only depends on the first [length p] units. *)
Lemma strip_prefix_none_app (p a b c : jsstring) :
  (length p <= length a)%nat ->
  strip_prefix p (a ++ b) = None -> strip_prefix p (a ++ c) = None.
Proof.
  revert a. induction p as [|x p IH]; intros a Hlen H; cbn in *; [discriminate|].
  destruct a as [|y a]; cbn in *; [lia|].
  destruct (x =? y)%N; [|reflexivity]. apply IH; [lia | exact H].
Qed.

Lemma includes_app (m pre t : jsstring) : includes m (pre ++ m ++ t) = true.
Proof.
  induction pre as [|c pre IH]; cbn.
  - destruct m; cbn; [now destruct t|]. now rewrite N.eqb_refl, strip_prefix_app.
  - destruct (strip_prefix m (c :: pre ++ m ++ t)); [reflexivity | exact IH].
Qed.

Lemma includes_head (m s : jsstring) :
  includes m s = false -> strip_prefix m s = None.
Proof. destruct s; cbn; destruct (strip_prefix m _); congruence. Qed.

Lemma includes_tail (m : jsstring) (c : N) (s : jsstring) :
  includes m (c :: s) = false -> includes m s = false.
Proof. cbn. destruct (strip_prefix m (c :: s)); congruence. Qed.

Lemma read_sign_digit (c : N) (r : jsstring) :
  digit c -> read_sign (c :: r) = (false, c :: r).
Proof.
  intros Hc. apply is_digit_range in Hc. unfold read_sign.
  replace (c =? 45)%N with false by (symmetry; apply N.eqb_neq; lia).
  replace (c =? 43)%N with false by (symmetry; apply N.eqb_neq; lia).
  reflexivity.
Qed.





Lemma drop_while_app (p : N -> bool) (l rest : jsstring) :
  Forall (fun c => p c = true) l -> take_while p rest = [] ->
  drop_while p (l ++ rest) = rest.
Proof.
  intros Hl Hr. induction Hl as [|c l Hc _ IH]; cbn.
  - destruct rest as [|c r]; [reflexivity|]. cbn in *. now destruct (p c).
  - now rewrite Hc.
Qed.

Lemma take_while_ext (p q : N -> bool) (s : jsstring) :
  (forall c, p c = q c) -> take_while p s = take_while q s.
Proof. intros H. induction s as [|c s IH]; cbn; [reflexivity|]. now rewrite H, IH. Qed.



(** *** The Number value of an integer *)

Lemma double_of_Z_exact (z : Z) : - 2 ^ 53 <= z <= 2 ^ 53 -> double_of_Z z = of_Z z.
Proof.
  intros Hz.
  assert (C : Z.log2 (Z.abs z) - 52 <= 0 \/ z = 2 ^ 53 \/ z = - 2 ^ 53).
  { destruct (Z.eq_dec (Z.abs z) (2 ^ 53)) as [E|E]; [right; lia|left].
    destruct (Z.eq_dec (Z.abs z) 0) as [->|N]; [cbn; lia|].
    assert (Z.log2 (Z.abs z) < 53) by (apply Z.log2_lt_pow2; lia). lia. }
  destruct C as [C|[->| ->]]; [|reflexivity|reflexivity].
  unfold double_of_Z. apply Z.leb_le in C. rewrite C.
  replace (2 ^ 1024 <=? Z.abs z) with false.
  - f_equal. destruct (z <? 0) eqn:E; [apply Z.ltb_lt in E | apply Z.ltb_ge in E]; lia.
  - symmetry. apply Z.leb_gt.
    apply Z.le_lt_trans with (2 ^ 53); [lia|]. now apply Z.pow_lt_mono_r.
Qed.







(** Past 2^53 only every other integer is a double, a tie goes to the
    even significand, and the integers beyond the largest double are
    infinite. *)
Remark double_of_Z_rounds :
  double_of_Z (2 ^ 53 + 1) = of_Z (2 ^ 53) /\
  double_of_Z (2 ^ 53 + 2) = of_Z (2 ^ 53 + 2) /\
  double_of_Z (2 ^ 53 + 3) = of_Z (2 ^ 53 + 4) /\
  double_of_Z (- (2 ^ 53 + 3)) = of_Z (- (2 ^ 53 + 4)) /\
  double_of_Z (10 ^ 22 + 1) = of_Z (10 ^ 22) /\
  double_of_Z (2 ^ 1024 - 2 ^ 970 - 1) = of_Z (2 ^ 1024 - 2 ^ 971) /\
  double_of_Z (2 ^ 1024 - 2 ^ 970) = Infinity false /\
  double_of_Z (- 10 ^ 400) = Infinity true.
Proof. repeat split; vm_compute; reflexivity. Qed.





(** *** parseInt *)


Lemma read_sign_app (sg : jsstring) (c : N) (r : jsstring) :
  sg = [] \/ sg = lit "+" \/ sg = lit "-" -> digit c ->
  read_sign (sg ++ c :: r) = (bool_decide (sg = lit "-"), c :: r).
Proof.
  intros [-> | [-> | ->]] Hc; [|reflexivity|reflexivity].
  cbn [app]. now rewrite (read_sign_digit c r Hc).
Qed.

Lemma drop_whitespace (ws sg : jsstring) (c : N) (r : jsstring) :
  Forall (fun x => is_whitespace x = true) ws ->
  sg = [] \/ sg = lit "+" \/ sg = lit "-" -> digit c ->
  drop_while is_whitespace (ws ++ sg ++ c :: r) = sg ++ c :: r.
Proof.
  intros Hws Hsg Hc. apply drop_while_app; [exact Hws|].
  destruct Hsg as [-> | [-> | ->]]; [|reflexivity|reflexivity].
  cbn [app take_while]. now rewrite (digit_not_whitespace c Hc).
Qed.

Lemma read_radix_decimal (c : N) (r : jsstring) :
  (c = 48%N -> forall x r', r = x :: r' -> x <> 120%N /\ x <> 88%N) ->
  read_radix (c :: r) = (10%N, c :: r).
Proof.
  intros H. destruct r as [|x r']; [reflexivity|]. unfold read_radix.
  destruct (c =? 48)%N eqn:E; [|reflexivity]. apply N.eqb_eq in E.
  destruct (H E x r' eq_refl) as [H1 H2].
  apply N.eqb_neq in H1, H2. now rewrite H1, H2.
Qed.


(** A decimal numeral in front: white space, a sign, digits. *)
Lemma parseInt_decimal (ws sg ds rest : jsstring) :
  Forall (fun c => is_whitespace c = true) ws ->
  sg = [] \/ sg = lit "+" \/ sg = lit "-" ->
  ds <> [] -> Forall digit ds -> take_while is_digit rest = [] ->
  (ds = lit "0" -> forall x r, rest = x :: r -> x <> 120%N /\ x <> 88%N) ->
  parseInt (ws ++ sg ++ ds ++ rest)
  = double_of_Z (if bool_decide (sg = lit "-") then - digits_value 10 ds
                 else digits_value 10 ds).
Proof.
  intros Hws Hsg Hne Hds Hrest Hhex. destruct ds as [|c ds']; [contradiction|].
  pose proof (proj1 (proj1 (Forall_cons _ _ _) Hds)) as Hc.
  unfold parseInt. cbn [app]. rewrite (drop_whitespace ws sg c _ Hws Hsg Hc).
  rewrite (read_sign_app sg c _ Hsg Hc). cbn [fst snd].
  rewrite read_radix_decimal.
  - cbn [fst snd].
    replace (take_while (is_radix_digit 10) (c :: ds' ++ rest)) with (c :: ds').
    + reflexivity.
    + symmetry. apply (take_while_app _ (c :: ds') rest).
      * eapply Forall_impl; [exact Hds|]. intros x Hx. now rewrite is_radix_digit_10.
      * rewrite <- Hrest. apply take_while_ext, is_radix_digit_10.
  - intros -> x r' E. destruct ds' as [|d ds''].
    + apply (Hhex eq_refl x r'). exact E.
    + cbn [app] in E. injection E as <- _.
      apply Forall_cons in Hds as [_ Hds]. apply Forall_cons in Hds as [Hd _].
      apply is_digit_range in Hd. lia.
Qed.



Lemma parseInt_digits (ds : jsstring) :
  ds <> [] -> Forall digit ds -> parseInt ds = double_of_Z (digits_value 10 ds).
Proof.
  intros Hne Hds.
  pose proof (parseInt_decimal [] [] ds [] (List.Forall_nil _) (or_introl eq_refl) Hne Hds eq_refl)
    as H.
  cbn [app] in H. rewrite app_nil_r in H. apply H. intros _ x r E. discriminate E.
Qed.




Lemma match_LDR_unfold (s : jsstring) :
  s <> [] ->
  match_LDR s =
  match strip_prefix marker s with
  | Some behind =>
      match take_while is_digit behind with
      | [] => match_LDR (tail s)
      | ds => Some ds
      end
  | None => match_LDR (tail s)
  end.
Proof. destruct s; [contradiction | reflexivity]. Qed.

Lemma match_LDR_first (pre ds rest : jsstring) :
  includes marker (pre ++ lit "LDR") = false ->
  ds <> [] -> Forall digit ds -> take_while is_digit rest = [] ->
  match_LDR (pre ++ marker ++ ds ++ rest) = Some ds.
Proof.
  intros Hpre Hne Hds Hrest. induction pre as [|c pre IH].
  - cbn [app]. rewrite match_LDR_unfold by (rewrite marker_eq; discriminate).
    rewrite strip_prefix_app, take_while_app by assumption.
    destruct ds; [contradiction | reflexivity].
  - cbn [app match_LDR].
    assert (Hnone : strip_prefix marker (c :: pre ++ marker ++ ds ++ rest) = None).
    { apply includes_head in Hpre.
      replace (c :: pre ++ marker ++ ds ++ rest)
        with (((c :: pre) ++ lit "LDR") ++ ([61%N] ++ ds ++ rest)).
      - eapply strip_prefix_none_app; [|rewrite app_nil_r; exact Hpre].
        rewrite length_app. cbn. lia.
      - rewrite <- !app_assoc. reflexivity. }
    rewrite Hnone. apply IH. eapply includes_tail. exact Hpre.
Qed.



Lemma digits_exclude_marker (s : jsstring) : Forall digit s -> includes marker s = false.
Proof.
  induction 1 as [|c s Hc _ IH]; [reflexivity|].
  apply is_digit_range in Hc. rewrite marker_eq in *.
  cbn [includes strip_prefix].
  replace (76 =? c)%N with false by (symmetry; apply N.eqb_neq; lia).
  exact IH.
Qed.





(** *** The decoder *)




End Decoder.

(** ** The reconnection delay *)

Lemma reconnect_delay_backoff (n : nat) :
  WS.reconnect_delay n = WS.backoff (get (RECONNECTION APP_CONFIG) "RECONNECT_DELAY") n.
Proof. reflexivity. Qed.

(** The base delay of 3000 ms sits under [TIMEOUTS], and the formula gives
    the expected sequence there. *)
Remark backoff_at_TIMEOUTS_base :
  get (TIMEOUTS APP_CONFIG) "RECONNECT_DELAY" = VNumber (of_Z 3000) /\
  map (WS.backoff (get (TIMEOUTS APP_CONFIG) "RECONNECT_DELAY")) [1; 2; 3; 4; 7; 8]%nat
  = [of_Z 3000; of_Z 4500; of_Z 6750; of_Z 10125; of_Z 30000; of_Z 30000].
Proof. split; reflexivity. Qed.

(** C3.  [attemptReconnect] reads the base delay from
    [APP_CONFIG.RECONNECTION.RECONNECT_DELAY], a property that object does not
    have: the read yields [undefined] and the delay of every attempt is
    [NaN], not [min(3000 * 1.5^(n-1), 30000)]; at [n = 1] it is not 3000. *)
Theorem reconnect_delay_is_NaN :
  get (RECONNECTION APP_CONFIG) "RECONNECT_DELAY" = VUndefined /\
  (forall n : nat, WS.reconnect_delay n = NaN) /\
  WS.reconnect_delay 1 <> of_Z 3000.
Proof.
  split; [reflexivity|]. split.
  - intros n. unfold WS.reconnect_delay. reflexivity.
  - discriminate.
Qed.

(** ** The feed client *)

Section FeedClient.
Import WS.

Ltac mon :=
  cbv [mbind mret WS.M_bind WS.M_ret WS.bind WS.ret WS.this WS.window WS.tell
       WS.update WS.update_browser WS.log WS.level_num WS.LOG_LEVEL Nat.ltb Nat.leb
       WS.triggerCallbacks WS.setTimeout WS.setInterval WS.clearTimeout
       WS.clearInterval WS.new_WebSocket WS.readyState WS.setupEventHandlers
       WS.set_readyState].

Lemma bind_run {A B} (m : WS.M A) (k : A -> WS.M B) (w : World) :
  (m ≫= k) w =
  let '(a, w1, e1) := m w in let '(b, w2, e2) := k a w1 in (b, w2, e1 ++ e2).
Proof. reflexivity. Qed.

Lemma stopPingInterval_run (w : World) :
  stopPingInterval w =
  match pingInterval (service w) with
  | Some h => (tt, {| service := set_pingInterval None (service w);
                      browser := set_timers (delete h (timers (browser w))) (browser w) |},
               [ClearInterval h])
  | None => (tt, w, [])
  end.
Proof.
  unfold stopPingInterval. mon. destruct (pingInterval (service w)); reflexivity.
Qed.

Lemma attemptReconnect_exhausted (w : World) :
  ge (of_nat (reconnectAttempts (service w))) (ToNumber (maxReconnectAttempts (service w))) = true ->
  attemptReconnect w =
  (tt, w, [Console ERROR "Maximo de intentos de reconexion alcanzado";
           Callbacks onError (MaxReconnectsReached (reconnectAttempts (service w)))
                     (callbacks (service w) onError)]).
Proof.
  intros H. unfold attemptReconnect. mon. fold (of_nat (reconnectAttempts (service w))).
  unfold ge in H |- *. rewrite H. reflexivity.
Qed.

Lemma attemptReconnect_retries (w : World) :
  ge (of_nat (reconnectAttempts (service w))) (ToNumber (maxReconnectAttempts (service w))) = false ->
  attemptReconnect w =
  let h := next_handle (browser w) in
  let n := S (reconnectAttempts (service w)) in
  let m := metrics (service w) in
  (tt,
   {| service :=
        set_reconnectTimeout (Some h)
          (set_metrics {| messagesReceived := messagesReceived m;
                          lastMessageTime := lastMessageTime m;
                          totalReconnects := S (totalReconnects m);
                          avgLatency := avgLatency m |}
             (set_reconnectAttempts n (service w)));
      browser := set_next_handle (S h)
                   (set_timers (<[h := ReconnectTimer]> (timers (browser w))) (browser w)) |},
   [Console INFO "Reintentando conexion";
    Callbacks onReconnecting
      (ReconnectingInfo n (maxReconnectAttempts (service w)) (reconnect_delay n))
      (callbacks (service w) onReconnecting);
    SetTimeout h ReconnectTimer (VNumber (reconnect_delay n))]).
Proof.
  intros H. unfold attemptReconnect. mon. fold (of_nat (reconnectAttempts (service w))).
  unfold ge in H |- *. rewrite H. reflexivity.
Qed.

Lemma handleClose_run (event : CloseEvent) (w : World) :
  handleClose event w =
  let out := (if abnormal event then attemptReconnect else mret tt) (closed w) in
  (tt, world_of out,
   [Console INFO "Conexion cerrada:"] ++ clears_ping w
   ++ [Callbacks onDisconnected
         (DisconnectedInfo (code event) (reason event) (wasClean event))
         (callbacks (service w) onDisconnected)]
   ++ effects_of out).
Proof.
  unfold handleClose, closed, clears_ping. mon.
  rewrite !stopPingInterval_run. cbn [service browser pingInterval set_isConnected].
  destruct (pingInterval (service w)); cbn;
    destruct ((if abnormal event then attemptReconnect else λ w0, (tt, w0, [])) _)
      as [[[] w2] e2]; reflexivity.
Qed.

Lemma disconnect_connected (c : Z) (r : string) (w : World) (sock : nat) :
  ws (service w) = Some sock -> isConnected (service w) = true ->
  let out := disconnect c r w in
  effects_of out =
    [Console INFO "Desconectando..."] ++ clears_ping w ++ clears_reconnect w
    ++ (if close_arguments_ok c r then [CloseCall sock c r] else []) /\
  pingInterval (service (world_of out)) = None /\
  reconnectTimeout (service (world_of out)) = None /\
  (forall h, pingInterval (service w) = Some h \/ reconnectTimeout (service w) = Some h ->
             timers (browser (world_of out)) !! h = None) /\
  result_of out = (if close_arguments_ok c r then Normal else Throws "close").
Proof.
  intros Hws Hc. unfold disconnect, ws_close, clears_ping, clears_reconnect. mon.
  rewrite Hws, Hc, !stopPingInterval_run. destruct w as [s b].
  cbn [service browser] in *.
  destruct (pingInterval s) eqn:Ep, (reconnectTimeout s) eqn:Er,
    (close_arguments_ok c r); cbn;
    try (destruct (default CLOSED (sockets b !! sock)); cbn);
    rewrite ?Er, ?Ep; cbn;
    (split; [reflexivity|]); (split; [reflexivity|]); (split; [reflexivity|]);
    (split; [|reflexivity]);
    intros h [H|H]; try discriminate; injection H as <-;
    rewrite ?lookup_delete_eq; try reflexivity;
    apply lookup_delete_None; right; apply lookup_delete_eq.
Qed.

Lemma disconnect_spares (c : Z) (r : string) (w : World) (sock : nat) :
  ws (service w) = Some sock -> isConnected (service w) = true ->
  forall h k,
    timers (browser w) !! h = Some k ->
    pingInterval (service w) <> Some h -> reconnectTimeout (service w) <> Some h ->
    timers (browser (world_of (disconnect c r w))) !! h = Some k.
Proof.
  intros Hws Hc h k Hk Hp Hr. unfold disconnect, ws_close. mon.
  rewrite Hws, Hc, !stopPingInterval_run. destruct w as [s b].
  cbn [service browser] in *.
  destruct (pingInterval s) as [hp|] eqn:Ep, (reconnectTimeout s) as [hr|] eqn:Er,
    (close_arguments_ok c r); cbn;
    try (destruct (default CLOSED (sockets b !! sock)); cbn);
    rewrite ?Er, ?Ep; cbn;
    rewrite ?lookup_delete_ne by congruence; exact Hk.
Qed.

Lemma handleClose_quiet_close (event : CloseEvent) (w : World) :
  abnormal event = false ->
  handleClose event w =
  (tt, closed w,
   [Console INFO "Conexion cerrada:"] ++ clears_ping w
   ++ [Callbacks onDisconnected
         (DisconnectedInfo (code event) (reason event) (wasClean event))
         (callbacks (service w) onDisconnected)]).
Proof.
  intros H. rewrite handleClose_run, H. reflexivity.
Qed.

Lemma closed_service (w : World) :
  service (closed w) = set_pingInterval None (set_isConnected false (service w)) \/
  service (closed w) = set_isConnected false (service w).
Proof.
  unfold closed. rewrite stopPingInterval_run. cbn.
  destruct (pingInterval (service w)); cbn; auto.
Qed.

Lemma closed_fields (w : World) :
  reconnectAttempts (service (closed w)) = reconnectAttempts (service w) /\
  maxReconnectAttempts (service (closed w)) = maxReconnectAttempts (service w) /\
  reconnectTimeout (service (closed w)) = reconnectTimeout (service w) /\
  callbacks (service (closed w)) = callbacks (service w) /\
  isConnected (service (closed w)) = false /\
  next_handle (browser (closed w)) = next_handle (browser w) /\
  (forall h k, timers (browser (closed w)) !! h = Some k -> timers (browser w) !! h = Some k).
Proof.
  unfold closed. rewrite stopPingInterval_run. cbn.
  destruct (pingInterval (service w)); cbn; repeat split; auto.
  intros h k H. apply lookup_delete_Some in H. tauto.
Qed.

(** *** Clean shutdown and the close guard *)

(** C1.  [disconnect()] sets out to cancel the pending reconnection, but
    the lines that do so sit behind the test [this.ws && this.isConnected].
    While a reconnection is pending the client is not connected, so on the
    page whose connection has just dropped [disconnect()] does nothing at
    all: the reconnect timer stays armed, and when it fires [connect()]
    creates a new transport. *)
Theorem disconnect_keeps_pending_reconnect :
  let out := disconnect 1000 "Desconexion manual" reconnecting_page in
  isConnected (service reconnecting_page) = false /\
  reconnectTimeout (service reconnecting_page) = Some 3%nat /\
  timers (browser reconnecting_page) !! 3%nat = Some ReconnectTimer /\
  out = (Normal, reconnecting_page, []) /\
  timers (browser (world_of out)) !! 3%nat = Some ReconnectTimer /\
  Exists (fun e => creates_transport e = true)
         (effects_of (step (TimerFires 3 200 true) (world_of out))).
Proof.
  cbv zeta. split; [reflexivity|]. split; [reflexivity|]. split; [reflexivity|].
  split; [reflexivity|]. split; [reflexivity|].
  vm_compute. apply Exists_cons_tl, Exists_cons_tl, Exists_cons_hd. reflexivity.
Qed.

(** What the clean shutdown and the close guard do get right.  On a
    connected client [disconnect(code, reason)] clears the two timers whose
    handles the service holds, the liveness probe and the reconnect timer
    armed last, in that order, before it calls [close] on the transport;
    every other timer stays, a reconnect timer whose handle has been
    overwritten among them.  A close event
    that is clean or has code 1000 never enters the automatic-reconnect
    path: nothing of [attemptReconnect] happens, the attempt counter and
    the reconnect timers stay as they are.  A close event that is not clean
    and whose code is not 1000 always enters it, and while attempts remain
    it arms a reconnect timer. *)
Lemma disconnect_and_close_guard (w : World) :
  (forall c r sock,
     ws (service w) = Some sock -> isConnected (service w) = true ->
     let out := disconnect c r w in
     effects_of out =
       [Console INFO "Desconectando..."] ++ clears_ping w ++ clears_reconnect w
       ++ (if close_arguments_ok c r then [CloseCall sock c r] else []) /\
     pingInterval (service (world_of out)) = None /\
     reconnectTimeout (service (world_of out)) = None /\
     (forall h, pingInterval (service w) = Some h \/ reconnectTimeout (service w) = Some h ->
                timers (browser (world_of out)) !! h = None) /\
     (forall h k,
        timers (browser w) !! h = Some k ->
        pingInterval (service w) <> Some h -> reconnectTimeout (service w) <> Some h ->
        timers (browser (world_of out)) !! h = Some k)) /\
  (forall event,
     wasClean event = true \/ code event = 1000 ->
     let out := handleClose event w in
     Forall (fun e => reconnect_path e = false) (effects_of out) /\
     reconnectAttempts (service (world_of out)) = reconnectAttempts (service w) /\
     reconnectTimeout (service (world_of out)) = reconnectTimeout (service w) /\
     (forall h, timers (browser (world_of out)) !! h = Some ReconnectTimer ->
                timers (browser w) !! h = Some ReconnectTimer)) /\
  (forall event,
     wasClean event = false -> code event <> 1000 ->
     let out := handleClose event w in
     Exists (fun e => reconnect_path e = true) (effects_of out) /\
     world_of out = world_of (attemptReconnect (closed w)) /\
     (ge (of_nat (reconnectAttempts (service w)))
         (ToNumber (maxReconnectAttempts (service w))) = false ->
      let h := next_handle (browser w) in
      reconnectAttempts (service (world_of out)) = S (reconnectAttempts (service w)) /\
      reconnectTimeout (service (world_of out)) = Some h /\
      timers (browser (world_of out)) !! h = Some ReconnectTimer /\
      Exists (fun e => schedules_reconnect e = true) (effects_of out))).
Proof.
  split; [|split].
  - intros c r sock Hws Hc. pose proof (disconnect_connected c r w sock Hws Hc) as H.
    pose proof (disconnect_spares c r w sock Hws Hc) as H'.
    cbv zeta in *. destruct H as (H1 & H2 & H3 & H4 & _). auto.
  - intros event Hev.
    assert (Hab : abnormal event = false).
    { unfold abnormal. destruct Hev as [-> | ->]; [reflexivity|].
      now rewrite andb_false_r. }
    cbv zeta. rewrite (handleClose_quiet_close _ _ Hab).
    destruct (closed_fields w) as (Ha & _ & Ht & _ & _ & _ & Htm).
    unfold world_of, effects_of, clears_ping. cbn [fst snd].
    repeat split; auto.
    destruct (pingInterval (service w)); repeat constructor.
  - intros event Hcl Hcode.
    assert (Hab : abnormal event = true).
    { unfold abnormal. rewrite Hcl. cbn. apply negb_true_iff, Z.eqb_neq, Hcode. }
    cbv zeta. rewrite handleClose_run, Hab.
    destruct (closed_fields w) as (Ha & Hm & Ht & Hcb & _ & Hn & Htm).
    unfold world_of at 1 3, effects_of at 1. cbn [fst snd].
    split; [|split; [reflexivity|]].
    + rewrite !Exists_app. right. right. right.
      destruct (ge (of_nat (reconnectAttempts (service (closed w))))
                   (ToNumber (maxReconnectAttempts (service (closed w))))) eqn:G.
      * rewrite (attemptReconnect_exhausted _ G). cbn.
        apply Exists_cons_tl, Exists_cons_hd. reflexivity.
      * rewrite (attemptReconnect_retries _ G). cbn.
        apply Exists_cons_tl, Exists_cons_hd. reflexivity.
    + intros G. rewrite <- Ha, <- Hm in G.
      rewrite (attemptReconnect_retries _ G).
      split; [|split; [|split]].
      * cbn. now rewrite Ha.
      * cbn. now rewrite Hn.
      * cbn. rewrite Hn. apply lookup_insert_eq.
      * unfold effects_of. cbn [fst snd]. rewrite !Exists_app. right. right. right.
        apply Exists_cons_tl, Exists_cons_tl, Exists_cons_hd. reflexivity.
Qed.

Lemma disconnect_and_close_guard_witness :
  ws (service connected_page) = Some 0%nat /\
  isConnected (service connected_page) = true /\
  effects_of (disconnect 1000 "Desconexion manual" connected_page) =
    [Console INFO "Desconectando..."; ClearInterval 2;
     CloseCall 0 1000 "Desconexion manual"] /\
  Forall (fun e => reconnect_path e = false)
    (effects_of (handleClose {| code := 1000; reason := "Desconexion manual";
                                wasClean := true |} connected_page)) /\
  Exists (fun e => schedules_reconnect e = true)
    (effects_of (handleClose dropped connected_page)).
Proof.
  destruct (disconnect_and_close_guard connected_page) as (Ha & Hb & Hc).
  split; [reflexivity|]. split; [reflexivity|]. split; [|split].
  - exact (proj1 (Ha 1000 "Desconexion manual"%string 0%nat eq_refl eq_refl)).
  - exact (proj1 (Hb {| code := 1000; reason := "Desconexion manual"; wasClean := true |}
                     (or_introl eq_refl))).
  - assert (Hne : code dropped <> 1000) by discriminate.
    exact (proj2 (proj2 (proj2 (proj2 (proj2 (Hc dropped eq_refl Hne)) eq_refl)))).
Defined.

(** *** connect on a connected client *)

(** C9.  On a connected client [connect()] returns [true] at once and
    leaves the world exactly as it was: the only thing it does is write one
    warning to the console, so no transport is created, no listener is
    called, no field and no metric moves, and calling it again gives the
    same. *)
Theorem connect_idempotent_when_connected (w : World) (ctor_ok : bool) :
  isConnected (service w) = true ->
  let out := connect ctor_ok w in
  result_of out = Returned true /\
  world_of out = w /\
  effects_of out = [Console WARN "Ya esta conectado"] /\
  Forall (fun e => creates_transport e = false /\ emits_event e = false) (effects_of out) /\
  connect ctor_ok (world_of out) = out.
Proof.
  intros H. assert (E : connect ctor_ok w = (Returned true, w, [Console WARN "Ya esta conectado"])).
  { unfold connect. mon. now rewrite H. }
  cbv zeta. rewrite E. cbn. repeat split; auto.
Qed.

Lemma connect_idempotent_when_connected_witness :
  isConnected (service connected_page) = true /\
  result_of (connect true connected_page) = Returned true /\
  world_of (connect true connected_page) = connected_page.
Proof.
  split; [reflexivity|].
  destruct (connect_idempotent_when_connected connected_page true eq_refl) as (H1 & H2 & _).
  split; assumption.
Defined.

(** *** Latency smoothing *)

(** C8 as stated fails: a stored average of 0 counts as "no sample yet".
    Two pongs with latencies 0 ms and 100 ms leave the average at 100, not
    at 0.8 * 0 + 0.2 * 100 = 20. *)
Lemma latency_zero_restarts_average :
  let w1 := world_of (step (SocketMessage 0 (Pong (VNumber (of_Z 5000))) 5000) connected_page) in
  let w2 := world_of (step (SocketMessage 0 (Pong (VNumber (of_Z 6000))) 6100) w1) in
  avgLatency (metrics (service w1)) = of_Z 0 /\
  avgLatency (metrics (service w2)) = of_Z 100 /\
  nadd (nmul (avgLatency (metrics (service w1))) (Num 0.8)) (nmul (of_Z 100) (Num 0.2)) = of_Z 20 /\
  avgLatency (metrics (service w2))
  <> nadd (nmul (avgLatency (metrics (service w1))) (Num 0.8)) (nmul (of_Z 100) (Num 0.2)).
Proof.
  cbv zeta. split; [reflexivity|]. split; [reflexivity|]. split; [reflexivity|].
  vm_compute. discriminate.
Qed.

Lemma updateLatency_run (s : number) (w : World) :
  avgLatency (metrics (service (world_of (updateLatency s w))))
  = smooth (avgLatency (metrics (service w))) s.
Proof. reflexivity. Qed.

Lemma smooth_nonzero (x y : Q) :
  ~ (x == 0)%Q ->
  exists q, smooth (Num x) (Num y) = Num q /\ (q == 0.8 * x + 0.2 * y)%Q.
Proof.
  intros Hx. unfold smooth. cbn.
  destruct (Qeq_bool x (inject_Z 0)) eqn:E.
  - apply Qeq_bool_iff in E. contradiction.
  - eexists. split; [reflexivity|]. rewrite !Qred_correct. ring.
Qed.

Lemma smoothed_average_proper (rest : list Q) (x y : Q) :
  (x == y)%Q -> (smoothed_average x rest == smoothed_average y rest)%Q.
Proof.
  revert x y. induction rest as [|s rest IH]; intros x y E; cbn; [exact E|].
  apply IH. now rewrite E.
Qed.

Lemma updateLatency_each_positive (rest : list Q) : forall (w : World) (x : Q),
  avgLatency (metrics (service w)) = Num x -> (0 < x)%Q ->
  Forall (fun s => 0 < s)%Q rest ->
  exists q,
    avgLatency (metrics (service (world_of (updateLatency_each (map Num rest) w)))) = Num q /\
    (q == smoothed_average x rest)%Q.
Proof.
  induction rest as [|s rest IH]; intros w x Hx Hpos Hall.
  - exists x. split; [exact Hx | reflexivity].
  - apply Forall_cons in Hall as [Hs Hall].
    destruct (smooth_nonzero x s) as (q & Eq & Hq); [lra|].
    destruct (IH (world_of (updateLatency (Num s) w)) q) as (q' & E' & Hq').
    + now rewrite updateLatency_run, Hx.
    + rewrite Hq. lra.
    + exact Hall.
    + exists q'. split.
      * cbn [map updateLatency_each]. rewrite bind_run.
        destruct (updateLatency (Num s) w) as [[[] w1] e1].
        unfold world_of in *. cbn [fst snd] in *.
        now destruct (updateLatency_each (map Num rest) w1) as [[[] w2] e2].
      * rewrite Hq'. cbn [smoothed_average fold_left].
        now apply smoothed_average_proper.
Qed.

(** C8, amended.  The first sample after construction is stored as it is.
    Later, a sample [s] takes a stored average [a] to [0.8 * a + 0.2 * s]
    whenever [a] is not 0, and replaces it when [a] is 0.  Along a run of
    positive samples the average is never 0, so it is the smoothed average
    of the specification throughout. *)
Theorem updateLatency_smooths (w : World) (s : number) :
  let a := avgLatency (metrics (service w)) in
  let a' := avgLatency (metrics (service (world_of (updateLatency s w)))) in
  (a = avgLatency (metrics constructor) -> a' = s) /\
  (strict_eq a (of_Z 0) = true -> a' = s) /\
  (forall x y, a = Num x -> s = Num y -> ~ (x == 0)%Q ->
     exists q, a' = Num q /\ (q == 0.8 * x + 0.2 * y)%Q) /\
  (forall first rest,
     a = avgLatency (metrics constructor) ->
     (0 < first)%Q -> Forall (fun s => 0 < s)%Q rest ->
     exists q,
       avgLatency (metrics (service (world_of
         (updateLatency_each (map Num (first :: rest)) w)))) = Num q /\
       (q == smoothed_average first rest)%Q).
Proof.
  cbv zeta. rewrite updateLatency_run.
  split; [|split; [|split]].
  - intros ->. reflexivity.
  - unfold smooth. intros ->. reflexivity.
  - intros x y -> -> Hx. now apply smooth_nonzero.
  - intros first rest Ha Hfirst Hrest.
    destruct (updateLatency_each_positive rest (world_of (updateLatency (Num first) w)) first)
      as (q & Eq & Hq); try assumption.
    + now rewrite updateLatency_run, Ha.
    + exists q. split; [|exact Hq].
      cbn [map updateLatency_each]. rewrite bind_run.
      destruct (updateLatency (Num first) w) as [[[] w1] e1].
      unfold world_of in *. cbn [fst snd] in *.
      now destruct (updateLatency_each (map Num rest) w1) as [[[] w2] e2].
Qed.

Lemma updateLatency_smooths_witness :
  avgLatency (metrics (service (world_of (updateLatency (of_Z 40) initial)))) = of_Z 40 /\
  (exists q,
    avgLatency (metrics (service (world_of
      (updateLatency (of_Z 100) (world_of (updateLatency (of_Z 40) initial)))))) = Num q /\
    (q == 0.8 * 40 + 0.2 * 100)%Q) /\
  (exists q,
    avgLatency (metrics (service (world_of
      (updateLatency_each (map Num [40; 100; 10]%Q) initial)))) = Num q /\
    (q == smoothed_average 40 [100; 10])%Q).
Proof.
  split; [|split].
  - exact (proj1 (updateLatency_smooths initial (of_Z 40)) eq_refl).
  - apply (proj1 (proj2 (proj2 (updateLatency_smooths
                           (world_of (updateLatency (of_Z 40) initial)) (of_Z 100))))
             40%Q 100%Q eq_refl eq_refl).
    discriminate.
  - apply (proj2 (proj2 (proj2 (updateLatency_smooths initial NaN))) 40%Q [100; 10]%Q
             eq_refl).
    + reflexivity.
    + repeat constructor.
Defined.

(** *** Quiet operations *)

Lemma quiet_between_refl (w : World) : quiet_between w w [].
Proof. repeat split; auto. Qed.

Lemma quiet_between_trans (w1 w2 w3 : World) (e1 e2 : list effect) :
  quiet_between w1 w2 e1 -> quiet_between w2 w3 e2 -> quiet_between w1 w3 (e1 ++ e2).
Proof.
  intros (Hm1 & Ha1 & Ht1 & Hs1 & Hx1) (Hm2 & Ha2 & Ht2 & Hs2 & Hx2).
  repeat split.
  - congruence.
  - congruence.
  - auto.
  - apply Forall_app; auto.
  - apply Forall_app; auto.
Qed.

Lemma quiet_ret {A} (a : A) : quiet (mret a : M A).
Proof. intros w. apply quiet_between_refl. Qed.

Lemma quiet_at_bind {A B} (m : M A) (k : A -> M B) (w : World) :
  quiet_at m w -> (forall a w1, quiet_at (k a) w1) -> quiet_at (m ≫= k) w.
Proof.
  unfold quiet_at. intros Hm Hk. rewrite bind_run.
  specialize (Hk (result_of (m w)) (world_of (m w))).
  destruct (m w) as [[a w1] e1].
  unfold result_of, world_of, effects_of in *. cbn [fst snd] in *.
  destruct (k a w1) as [[b w2] e2]. cbn [fst snd] in *.
  eapply quiet_between_trans; eassumption.
Qed.

Lemma quiet_bind {A B} (m : M A) (k : A -> M B) :
  quiet m -> (forall a, quiet (k a)) -> quiet (m ≫= k).
Proof. intros Hm Hk w. apply quiet_at_bind; [apply Hm | intros a w1; apply Hk]. Qed.

Lemma quiet_tell (e : effect) :
  schedules_reconnect e = false -> max_reconnects_event e = false -> quiet (tell e).
Proof. intros H1 H2 w. repeat split; auto; repeat constructor; auto. Qed.

Lemma quiet_this : quiet this.
Proof. intros w. apply quiet_between_refl. Qed.

Lemma quiet_window : quiet window.
Proof. intros w. apply quiet_between_refl. Qed.

Lemma quiet_update (f : WebSocketService -> WebSocketService) :
  (forall s, maxReconnectAttempts (f s) = maxReconnectAttempts s) ->
  (forall s, reconnectAttempts (f s) = reconnectAttempts s) ->
  quiet (update f).
Proof. intros H1 H2 w. repeat split; cbn; auto. Qed.

Lemma quiet_update_browser (f : Browser -> Browser) :
  (forall b h, timers (f b) !! h = Some ForceReconnectWait ->
               timers b !! h = Some ForceReconnectWait) ->
  quiet (update_browser f).
Proof. intros H w. repeat split; cbn; auto. Qed.

Lemma quiet_log (l : log_level) (text : string) : quiet (log l text).
Proof.
  unfold log. destruct (_ <? _)%nat; [apply quiet_ret | now apply quiet_tell].
Qed.

Lemma lookup_insert_other (t : gmap nat timer) (h h' : nat) (k k' : timer) :
  k <> k' -> <[h := k]> t !! h' = Some k' -> t !! h' = Some k'.
Proof.
  intros Hk H. apply lookup_insert_Some in H as [[_ ?]|[_ ?]]; congruence.
Qed.

Lemma lookup_delete_other (t : gmap nat timer) (h h' : nat) (k' : timer) :
  delete h t !! h' = Some k' -> t !! h' = Some k'.
Proof. intros H. apply lookup_delete_Some in H. tauto. Qed.

Ltac browser_side :=
  cbn; intros;
  repeat match goal with
         | H : context [match ?x with _ => _ end] |- _ => destruct x; cbn in H
         end;
  first [ assumption
        | eapply lookup_insert_other; [|eassumption]; discriminate
        | eapply lookup_delete_other; eassumption ].

Ltac quiet_step :=
  match goal with
  | |- quiet (_ ≫= _) => apply quiet_bind; [|intros ?]
  | |- quiet (mret _) => apply quiet_ret
  | |- quiet this => apply quiet_this
  | |- quiet window => apply quiet_window
  | |- quiet (log _ _) => apply quiet_log
  | |- quiet (tell _) => apply quiet_tell; reflexivity
  | |- quiet (update _) => apply quiet_update; intros; reflexivity
  | |- quiet (update_browser _) => apply quiet_update_browser; browser_side
  | |- quiet (if ?c then _ else _) => destruct c
  | |- quiet (match ?x with _ => _ end) => destruct x
  end.

Ltac quiet_auto := repeat quiet_step.

Lemma quiet_triggerCallbacks (event : event_name) (data : payload) :
  (forall l, max_reconnects_event (Callbacks event data l) = false) ->
  quiet (triggerCallbacks event data).
Proof.
  intros H. unfold triggerCallbacks. apply quiet_bind; [apply quiet_this|].
  intros s. apply quiet_tell; [reflexivity | apply H].
Qed.

Lemma quiet_setTimeout (what : timer) (delay : JS.value) :
  what <> ReconnectTimer -> what <> ForceReconnectWait -> quiet (setTimeout what delay).
Proof.
  intros H1 H2. unfold setTimeout. apply quiet_bind; [apply quiet_window|]. intros b.
  apply quiet_bind; [|intros ?; apply quiet_bind; [|intros ?; apply quiet_ret]].
  - apply quiet_update_browser. cbn. intros b' h H.
    eapply lookup_insert_other; [|exact H]. exact H2.
  - apply quiet_tell; [|reflexivity]. destruct what; cbn; congruence.
Qed.

Lemma quiet_setInterval (what : timer) (delay : JS.value) :
  what <> ForceReconnectWait -> quiet (setInterval what delay).
Proof.
  intros H2. unfold setInterval. apply quiet_bind; [apply quiet_window|]. intros b.
  apply quiet_bind; [|intros ?; apply quiet_bind; [|intros ?; apply quiet_ret]].
  - apply quiet_update_browser. cbn. intros b' h H.
    eapply lookup_insert_other; [|exact H]. exact H2.
  - now apply quiet_tell.
Qed.

Lemma quiet_clearTimeout (h : nat) : quiet (clearTimeout h).
Proof. unfold clearTimeout. quiet_auto. Qed.

Lemma quiet_clearInterval (h : nat) : quiet (clearInterval h).
Proof. unfold clearInterval. quiet_auto. Qed.

Lemma quiet_stopPingInterval : quiet stopPingInterval.
Proof.
  unfold stopPingInterval. apply quiet_bind; [apply quiet_this|]. intros s.
  destruct (pingInterval s); [|apply quiet_ret].
  apply quiet_bind; [apply quiet_clearInterval|]. intros ?. quiet_auto.
Qed.

Lemma quiet_ws_close (sock : nat) (c : Z) (r : string) : quiet (ws_close sock c r).
Proof. unfold ws_close, readyState. quiet_auto. Qed.

Lemma quiet_connect (ctor_ok : bool) : quiet (connect ctor_ok).
Proof.
  unfold connect, new_WebSocket, setupEventHandlers.
  apply quiet_bind; [apply quiet_this|]. intros s.
  destruct (isConnected s); [quiet_auto|].
  apply quiet_bind; [apply quiet_log|]. intros ?.
  apply quiet_bind; [now apply quiet_triggerCallbacks|]. intros ?.
  destruct ctor_ok.
  - apply quiet_bind; [quiet_auto|]. intros sock.
    apply quiet_bind; [quiet_auto|]. intros ?.
    apply quiet_bind; [quiet_auto|]. intros ?.
    apply quiet_bind; [now apply quiet_setTimeout|]. intros t. quiet_auto.
  - apply quiet_bind; [apply quiet_log|]. intros ?.
    apply quiet_bind; [now apply quiet_triggerCallbacks|]. intros ?. apply quiet_ret.
Qed.

Lemma quiet_disconnect (c : Z) (r : string) : quiet (disconnect c r).
Proof.
  unfold disconnect. apply quiet_bind; [apply quiet_this|]. intros s.
  destruct (ws s); [|apply quiet_ret]. destruct (isConnected s); [|apply quiet_ret].
  apply quiet_bind; [apply quiet_log|]. intros ?.
  apply quiet_bind; [apply quiet_stopPingInterval|]. intros ?.
  apply quiet_bind; [|intros ?; apply quiet_ws_close].
  destruct (reconnectTimeout s); [|apply quiet_ret].
  apply quiet_bind; [apply quiet_clearTimeout|]. intros ?. quiet_auto.
Qed.

Lemma quiet_handleError : quiet handleError.
Proof.
  unfold handleError. apply quiet_bind; [apply quiet_log|]. intros ?.
  now apply quiet_triggerCallbacks.
Qed.

Lemma quiet_handleMessage (msg : message) (now : Z) : quiet (handleMessage msg now).
Proof.
  unfold handleMessage, handleLDRUpdate, handlePong, handleSystemStatus,
    updateMetrics, updateLatency.
  destruct msg;
    repeat first [ quiet_step | apply quiet_triggerCallbacks; reflexivity ].
Qed.

Lemma quiet_settle (sock : nat) (how : settlement) : quiet (settle sock how).
Proof.
  unfold settle. apply quiet_bind; [apply quiet_window|]. intros b.
  destruct (promises b !! sock) as [p|]; [|apply quiet_ret].
  destruct (settled p); [apply quiet_ret|]. quiet_auto.
Qed.

Lemma quiet_promise_listener (sock : nat) (how : settlement) :
  quiet (promise_listener sock how).
Proof.
  unfold promise_listener. apply quiet_bind; [apply quiet_window|]. intros b.
  destruct (promises b !! sock) as [p|]; [|apply quiet_ret].
  destruct (listening p); [|apply quiet_ret].
  apply quiet_bind; [apply quiet_clearTimeout|]. intros ?.
  apply quiet_bind; [quiet_auto|]. intros ?. apply quiet_settle.
Qed.

Lemma quiet_reconnect_callback (ctor_ok : bool) : quiet (reconnect_callback ctor_ok).
Proof.
  unfold reconnect_callback. apply quiet_bind; [apply quiet_connect|]. intros r.
  destruct r; [apply quiet_ret|]. quiet_auto.
Qed.

(** *** Exhausting the reconnection attempts *)

Lemma ge_ten (n : nat) :
  ge (of_nat n) (ToNumber (VNumber (of_Z 10))) = negb (n <? 10)%nat.
Proof.
  unfold ge, of_nat, of_Z, ToNumber. destruct (n <? 10)%nat eqn:E; cbn [negb].
  - apply Nat.ltb_lt in E. apply not_true_iff_false. intros H.
    apply Qle_bool_iff in H. rewrite <- Zle_Qle in H. lia.
  - apply Nat.ltb_ge in E. apply Qle_bool_iff. rewrite <- Zle_Qle. lia.
Qed.

Lemma window_bind_run {A} (k : Browser -> M A) (w : World) :
  (window ≫= k) w = k (browser w) w.
Proof. rewrite bind_run. cbn. now destruct (k (browser w) w) as [[? ?] ?]. Qed.

Lemma quiet_handleClose (event : CloseEvent) :
  abnormal event = false -> quiet (handleClose event).
Proof.
  intros H. unfold handleClose. rewrite H.
  apply quiet_bind; [apply quiet_log|]. intros ?.
  apply quiet_bind; [quiet_auto|]. intros ?.
  apply quiet_bind; [apply quiet_stopPingInterval|]. intros ?.
  apply quiet_bind; [now apply quiet_triggerCallbacks|]. intros ?. apply quiet_ret.
Qed.

Lemma fire_quiet (h : nat) (now : Z) (ctor_ok : bool) (w : World) :
  no_force_pending w -> quiet_at (fire h now ctor_ok) w.
Proof.
  intros Hno. unfold quiet_at, fire. rewrite window_bind_run.
  destruct (timers (browser w) !! h) as [[sock| | |]|] eqn:E.
  - apply (quiet_bind (update_browser _) (fun _ => settle sock _)).
    + apply quiet_update_browser. browser_side.
    + intros ?. apply quiet_settle.
  - apply (quiet_bind (update_browser _) (fun _ => reconnect_callback ctor_ok)).
    + apply quiet_update_browser. browser_side.
    + intros ?. apply quiet_reconnect_callback.
  - assert (Q : quiet (s ← this;
                       match ws s with
                       | Some sock =>
                           st ← readyState sock;
                           match st with
                           | OPEN => if isConnected s then sendPing sock now else mret tt
                           | _ => mret tt
                           end
                       | None => mret tt
                       end)); [|apply Q].
    unfold readyState, sendPing. quiet_auto.
  - exfalso. exact (Hno h E).
  - apply quiet_between_refl.
Qed.

Lemma step_quiet (i : input) (w : World) :
  resets i = false -> abnormal_closure i = false -> no_force_pending w ->
  quiet_at (step i) w.
Proof.
  intros Hr Ha Hno. destruct i; try discriminate; cbn [step].
  - apply quiet_bind; [apply quiet_handleError|]. intros ?. apply quiet_promise_listener.
  - apply quiet_bind; [unfold set_readyState; quiet_auto|]. intros ?.
    now apply quiet_handleClose.
  - apply quiet_handleMessage.
  - now apply fire_quiet.
  - apply quiet_bind; [apply quiet_connect|]. intros ?. apply quiet_ret.
  - apply quiet_bind; [apply quiet_disconnect|]. intros ?. apply quiet_ret.
Qed.

Lemma step_close_run (sock : nat) (event : CloseEvent) (w : World) :
  step (SocketClose sock event) w =
  handleClose event
    {| service := service w;
       browser := set_sockets (<[sock := CLOSED]> (sockets (browser w))) (browser w) |}.
Proof.
  cbn [step]. unfold set_readyState. rewrite bind_run. unfold update_browser.
  cbv beta iota.
  match goal with |- context [handleClose event ?x] =>
    now destruct (handleClose event x) as [[[] ?] ?] end.
Qed.

Lemma step_abnormal (sock : nat) (event : CloseEvent) (w : World) :
  abnormal event = true ->
  let out := step (SocketClose sock event) w in
  let a := reconnectAttempts (service w) in
  maxReconnectAttempts (service (world_of out)) = maxReconnectAttempts (service w) /\
  (forall h, timers (browser (world_of out)) !! h = Some ForceReconnectWait ->
             timers (browser w) !! h = Some ForceReconnectWait) /\
  isConnected (service (world_of out)) = false /\
  (ge (of_nat a) (ToNumber (maxReconnectAttempts (service w))) = true ->
     reconnectAttempts (service (world_of out)) = a /\
     Forall (fun e => schedules_reconnect e = false /\ creates_transport e = false)
            (effects_of out) /\
     List.filter max_reconnects_event (effects_of out)
     = [Callbacks onError (MaxReconnectsReached a) (callbacks (service w) onError)]) /\
  (ge (of_nat a) (ToNumber (maxReconnectAttempts (service w))) = false ->
     reconnectAttempts (service (world_of out)) = S a).
Proof.
  intros Hab. cbv zeta. rewrite step_close_run, handleClose_run, Hab.
  set (w0 := {| service := service w; browser := _ |}).
  destruct (closed_fields w0) as (Ha & Hm & _ & Hcb & Hc & _ & Htm).
  change (service w0) with (service w) in *.
  change (timers (browser w0)) with (timers (browser w)) in Htm.
  unfold world_of at 1 2 3 4 5, effects_of at 1 2. cbn [fst snd].
  destruct (ge (of_nat (reconnectAttempts (service (closed w0))))
               (ToNumber (maxReconnectAttempts (service (closed w0))))) eqn:G.
  - rewrite (attemptReconnect_exhausted _ G).
    unfold world_of, effects_of, clears_ping. cbn [fst snd].
    rewrite Ha, Hm in G. rewrite Hcb, Ha.
    split; [exact Hm|]. split; [intros h; apply Htm|]. split; [exact Hc|].
    split; [|intros G'; congruence]. intros _.
    split; [reflexivity|].
    change (pingInterval (service w0)) with (pingInterval (service w)).
    destruct (pingInterval (service w)); cbn; split; repeat constructor.
  - rewrite (attemptReconnect_retries _ G).
    unfold world_of, effects_of. cbn.
    rewrite Ha, Hm in G.
    split; [exact Hm|]. split.
    { intros h H. apply Htm. eapply lookup_insert_other; [|exact H]. discriminate. }
    split; [exact Hc|].
    split; [|intros _; now rewrite Ha].
    intros G'.
    change (ge (of_nat (reconnectAttempts (service w)))
               (ToNumber (maxReconnectAttempts (service w))) = true) in G'.
    congruence.
Qed.

Lemma run_cons (i : input) (rest : list input) (w : World) :
  world_of (run (i :: rest) w) = world_of (run rest (world_of (step i w))) /\
  effects_of (run (i :: rest) w)
  = effects_of (step i w) ++ effects_of (run rest (world_of (step i w))).
Proof.
  cbn [run]. rewrite bind_run. destruct (step i w) as [[[] w1] e1].
  unfold world_of, effects_of. cbn [fst snd].
  destruct (run rest w1) as [[[] w2] e2]. split; reflexivity.
Qed.

Lemma step_invariant (i : input) (w : World) :
  resets i = false ->
  maxReconnectAttempts (service w) = VNumber (of_Z 10) ->
  no_force_pending w ->
  let out := step i w in
  let a := reconnectAttempts (service w) in
  maxReconnectAttempts (service (world_of out)) = VNumber (of_Z 10) /\
  no_force_pending (world_of out) /\
  reconnectAttempts (service (world_of out))
  = (if abnormal_closure i && (a <? 10)%nat then S a else a) /\
  (a = 10%nat -> Forall (fun e => schedules_reconnect e = false) (effects_of out)).
Proof.
  intros Hr Hm Hno. cbv zeta.
  destruct (abnormal_closure i) eqn:Hab.
  - destruct i; try discriminate. cbn in Hab.
    destruct (step_abnormal sock event w Hab) as (Hm' & Ht & _ & Hge & Hlt).
    rewrite Hm, ge_ten in Hge, Hlt. cbn [andb].
    split; [congruence|]. split; [intros h E; exact (Hno h (Ht h E))|].
    destruct (reconnectAttempts (service w) <? 10)%nat eqn:E; cbn [negb] in *.
    + split; [now apply Hlt|]. intros E'. rewrite E' in E. discriminate.
    + destruct (Hge eq_refl) as (Ha & Hs & _). split; [exact Ha|]. intros _.
      eapply Forall_impl; [exact Hs|]. cbn. tauto.
  - destruct (step_quiet i w Hr Hab Hno) as (Hm' & Ha & Ht & Hs & _). cbn [andb].
    split; [congruence|]. split; [intros h E; exact (Hno h (Ht h E))|].
    split; [exact Ha|]. intros _. exact Hs.
Qed.

Lemma run_counts (ins : list input) : forall w : World,
  Forall (fun i => resets i = false) ins ->
  maxReconnectAttempts (service w) = VNumber (of_Z 10) ->
  no_force_pending w ->
  (reconnectAttempts (service w) + abnormal_closures ins <= 10)%nat ->
  let w' := world_of (run ins w) in
  maxReconnectAttempts (service w') = VNumber (of_Z 10) /\
  no_force_pending w' /\
  reconnectAttempts (service w') = (reconnectAttempts (service w) + abnormal_closures ins)%nat.
Proof.
  induction ins as [|i rest IH]; intros w Hall Hm Hno Hle; cbv zeta.
  - cbn. repeat split; auto.
  - apply Forall_cons in Hall as [Hr Hall]. cbn [abnormal_closures] in Hle |- *.
    destruct (run_cons i rest w) as [-> _].
    destruct (step_invariant i w Hr Hm Hno) as (Hm1 & Hno1 & Ha1 & _).
    assert (E : reconnectAttempts (service (world_of (step i w)))
                = (reconnectAttempts (service w) + (if abnormal_closure i then 1 else 0))%nat).
    { rewrite Ha1. destruct (abnormal_closure i); cbn [andb]; [|lia].
      destruct (reconnectAttempts (service w) <? 10)%nat eqn:E; [lia|].
      apply Nat.ltb_ge in E. lia. }
    destruct (IH (world_of (step i w)) Hall Hm1 Hno1) as (Hm2 & Hno2 & Ha2); [lia|].
    split; [exact Hm2|]. split; [exact Hno2|]. lia.
Qed.

Lemma run_exhausted (ins : list input) : forall w : World,
  Forall (fun i => resets i = false) ins ->
  maxReconnectAttempts (service w) = VNumber (of_Z 10) ->
  no_force_pending w ->
  reconnectAttempts (service w) = 10%nat ->
  reconnectAttempts (service (world_of (run ins w))) = 10%nat /\
  Forall (fun e => schedules_reconnect e = false) (effects_of (run ins w)).
Proof.
  induction ins as [|i rest IH]; intros w Hall Hm Hno Ha.
  - cbn. split; [exact Ha | constructor].
  - apply Forall_cons in Hall as [Hr Hall].
    destruct (run_cons i rest w) as [-> ->].
    destruct (step_invariant i w Hr Hm Hno) as (Hm1 & Hno1 & Ha1 & Hs1).
    assert (E : reconnectAttempts (service (world_of (step i w))) = 10%nat).
    { rewrite Ha1, Ha. now rewrite andb_false_r. }
    destruct (IH (world_of (step i w)) Hall Hm1 Hno1 E) as (Ha2 & Hs2).
    split; [exact Ha2|]. apply Forall_app. split; [now apply Hs1 | exact Hs2].
Qed.

Lemma forceReconnect_disconnected (ctor_ok : bool) (w : World) :
  isConnected (service w) = false ->
  let out := forceReconnect ctor_ok w in
  reconnectAttempts (service (world_of out)) = 0%nat /\
  (ctor_ok = true -> Exists (fun e => creates_transport e = true) (effects_of out)).
Proof.
  intros H. unfold forceReconnect, forceReconnect_resume, connect. mon.
  rewrite H. cbn. rewrite H. destruct ctor_ok; cbn; split; auto; try discriminate.
Qed.

(** C2.  Let the bound be 10 and the counter 0, and let inputs arrive among
    which nothing resets the counter (no successful open, no
    [forceReconnect()]) and exactly 10 are abnormal closures.  Then each of
    them consumed one attempt, and an 11th abnormal closure emits exactly one
    Error event of kind max-reconnects-reached, arms no reconnect timer and
    creates no transport; nothing that follows arms one either, until
    [forceReconnect()] puts the counter back to 0 and connects. *)
Theorem max_reconnects_reached (w : World) (ins : list input) (sock : nat)
    (event : CloseEvent) :
  maxReconnectAttempts (service w) = VNumber (of_Z 10) ->
  reconnectAttempts (service w) = 0%nat ->
  no_force_pending w ->
  Forall (fun i => resets i = false) ins ->
  abnormal_closures ins = 10%nat ->
  abnormal event = true ->
  let w10 := world_of (run ins w) in
  let out := step (SocketClose sock event) w10 in
  reconnectAttempts (service w10) = 10%nat /\
  List.filter max_reconnects_event (effects_of out)
  = [Callbacks onError (MaxReconnectsReached 10) (callbacks (service w10) onError)] /\
  Forall (fun e => schedules_reconnect e = false /\ creates_transport e = false)
         (effects_of out) /\
  reconnectAttempts (service (world_of out)) = 10%nat /\
  (forall more, Forall (fun i => resets i = false) more ->
     reconnectAttempts (service (world_of (run more (world_of out)))) = 10%nat /\
     Forall (fun e => schedules_reconnect e = false)
            (effects_of (run more (world_of out)))) /\
  (forall ctor_ok,
     reconnectAttempts (service (world_of (forceReconnect ctor_ok (world_of out)))) = 0%nat /\
     (ctor_ok = true ->
      Exists (fun e => creates_transport e = true)
             (effects_of (forceReconnect ctor_ok (world_of out))))).
Proof.
  intros Hm Ha Hno Hall Hcount Hab. cbv zeta.
  destruct (run_counts ins w Hall Hm Hno) as (Hm10 & Hno10 & Ha10); [lia|].
  rewrite Ha, Hcount in Ha10. cbn in Ha10.
  destruct (step_abnormal sock event (world_of (run ins w)) Hab)
    as (Hm11 & Ht11 & Hc11 & Hge & _).
  rewrite Hm10, ge_ten, Ha10 in Hge. destruct (Hge eq_refl) as (Ha11 & Hs11 & Hf11).
  rewrite Hm10 in Hm11.
  assert (Hno11 : no_force_pending (world_of (step (SocketClose sock event)
                                                    (world_of (run ins w))))).
  { intros h E. exact (Hno10 h (Ht11 h E)). }
  split; [exact Ha10|]. split; [exact Hf11|]. split; [exact Hs11|].
  split; [exact Ha11|]. split.
  - intros more Hmore. now apply run_exhausted.
  - intros ctor_ok. now apply forceReconnect_disconnected.
Qed.

Lemma connected_page_timers : timers (browser connected_page) = {[ 2%nat := PingTimer ]}.
Proof. reflexivity. Qed.

Lemma max_reconnects_reached_witness :
  let w10 := world_of (run (failed_rounds 10 0) connected_page) in
  reconnectAttempts (service w10) = 10%nat /\
  List.filter max_reconnects_event (effects_of (step (SocketClose 10 dropped) w10))
  = [Callbacks onError (MaxReconnectsReached 10) []] /\
  Forall (fun e => schedules_reconnect e = false /\ creates_transport e = false)
         (effects_of (step (SocketClose 10 dropped) w10)).
Proof.
  assert (Hno : no_force_pending connected_page).
  { intros h. rewrite connected_page_timers. intros E.
    apply lookup_singleton_Some in E as [_ E]. discriminate. }
  assert (Hall : Forall (fun i => resets i = false) (failed_rounds 10 0)).
  { cbn. repeat (constructor; [reflexivity|]). constructor. }
  pose proof (max_reconnects_reached connected_page (failed_rounds 10 0) 10 dropped
                eq_refl eq_refl Hno Hall eq_refl eq_refl) as H.
  cbv zeta in H |- *. destruct H as (H1 & H2 & H3 & _).
  split; [exact H1|]. split; [exact H2 | exact H3].
Defined.

End FeedClient.


(** ** The polling client *)

Section PollingClient.
Import API.

Ltac amon :=
  cbv [mbind mret API.M_bind API.M_ret API.bind API.ret API.this API.tell API.update
       API.log API.level_num API.LOG_LEVEL Nat.ltb Nat.leb
       API.count_request API.count_success API.count_error API.updateResponseTime].

Lemma api_bind_run {A B} (m : API.M A) (k : A -> API.M B) (s : APIService) :
  (m ≫= k) s =
  let '(a, s1, e1) := m s in let '(b, s2, e2) := k a s1 in (b, s2, e1 ++ e2).
Proof. reflexivity. Qed.

(** *** getMetrics *)

Lemma hit_rate_in_range (q : Q) :
  (0 <= q)%Q -> (q < 1)%Q ->
  exists x, Math_min (nadd (of_Z 85) (nmul (Num q) (of_Z 10))) (of_Z 100) = Num x /\
            (85 <= x)%Q /\ (x < 95)%Q /\ (x == 85 + q * 10)%Q.
Proof.
  intros H0 H1. unfold nadd, nmul, Math_min, of_Z.
  set (x := Qred (inject_Z 85 + Qred (q * inject_Z 10))).
  assert (E : (x == 85 + q * 10)%Q).
  { unfold x. rewrite !Qred_correct. reflexivity. }
  assert (L : Qle_bool x (inject_Z 100) = true).
  { apply Qle_bool_iff. rewrite E. change (inject_Z 100) with 100%Q. lra. }
  rewrite L. exists x. split; [reflexivity|]. rewrite E. repeat split; lra.
Qed.

(** C10.  [cacheHitRate] is 0 when the cache is empty and otherwise
    [min(85 + 10 * r, 100)] for the number [r] that [Math.random()] returns:
    a value between 85 and 100 that depends on nothing else, the same for
    any two states with a non-empty cache; so one unchanged state yields
    different reports for different draws. *)
Theorem cacheHitRate_is_random :
  (forall r s, cache s = ∅ -> cacheHitRate (getMetrics r s) = of_Z 0) /\
  (forall r s, cache s <> ∅ -> is_random r ->
     exists x, cacheHitRate (getMetrics r s) = Num x /\ (85 <= x)%Q /\ (x <= 100)%Q) /\
  (forall r s s', cache s <> ∅ -> cache s' <> ∅ ->
     cacheHitRate (getMetrics r s) = cacheHitRate (getMetrics r s')) /\
  (exists r1 r2, is_random r1 /\ is_random r2 /\
     getMetrics r1 warmed_up <> getMetrics r2 warmed_up).
Proof.
  assert (Hsize : forall s, cache s <> ∅ -> (0 <? size (cache s))%nat = true).
  { intros s H. apply Nat.ltb_lt. apply map_size_non_empty_iff in H. lia. }
  split; [|split; [|split]].
  - intros r s H. cbn. unfold calculateCacheHitRate. rewrite H, map_size_empty.
    reflexivity.
  - intros r s H Hr. cbn. unfold calculateCacheHitRate. rewrite (Hsize s H).
    destruct r as [|q|b]; [contradiction| |contradiction]. destruct Hr as [H0 H1].
    destruct (hit_rate_in_range q H0 H1) as (x & E & L & U & _).
    exists x. split; [exact E|]. split; [exact L|]. lra.
  - intros r s s' H H'. cbn. unfold calculateCacheHitRate.
    now rewrite (Hsize s H), (Hsize s' H').
  - exists (Num 0), (Num 0.5). split; [cbn; lra|]. split; [cbn; lra|].
    intros H. apply (f_equal cacheHitRate) in H. vm_compute in H. discriminate.
Qed.

Lemma cacheHitRate_is_random_witness :
  cacheHitRate (getMetrics (Num 0.5) constructor) = of_Z 0 /\
  (exists x, cacheHitRate (getMetrics (Num 0.5) warmed_up) = Num x
             /\ (85 <= x)%Q /\ (x <= 100)%Q).
Proof.
  destruct cacheHitRate_is_random as (H1 & H2 & _).
  split.
  - exact (H1 (Num 0.5) constructor eq_refl).
  - apply H2.
    + intros E. apply (f_equal size) in E. vm_compute in E. discriminate.
    + cbn. lra.
Defined.

(** *** getCompleteData *)

(** C6.  Whatever the three sub-calls did, [getCompleteData] fulfils: every
    slot holds the value of its sub-call, or the fallback ([null], [{}],
    [[]]) when that sub-call failed; the error list has one entry per
    failed sub-call, in the order latest, stats, history.  With one failure
    the two other slots hold their values and the list has one entry. *)
Theorem getCompleteData_never_fails
    (l : attempt (option Reading)) (st : attempt Stats) (h : attempt (list Reading))
    (iso : string) (s : APIService) :
  exists d,
    result_of (getCompleteData l st h iso s) = Fulfilled d /\
    state_of (getCompleteData l st h iso s) = s /\
    latest d = match l with Fulfilled v => v | Rejected _ => None end /\
    stats d = match st with Fulfilled v => StatsValue v | Rejected _ => EmptyObject end /\
    recentHistory d = match h with Fulfilled v => v | Rejected _ => [] end /\
    errors d =
      match l with Rejected e => ["Latest: " +:+ message e] | Fulfilled _ => [] end
      ++ match st with Rejected e => ["Stats: " +:+ message e] | Fulfilled _ => [] end
      ++ match h with Rejected e => ["History: " +:+ message e] | Fulfilled _ => [] end /\
    length (errors d) = (failed l + failed st + failed h)%nat /\
    (forall e v2 v3, l = Rejected e -> st = Fulfilled v2 -> h = Fulfilled v3 ->
       latest d = None /\ stats d = StatsValue v2 /\ recentHistory d = v3
       /\ errors d = ["Latest: " +:+ message e]) /\
    (forall v1 e v3, l = Fulfilled v1 -> st = Rejected e -> h = Fulfilled v3 ->
       latest d = v1 /\ stats d = EmptyObject /\ recentHistory d = v3
       /\ errors d = ["Stats: " +:+ message e]) /\
    (forall v1 v2 e, l = Fulfilled v1 -> st = Fulfilled v2 -> h = Rejected e ->
       latest d = v1 /\ stats d = StatsValue v2 /\ recentHistory d = []
       /\ errors d = ["History: " +:+ message e]).
Proof.
  unfold getCompleteData. amon. cbn. eexists. split; [reflexivity|].
  split; [reflexivity|]. cbn.
  split; [reflexivity|]. split; [reflexivity|]. split; [reflexivity|].
  split; [destruct l, st, h; reflexivity|].
  split; [destruct l, st, h; reflexivity|].
  repeat split; subst; reflexivity.
Qed.

Lemma getCompleteData_never_fails_witness :
  exists d,
    result_of (getCompleteData (Rejected TypeError) (Rejected TypeError)
                 (Fulfilled []) "2024-01-01T00:00:00.000Z" constructor) = Fulfilled d /\
    length (errors d) = 2%nat.
Proof.
  destruct (getCompleteData_never_fails (Rejected TypeError) (Rejected TypeError)
              (Fulfilled []) "2024-01-01T00:00:00.000Z" constructor)
    as (d & H1 & _ & _ & _ & _ & _ & H2 & _).
  exists d. split; [exact H1 | exact H2].
Defined.

(** *** request *)

Lemma request_begin_run (endpoint : string) (o : options) (now : Z) (s : APIService) :
  let url := full_url s endpoint in
  let key := cache_key o url in
  let s1 := state_of (count_request now s) in
  let ctx := {| startTime := now; url := url; cacheKey := key; safe := is_get o |} in
  let goes := [SetAbortTimer (timeout s); Fetch url (method o)] in
  request_begin endpoint o now s =
  match (if is_get o then cache s !! key else None) with
  | Some e =>
      if expired now (cacheTimeout s) e
      then (InFlight ctx, set_cache (delete key (cache s)) s1, goes)
      else (FromCache (entry_data e), s1, [])
  | None => (InFlight ctx, s1, goes)
  end.
Proof.
  cbv zeta. unfold request_begin, getFromCache. amon.
  unfold state_of, set_metrics.
  destruct (is_get o); [|reflexivity]. simpl.
  destruct (cache s !! cache_key o (full_url s endpoint)) as [e|]; [|reflexivity].
  destruct (expired now (cacheTimeout s) e); reflexivity.
Qed.

Lemma setCache_facts (key : string) (d : Envelope) (now : Z) (s : APIService) :
  metrics (state_of (setCache key d now s)) = metrics s /\
  effects_of (setCache key d now s) = [].
Proof.
  unfold setCache, cleanupCache, API.log.
  cbv [mbind mret API.M_bind API.M_ret API.bind API.ret API.this API.tell API.update
       API.level_num API.LOG_LEVEL].
  simpl.
  match goal with |- context [(50 <? ?n)%nat] => destruct (50 <? n)%nat end;
    simpl; [|split; reflexivity].
  match goal with |- context [(0 <? ?n)%nat] => destruct (0 <? n)%nat end;
    simpl; split; reflexivity.
Qed.

Lemma request_catch_run (e : js_error) (s : APIService) :
  state_of (request_catch e s) = state_of (count_error s) /\
  network_calls (effects_of (request_catch e s)) = [] /\
  exists why, result_of (request_catch e s) = Rejected why.
Proof.
  unfold request_catch. amon. cbn. destruct (String.eqb (name e) "AbortError");
    cbn; repeat split; eauto.
Qed.

Lemma request_end_facts (ctx : in_flight) (res : fetch_result) (s : APIService) :
  let out := request_end ctx res s in
  let m := metrics s in
  let m' := metrics (state_of out) in
  network_calls (effects_of out) = [] /\
  requestCount m' = requestCount m /\
  match result_of out with
  | Fulfilled d =>
      successCount m' = S (successCount m) /\ errorCount m' = errorCount m /\
      exists arrived status statusText stored,
        res = Response arrived true status statusText (Body d) stored /\
        success d = true /\
        avgResponseTime m'
        = avgResponseTime (metrics (state_of
            (updateResponseTime (of_Z (arrived - startTime ctx)) s)))
  | Rejected _ =>
      errorCount m' = S (errorCount m) /\ successCount m' = successCount m
  end.
Proof.
  cbv zeta.
  unfold request_end, request_catch, setCache, cleanupCache, API.log, network_calls,
    result_of, state_of, effects_of.
  destruct res as [why|arrived ok status statusText content stored].
  - cbv [mbind mret API.M_bind API.M_ret API.bind API.ret API.this API.tell API.update
         API.level_num API.LOG_LEVEL API.count_error].
    simpl. destruct (String.eqb (name why) "AbortError"); simpl; auto.
  - destruct ok;
      [destruct content as [| |d];
         [| |destruct (success d) eqn:Hd; [destruct (safe ctx)|]] |];
      cbv [mbind mret API.M_bind API.M_ret API.bind API.ret API.this API.tell API.update
           API.level_num API.LOG_LEVEL API.count_error API.count_success
           API.updateResponseTime];
      simpl; auto.
    + match goal with |- context [(50 <? ?n)%nat] => destruct (50 <? n)%nat end; simpl;
        [match goal with |- context [(0 <? ?n)%nat] => destruct (0 <? n)%nat end; simpl|];
        (repeat split; auto; exists arrived, status, statusText, stored; auto).
    + repeat split; auto. exists arrived, status, statusText, stored. auto.
Qed.

Lemma lt_not_gt (a b : number) : lt a b = true -> gt a b = false.
Proof.
  unfold gt, lt. destruct a as [|x|s], b as [|y|t]; try discriminate.
  - intros H. apply negb_true_iff in H. apply negb_false_iff, Qle_bool_iff.
    destruct (Qlt_le_dec x y) as [L|L]; [now apply Qlt_le_weak|].
    apply Qle_bool_iff in L. congruence.
  - now destruct t.
  - now destruct s.
  - now destruct s, t.
Qed.

Lemma request_run (endpoint : string) (o : options) (now : Z) (res : fetch_result)
    (s : APIService) :
  request endpoint o now res s =
  match request_begin endpoint o now s with
  | (FromCache payload, s1, e1) => (Fulfilled payload, s1, e1 ++ [])
  | (InFlight ctx, s1, e1) =>
      (result_of (request_end ctx res s1), state_of (request_end ctx res s1),
       e1 ++ effects_of (request_end ctx res s1))
  end.
Proof.
  unfold request. rewrite api_bind_run.
  destruct (request_begin endpoint o now s) as [[[payload|ctx] s1] e1]; [reflexivity|].
  now destruct (request_end ctx res s1) as [[? ?] ?].
Qed.

(** C5.  A GET whose cache entry is younger than the TTL is answered with
    the cached payload and reaches the network zero times; the same call,
    made once the TTL has elapsed, finds the entry expired and reaches the
    network exactly once. *)
Theorem cached_request_bypasses_network (s : APIService) (endpoint : string)
    (o : options) (e : CacheEntry) (now later : Z) (res res' : fetch_result) :
  is_get o = true ->
  cache s !! cache_key o (full_url s endpoint) = Some e ->
  lt (of_Z (now - entry_timestamp e)) (ToNumber (cacheTimeout s)) = true ->
  gt (of_Z (later - entry_timestamp e)) (ToNumber (cacheTimeout s)) = true ->
  let first := request endpoint o now res s in
  let second := request endpoint o later res' (state_of first) in
  result_of first = Fulfilled (entry_data e) /\
  network_calls (effects_of first) = [] /\
  result_of (getFromCache (cache_key o (full_url s endpoint)) later (state_of first)) = None /\
  network_calls (effects_of second) = [Fetch (full_url s endpoint) (method o)].
Proof.
  intros Hget Hlook Hyoung Hold. cbv zeta.
  assert (E1 : request endpoint o now res s
               = (Fulfilled (entry_data e), state_of (count_request now s), [])).
  { rewrite request_run, request_begin_run, Hget, Hlook. unfold expired.
    now rewrite (lt_not_gt _ _ Hyoung). }
  rewrite E1.
  change (state_of (Fulfilled (entry_data e), state_of (count_request now s), []))
    with (state_of (count_request now s)).
  set (s1 := state_of (count_request now s)).
  assert (Hc : cache s1 = cache s) by reflexivity.
  assert (Hu : full_url s1 endpoint = full_url s endpoint) by reflexivity.
  assert (Ht : cacheTimeout s1 = cacheTimeout s) by reflexivity.
  split; [reflexivity|]. split; [reflexivity|]. split.
  - unfold getFromCache. amon. simpl. rewrite Hlook. unfold expired. simpl.
    now rewrite Hold.
  - rewrite request_run, request_begin_run, Hget, Hc, Hu, Hlook, Ht. unfold expired.
    rewrite Hold. unfold effects_of at 1. cbn [fst snd].
    unfold network_calls. rewrite List.filter_app.
    match goal with |- context [request_end ?ctx res' ?s2] =>
      pose proof (request_end_facts ctx res' s2) as (Hn & _) end.
    unfold network_calls in Hn. rewrite Hn. reflexivity.
Qed.

Lemma cached_request_bypasses_network_witness :
  let first := request "/api/latest" GET 1000 sample_response warmed_up in
  let second := request "/api/latest" GET 400000 sample_response (state_of first) in
  result_of first = Fulfilled sample_envelope /\
  network_calls (effects_of first) = [] /\
  network_calls (effects_of second) = [Fetch (API_BASE +:+ "/api/latest") None].
Proof.
  assert (Hlook : cache warmed_up !! cache_key GET (full_url warmed_up "/api/latest")
                  = Some {| entry_data := sample_envelope; entry_timestamp := 41 |})
    by reflexivity.
  pose proof (cached_request_bypasses_network warmed_up "/api/latest" GET _ 1000 400000
                sample_response sample_response eq_refl Hlook eq_refl eq_refl) as H.
  cbv zeta in H |- *. destruct H as (H1 & H2 & _ & H4).
  split; [exact H1|]. split; [exact H2 | exact H4].
Defined.

(** *** Request metrics *)

(** C7 as stated fails: a call answered from the cache returns
    successfully, yet it only counts as a request; [successCount] and the
    average response time stay as they were. *)
Lemma cache_hit_counts_no_success :
  let out := request "/api/latest" GET 1000 sample_response warmed_up in
  result_of out = Fulfilled sample_envelope /\
  requestCount (metrics (state_of out)) = S (requestCount (metrics warmed_up)) /\
  successCount (metrics (state_of out)) = successCount (metrics warmed_up) /\
  successCount (metrics (state_of out)) <> S (successCount (metrics warmed_up)) /\
  avgResponseTime (metrics (state_of out)) = avgResponseTime (metrics warmed_up).
Proof.
  cbv zeta. split; [reflexivity|]. split; [reflexivity|]. split; [reflexivity|].
  split; [|reflexivity]. vm_compute. discriminate.
Qed.

Lemma request_end_average (ctx : in_flight) (res : fetch_result) (s : APIService) :
  avgResponseTime (metrics (state_of (request_end ctx res s)))
  = match res with
    | FetchRejected _ => avgResponseTime (metrics s)
    | Response arrived _ _ _ _ _ =>
        if strict_eq (avgResponseTime (metrics s)) (of_Z 0)
        then of_Z (arrived - startTime ctx)
        else nadd (nmul (avgResponseTime (metrics s)) (Num 0.8))
                  (nmul (of_Z (arrived - startTime ctx)) (Num 0.2))
    end.
Proof.
  unfold request_end, request_catch, setCache, cleanupCache, API.log, state_of.
  destruct res as [why|arrived ok status statusText content stored].
  - cbv [mbind mret API.M_bind API.M_ret API.bind API.ret API.this API.tell API.update
         API.level_num API.LOG_LEVEL API.count_error].
    simpl. destruct (String.eqb (name why) "AbortError"); reflexivity.
  - destruct ok;
      [destruct content as [| |d];
         [| |destruct (success d) eqn:Hd; [destruct (safe ctx)|]] |];
      cbv [mbind mret API.M_bind API.M_ret API.bind API.ret API.this API.tell API.update
           API.level_num API.LOG_LEVEL API.count_error API.count_success
           API.updateResponseTime];
      simpl; try reflexivity.
    match goal with |- context [(50 <? ?n)%nat] => destruct (50 <? n)%nat end; simpl;
      [match goal with |- context [(0 <? ?n)%nat] => destruct (0 <? n)%nat end; simpl|];
      reflexivity.
Qed.

Lemma folded_nonzero (a : Q) (t : Z) :
  ~ (a == 0)%Q ->
  exists q,
    (if strict_eq (Num a) (of_Z 0) then of_Z t
     else nadd (nmul (Num a) (Num 0.8)) (nmul (of_Z t) (Num 0.2))) = Num q /\
    (q == 0.8 * a + 0.2 * inject_Z t)%Q.
Proof.
  intros Ha. unfold strict_eq, of_Z.
  destruct (Qeq_bool a (inject_Z 0)) eqn:E.
  - apply Qeq_bool_iff in E. contradiction.
  - eexists. split; [reflexivity|]. rewrite !Qred_correct. ring.
Qed.

(** C7, amended.  Every call of [request] adds one to [requestCount].  A
    call that goes to the network and returns successfully adds one to
    [successCount] and folds the time [t] between its start and the arrival
    of the response into the average response time: a stored average [a]
    becomes [0.8 * a + 0.2 * t] when it is not 0, and [t] when it is 0.  A
    call that fails adds one to [errorCount]; when it fails after a response
    has arrived the time is folded in just the same, and not when [fetch]
    itself fails.  A call answered from the cache returns the cached payload,
    counts no success and folds nothing into the average. *)
Theorem request_updates_metrics (endpoint : string) (o : options) (now : Z)
    (res : fetch_result) (s : APIService) :
  let out := request endpoint o now res s in
  let m := metrics s in
  let m' := metrics (state_of out) in
  let folded t :=
    if strict_eq (avgResponseTime m) (of_Z 0) then of_Z t
    else nadd (nmul (avgResponseTime m) (Num 0.8)) (nmul (of_Z t) (Num 0.2)) in
  requestCount m' = S (requestCount m) /\
  (forall t, strict_eq (avgResponseTime m) (of_Z 0) = true -> folded t = of_Z t) /\
  (forall a t, avgResponseTime m = Num a -> ~ (a == 0)%Q ->
     exists q, folded t = Num q /\ (q == 0.8 * a + 0.2 * inject_Z t)%Q) /\
  match result_of (request_begin endpoint o now s), result_of out with
  | FromCache payload, r =>
      r = Fulfilled payload /\
      successCount m' = successCount m /\ errorCount m' = errorCount m /\
      avgResponseTime m' = avgResponseTime m
  | InFlight _, Fulfilled d =>
      successCount m' = S (successCount m) /\ errorCount m' = errorCount m /\
      exists arrived status statusText stored,
        res = Response arrived true status statusText (Body d) stored /\
        avgResponseTime m' = folded (arrived - now)
  | InFlight _, Rejected _ =>
      errorCount m' = S (errorCount m) /\ successCount m' = successCount m /\
      match res with
      | FetchRejected _ => avgResponseTime m' = avgResponseTime m
      | Response arrived _ _ _ _ _ => avgResponseTime m' = folded (arrived - now)
      end
  end.
Proof.
  cbv zeta. rewrite request_run.
  assert (Hb : exists r s1 e1,
    request_begin endpoint o now s = (r, s1, e1) /\
    requestCount (metrics s1) = S (requestCount (metrics s)) /\
    successCount (metrics s1) = successCount (metrics s) /\
    errorCount (metrics s1) = errorCount (metrics s) /\
    avgResponseTime (metrics s1) = avgResponseTime (metrics s) /\
    match r with InFlight ctx => startTime ctx = now | FromCache _ => True end).
  { rewrite request_begin_run. cbv zeta.
    destruct (if is_get o then _ else _) as [e|];
      [destruct (expired now (cacheTimeout s) e)|];
      do 3 eexists; (split; [reflexivity|]); cbn; auto. }
  destruct Hb as (r & s1 & e1 & -> & Hr & Hs & He & Ha & Hctx).
  unfold result_of at 1. cbn [fst snd].
  assert (Hzero : forall t, strict_eq (avgResponseTime (metrics s)) (of_Z 0) = true ->
            (if strict_eq (avgResponseTime (metrics s)) (of_Z 0) then of_Z t
             else nadd (nmul (avgResponseTime (metrics s)) (Num 0.8))
                       (nmul (of_Z t) (Num 0.2))) = of_Z t)
    by (intros t ->; reflexivity).
  assert (Hfold : forall a t, avgResponseTime (metrics s) = Num a -> ~ (a == 0)%Q ->
            exists q,
              (if strict_eq (avgResponseTime (metrics s)) (of_Z 0) then of_Z t
               else nadd (nmul (avgResponseTime (metrics s)) (Num 0.8))
                         (nmul (of_Z t) (Num 0.2))) = Num q /\
              (q == 0.8 * a + 0.2 * inject_Z t)%Q)
    by (intros a t -> Hne; now apply folded_nonzero).
  destruct r as [payload|ctx].
  - unfold result_of, state_of. cbn [fst snd]. auto 10.
  - pose proof (request_end_facts ctx res s1) as (_ & Hr' & H).
    pose proof (request_end_average ctx res s1) as Havg.
    rewrite Ha, Hctx in Havg.
    cbv zeta in H. unfold result_of, state_of, effects_of in *.
    destruct (request_end ctx res s1) as [[r s2] e2]. cbn [fst snd] in *.
    split; [congruence|]. split; [exact Hzero|]. split; [exact Hfold|].
    destruct r as [d|why].
    + destruct H as (H1 & H2 & arrived & status & statusText & stored & -> & _ & _).
      split; [congruence|]. split; [congruence|].
      exists arrived, status, statusText, stored. split; [reflexivity | exact Havg].
    + destruct H as (H1 & H2). split; [congruence|]. split; [congruence|].
      destruct res; exact Havg.
Qed.

Lemma request_updates_metrics_witness :
  let later := Response 400100 true "200" "OK" (Body sample_envelope) 400101 in
  avgResponseTime (metrics warmed_up) = of_Z 40 /\
  exists q,
    avgResponseTime (metrics (state_of (request "/api/latest" GET 400000 later warmed_up)))
    = Num q /\
    (q == 0.8 * 40 + 0.2 * 100)%Q.
Proof.
  cbv zeta. split; [reflexivity|].
  pose proof (request_updates_metrics "/api/latest" GET 400000
                (Response 400100 true "200" "OK" (Body sample_envelope) 400101) warmed_up)
    as H.
  cbv zeta in H. destruct H as (_ & _ & Hfold & Hm).
  destruct (Hfold 40%Q (400100 - 400000) eq_refl) as (q & Eq & Hq); [discriminate|].
  exists q. split; [|exact Hq].
  rewrite <- Eq.
  assert (Eb : exists ctx, result_of (request_begin "/api/latest" GET 400000 warmed_up)
                           = InFlight ctx) by (eexists; reflexivity).
  destruct Eb as [ctx Eb]. rewrite Eb in Hm.
  assert (Er : result_of (request "/api/latest" GET 400000
                 (Response 400100 true "200" "OK" (Body sample_envelope) 400101) warmed_up)
               = Fulfilled sample_envelope) by reflexivity.
  rewrite Er in Hm.
  destruct Hm as (_ & _ & arrived & status & statusText & stored & E & Havg).
  injection E as <- _ _ _. exact Havg.
Defined.

End PollingClient.

(** ** The sensor, its datagrams and the bands *)

Section Sensor.
Import Firmware.

Lemma ge_Num (q r : Q) : ge (Num q) (Num r) = true <-> (r <= q)%Q.
Proof. unfold ge. apply Qle_bool_iff. Qed.

Lemma first_band_cases (v : number) :
  match v with
  | NaN => determineTheme v = MEDIUM
  | Num q =>
      ((0 <= q <= 199)%Q /\ determineTheme v = DARK) \/
      ((600 <= q <= 1023)%Q /\ determineTheme v = BRIGHT) \/
      (~ (0 <= q <= 199)%Q /\ ~ (600 <= q <= 1023)%Q /\ determineTheme v = MEDIUM)
  | Infinity _ => determineTheme v = MEDIUM
  end.
Proof.
  destruct v as [|q|[|]]; [reflexivity| |reflexivity|reflexivity].
  unfold determineTheme, THEMES_CONFIG, first_band, le, of_Z. cbn [range_min range_max].
  destruct (ge (Num q) (Num (inject_Z 0))) eqn:E0;
  destruct (ge (Num (inject_Z 199)) (Num q)) eqn:E1;
  destruct (ge (Num q) (Num (inject_Z 200))) eqn:E2;
  destruct (ge (Num (inject_Z 599)) (Num q)) eqn:E3;
  destruct (ge (Num q) (Num (inject_Z 600))) eqn:E4;
  destruct (ge (Num (inject_Z 1023)) (Num q)) eqn:E5;
  cbn [andb];
  repeat match goal with
  | H : ge _ _ = true |- _ => apply ge_Num in H
  | H : ge _ _ = false |- _ => apply not_true_iff_false in H; rewrite ge_Num in H
  end; unfold inject_Z in *;
  first [ left; split; [lra | reflexivity]
        | right; left; split; [lra | reflexivity]
        | right; right; split; [lra | split; [lra | reflexivity]]
        | exfalso; lra ].
Qed.

(** X1.  [determineTheme] answers DARK exactly on the numbers from 0 to 199
    and BRIGHT exactly on those from 600 to 1023, bounds included.  Every
    other value is MEDIUM: the numbers from 200 to 599, but also [NaN],
    the infinities, negative numbers, numbers above 1023 and the fractions
    that fall between two bands, which only the fallback catches. *)
Theorem determineTheme_bands (v : number) :
  (determineTheme v = DARK <-> exists q, v = Num q /\ (0 <= q <= 199)%Q) /\
  (determineTheme v = BRIGHT <-> exists q, v = Num q /\ (600 <= q <= 1023)%Q) /\
  (determineTheme v = MEDIUM <->
   forall q, v = Num q -> ~ (0 <= q <= 199)%Q /\ ~ (600 <= q <= 1023)%Q).
Proof.
  assert (Hother : forall w, (forall q, w <> Num q) -> determineTheme w = MEDIUM ->
    (determineTheme w = DARK <-> exists q, w = Num q /\ (0 <= q <= 199)%Q) /\
    (determineTheme w = BRIGHT <-> exists q, w = Num q /\ (600 <= q <= 1023)%Q) /\
    (determineTheme w = MEDIUM <->
     forall q, w = Num q -> ~ (0 <= q <= 199)%Q /\ ~ (600 <= q <= 1023)%Q)).
  { intros w Hw Hm. rewrite Hm. split; [|split]; split; try discriminate.
    - intros (q & E & _). now destruct (Hw q).
    - intros (q & E & _). now destruct (Hw q).
    - intros _ q E. now destruct (Hw q).
    - reflexivity. }
  pose proof (first_band_cases v) as H. destruct v as [|q|b].
  - apply Hother; [discriminate | exact H].
  - assert (Hex : forall P : Q -> Prop, (exists q', Num q = Num q' /\ P q') <-> P q).
    { intros P. split; [intros (q' & [= <-] & HP); exact HP | eauto]. }
    assert (Hall : forall P : Q -> Prop, (forall q', Num q = Num q' -> P q') <-> P q).
    { intros P. split; [eauto | intros HP q' [= <-]; exact HP]. }
    rewrite !Hex, Hall.
    destruct H as [[R H]|[[R H]|(R1 & R2 & H)]]; rewrite H;
      (split; [|split]); split; try discriminate; try reflexivity; try lra; tauto.
  - apply Hother; [discriminate | exact H].
Qed.

Lemma lit_app (a b : string) : lit (a +:+ b) = lit a ++ lit b.
Proof.
  unfold lit. induction a as [|c a IH]; [reflexivity|].
  change (String c a +:+ b) with (String c (a +:+ b)).
  cbn [String.list_ascii_of_string map app]. f_equal. exact IH.
Qed.

Lemma pretty_N_char_digit (d : N) :
  (d < 10)%N ->
  digit (Ascii.N_of_ascii (pretty_N_char d)) /\
  digit_in_radix 10 (Ascii.N_of_ascii (pretty_N_char d)) = Some d.
Proof.
  intros H.
  assert (d = 0 \/ d = 1 \/ d = 2 \/ d = 3 \/ d = 4 \/ d = 5 \/ d = 6 \/ d = 7
          \/ d = 8 \/ d = 9)%N as C by lia.
  repeat (destruct C as [->|C]; [split; reflexivity|]). subst. split; reflexivity.
Qed.

Lemma digits_value_snoc (ds : jsstring) (c d : N) :
  digit_in_radix 10 c = Some d ->
  digits_value 10 (ds ++ [c]) = digits_value 10 ds * 10 + Z.of_N d.
Proof.
  intros H. unfold digits_value. rewrite fold_left_app. cbn [fold_left].
  now rewrite H.
Qed.

Lemma pretty_N_go_digits (x : N) :
  exists ds, (forall s, lit (pretty_N_go x s) = ds ++ lit s) /\
             Forall digit ds /\ digits_value 10 ds = Z.of_N x /\
             ((0 < x)%N -> ds <> []).
Proof.
  induction (N.lt_wf_0 x) as [x _ IH].
  assert (x = 0 \/ 0 < x)%N as [->|Hx] by lia.
  - exists []. repeat split; auto; intros; lia.
  - destruct (IH (x `div` 10)%N) as (ds & Hs & Hd & Hv & _).
    { apply N.div_lt; lia. }
    assert (x `mod` 10 < 10)%N as Hm by (apply N.mod_lt; lia).
    destruct (pretty_N_char_digit _ Hm) as [Hc Hr].
    exists (ds ++ [Ascii.N_of_ascii (pretty_N_char (x `mod` 10))]).
    split; [|split; [|split]].
    + intros s. rewrite pretty_N_go_step by exact Hx. rewrite Hs.
      rewrite <- app_assoc. reflexivity.
    + apply Forall_app. split; [exact Hd | repeat constructor; exact Hc].
    + rewrite (digits_value_snoc _ _ _ Hr), Hv.
      pose proof (N.div_mod x 10). lia.
    + intros _. destruct ds; discriminate.
Qed.

Lemma pretty_Z_digits (n : Z) :
  0 <= n ->
  exists ds, lit (pretty n) = ds /\ ds <> [] /\ Forall digit ds /\
             digits_value 10 ds = n.
Proof.
  intros Hn. destruct n as [|p|p]; [| |lia].
  - exists (lit "0"). repeat split; try discriminate. repeat constructor.
  - destruct (pretty_N_go_digits (N.pos p)) as (ds & Hs & Hd & Hv & Hne).
    exists ds. unfold pretty, pretty_Z, pretty, pretty_positive, pretty, pretty_N.
    destruct (decide (N.pos p = 0%N)) as [E|_]; [discriminate|].
    rewrite Hs. cbn [lit String.list_ascii_of_string map]. rewrite app_nil_r.
    repeat split; auto. apply Hne. lia.
Qed.

Lemma datagram_decodes (n : Z) :
  0 <= n <= 2 ^ 53 -> extractLDRValue (RString (datagram n)) = of_Z n.
Proof.
  intros [Hn Hb]. destruct (pretty_Z_digits n Hn) as (ds & E & Hne & Hd & Hv).
  unfold datagram. rewrite lit_app, E. change (lit "LDR=") with marker.
  pose proof (match_LDR_first [] ds [] eq_refl Hne Hd eq_refl) as Hm.
  cbn [app] in Hm. rewrite app_nil_r in Hm.
  unfold extractLDRValue.
  rewrite (includes_app marker [] ds : includes marker (marker ++ ds) = true).
  rewrite Hm, (parseInt_digits ds Hne Hd), Hv. apply double_of_Z_exact. lia.
Qed.

Lemma datagram_short :
  forallb (fun k => (length (datagram (Z.of_nat k)) <=? 8)%nat) (seq 0 1024) = true.
Proof. vm_compute. reflexivity. Qed.

(** X2.  What the sketch prints for a reading, [LDR=] followed by the
    decimal digits of the reading, is decoded by [extractLDRValue] to that
    very reading, for every reading that is not negative and not above
    2^53, as every [int] of the sketch is.  For a reading of the 10-bit
    converter the text is at most 8 characters long, so the 32 bytes of the
    buffer never cut it. *)
Theorem datagram_round_trip (n : Z) :
  0 <= n <= 2 ^ 53 ->
  extractLDRValue (RString (datagram n)) = of_Z n /\
  (n <= 1023 -> (length (datagram n) <= 8)%nat).
Proof.
  intros Hn. split; [now apply datagram_decodes|]. intros Hm.
  pose proof (proj1 (forallb_forall _ _) datagram_short (Z.to_nat n)) as H.
  cbv beta in H. rewrite Z2Nat.id in H by apply Hn.
  apply Nat.leb_le, H, in_seq. lia.
Qed.

Lemma datagram_round_trip_witness :
  extractLDRValue (RString (datagram 742)) = of_Z 742 /\
  (742 <= 1023 -> (length (datagram 742) <= 8)%nat).
Proof. apply (datagram_round_trip 742). lia. Defined.

Lemma loop_cases (p : pass) (s : Sketch) :
  (loop (reading p) (clock p) (remote p) s
   = ({| lastSentValue := reading p; lastSendTime := clock p |},
      Some (datagram (reading p))) /\
   shouldSendData (reading p) (clock p) s = true /\ remote p = true) \/
  (loop (reading p) (clock p) (remote p) s = (s, None) /\
   (shouldSendData (reading p) (clock p) s = false \/ remote p = false)).
Proof.
  unfold loop. destruct (shouldSendData _ _ s), (remote p); auto.
Qed.

Lemma run_after_send (passes : list pass) (last : pass) :
  0 <= reading last ->
  Forall plausible passes ->
  chain significant
    (last :: map fst (run passes {| lastSentValue := reading last;
                                    lastSendTime := clock last |})).
Proof.
  intros Hl Hp. revert last Hl. induction Hp as [|p rest Hpl _ IH]; intros last Hl.
  - exact I.
  - cbn [run]. destruct (loop_cases p {| lastSentValue := reading last;
                                         lastSendTime := clock last |})
      as [(E & Hs & _)|(E & _)]; rewrite E.
    + cbn [map fst]. split; [|apply IH; apply Hpl].
      unfold shouldSendData in Hs. cbn [lastSentValue lastSendTime] in Hs.
      destruct (reading last =? -1) eqn:E1; [lia|].
      destruct (ulong (clock p - clock last) <? MIN_SEND_INTERVAL) eqn:E2;
        [discriminate|].
      split; lia.
    + apply IH. exact Hl.
Qed.

Lemma run_before_send (passes : list pass) :
  Forall plausible passes ->
  chain significant (map fst (run passes setup)) /\
  hd_error (map fst (run passes setup)) = List.find remote passes.
Proof.
  induction 1 as [|p rest Hpl Hp IH]; [split; [exact I|reflexivity]|].
  cbn [run List.find]. destruct (loop_cases p setup) as [(E & _ & Hr)|(E & [Hs|Hr])];
    rewrite E, ?Hr.
  - cbn [map fst hd_error]. split; [|reflexivity].
    exact (run_after_send rest p (proj1 (proj1 Hpl)) Hp).
  - discriminate.
  - exact IH.
Qed.

Lemma run_datagrams (passes : list pass) (s : Sketch) :
  Forall (fun x => snd x = datagram (reading (fst x))) (run passes s).
Proof.
  revert s. induction passes as [|p rest IH]; intros s; [constructor|].
  cbn [run]. destruct (loop_cases p s) as [(E & _)|(E & _)]; rewrite E.
  - constructor; [reflexivity | apply IH].
  - apply IH.
Qed.

Lemma run_within (passes : list pass) (s : Sketch) :
  Forall (fun x => In (fst x) passes) (run passes s).
Proof.
  revert s. induction passes as [|p rest IH]; intros s; [constructor|].
  cbn [run]. destruct (loop_cases p s) as [(E & _)|(E & _)]; rewrite E.
  - constructor; [now left|]. eapply Forall_impl; [apply IH|]. intros x Hx. now right.
  - eapply Forall_impl; [apply IH|]. intros x Hx. now right.
Qed.

(** X3.  Over any run of passes of the sketch's loop, started from the
    state [setup] leaves, with readings and clock values the board can
    produce: two successive transmissions differ by at least 5 in their
    reading and lie at least 100 ms apart on the 32-bit clock, wrap-around
    included; the first transmission is the first pass at which the remote
    address could be set, whatever its reading; each datagram is the text of
    the reading of its pass and decodes to it; and once something was sent,
    a pass is transmitted exactly when it differs that much, lies that far
    apart and the remote address can be set. *)
Theorem sketch_sends_significant_changes (passes : list pass) :
  Forall plausible passes ->
  chain significant (map fst (run passes setup)) /\
  hd_error (map fst (run passes setup)) = List.find remote passes /\
  Forall (fun x => snd x = datagram (reading (fst x)) /\
                   extractLDRValue (RString (snd x)) = of_Z (reading (fst x)))
         (run passes setup) /\
  (forall last p, 0 <= reading last ->
     (exists d, snd (loop (reading p) (clock p) (remote p)
                       {| lastSentValue := reading last; lastSendTime := clock last |})
                = Some d)
     <-> significant last p /\ remote p = true).
Proof.
  intros Hp. destruct (run_before_send passes Hp) as [Hc Hh].
  split; [exact Hc|]. split; [exact Hh|]. split.
  - pose proof (run_datagrams passes setup) as Hd.
    pose proof (run_within passes setup) as Hw.
    apply List.Forall_forall. intros x Hx.
    pose proof (proj1 (List.Forall_forall _ _) Hd x Hx) as Ed.
    pose proof (proj1 (List.Forall_forall _ _) Hw x Hx) as Ew.
    split; [exact Ed|]. rewrite Ed. apply datagram_decodes.
    destruct (proj1 (List.Forall_forall _ _) Hp (fst x) Ew) as [Hr _].
    split; [lia|]. apply Z.le_trans with 1023; [lia | discriminate].
  - intros last p Hl. unfold loop, shouldSendData, significant.
    cbn [lastSentValue lastSendTime].
    destruct (reading last =? -1) eqn:E1; [lia|].
    destruct (ulong (clock p - clock last) <? MIN_SEND_INTERVAL) eqn:E2;
    destruct (THRESHOLD <=? Z.abs (reading p - reading last)) eqn:E3;
    destruct (remote p); cbn [snd]; split;
      try (intros (d & [=])); try (intros [[? ?] ?]); eauto; try lia; try discriminate;
      try (split; [split; lia | reflexivity]).
Qed.

Lemma sketch_sends_significant_changes_witness :
  chain significant
    (map fst (run [ {| reading := 300; clock := 4294967290; remote := true |};
                    {| reading := 310; clock := 50; remote := true |};
                    {| reading := 295; clock := 200; remote := true |} ] setup)) /\
  map (fun x => reading (fst x))
    (run [ {| reading := 300; clock := 4294967290; remote := true |};
           {| reading := 310; clock := 50; remote := true |};
           {| reading := 295; clock := 200; remote := true |} ] setup) = [300; 295].
Proof.
  split; [|reflexivity].
  refine (proj1 (sketch_sends_significant_changes _ _)).
  repeat constructor; cbn; lia.
Defined.

End Sensor.

(** ** The monitor page *)

Section MonitorPage.
Import Monitor.

Lemma renumber_length (i : nat) (h : list DataPoint) : length (renumber i h) = length h.
Proof. revert i. induction h as [|p h IH]; intros i; cbn; [reflexivity | now rewrite IH]. Qed.

Lemma renumber_numbers (i : nat) (h : list DataPoint) :
  map point_number (renumber i h) = seq (S i) (length h).
Proof.
  revert i. induction h as [|p h IH]; intros i; cbn; [reflexivity|].
  rewrite IH. f_equal. lia.
Qed.

Lemma renumber_values (i : nat) (h : list DataPoint) :
  map point_value (renumber i h) = map point_value h.
Proof. revert i. induction h as [|p h IH]; intros i; cbn; [reflexivity | now rewrite IH]. Qed.

Lemma renumber_themes (i : nat) (h : list DataPoint) :
  Forall (fun p => point_theme p = determineTheme (point_value p)) h ->
  Forall (fun p => point_theme p = determineTheme (point_value p)) (renumber i h).
Proof.
  intros H. revert i. induction H as [|p h Hp _ IH]; intros i; cbn; constructor; auto.
Qed.

Lemma renumber_deltas (i : nat) (h : list DataPoint) :
  deltas_follow h -> deltas_follow (renumber i h).
Proof.
  revert i. induction h as [|p h IH]; intros i; [auto|].
  destruct h as [|q h]; [cbn; auto|].
  intros [E H]. specialize (IH (S i) H). cbn in *. split; assumption.
Qed.

Lemma deltas_follow_tail (h : list DataPoint) : deltas_follow h -> deltas_follow (tail h).
Proof. destruct h as [|p [|q h]]; cbn; tauto. Qed.

Lemma deltas_follow_snoc (h : list DataPoint) (p : DataPoint) :
  deltas_follow h ->
  (forall previous, last h = Some previous ->
                    delta p = nsub (point_value p) (point_value previous)) ->
  deltas_follow (h ++ [p]).
Proof.
  induction h as [|a h IH]; [cbn; auto|].
  intros H Hl. destruct h as [|b h].
  - cbn. split; [|exact I]. apply Hl. reflexivity.
  - destruct H as [E H]. change ((a :: b :: h) ++ [p]) with (a :: (b :: h) ++ [p]).
    change ((b :: h) ++ [p]) with (b :: h ++ [p]) in *.
    split; [exact E|]. apply IH; [exact H|]. intros previous Hp. apply Hl.
    exact Hp.
Qed.

Lemma seq_snoc (a n : nat) : seq a (S n) = seq a n ++ [(a + n)%nat].
Proof. rewrite <- Nat.add_1_r. rewrite seq_app. reflexivity. Qed.

Lemma counted_tally (t : theme) (d : Distribution) : counted (tally t d) = S (counted d).
Proof. destruct t; unfold counted; cbn; lia. Qed.

Lemma addToSharedHistory_consistent (v : number) (t : raw) (app : MonitorApp) :
  consistent app -> consistent (addToSharedHistory v t app).
Proof.
  intros (Hm & Hl & Ht & Hn & Hc & Hth & Hd).
  set (p := {| point_number := (length (sharedHistory app) + 1)%nat; point_value := v;
               point_timestamp := t; point_theme := determineTheme v;
               delta := match last (sharedHistory app) with
                        | Some previous => nsub v (point_value previous)
                        | None => of_Z 0
                        end |}).
  assert (Hth' : Forall (fun p => point_theme p = determineTheme (point_value p))
                        (sharedHistory app ++ [p])).
  { apply Forall_app. split; [exact Hth | repeat constructor]. }
  assert (Hd' : deltas_follow (sharedHistory app ++ [p])).
  { apply deltas_follow_snoc; [exact Hd|]. intros previous E. subst p. cbn [delta point_value].
    now rewrite E. }
  unfold consistent, addToSharedHistory. fold p.
  cbn [maxHistoryPoints sharedHistory totalReadings themeDistribution].
  rewrite counted_tally, Hc.
  destruct (maxHistoryPoints app <? length (sharedHistory app ++ [p]))%nat eqn:E.
  - apply Nat.ltb_lt in E. rewrite length_app in E. cbn [length] in E.
    assert (Hlen : length (tail (sharedHistory app ++ [p])) = length (sharedHistory app)).
    { destruct (sharedHistory app); cbn; [reflexivity|]. rewrite length_app. cbn. lia. }
    rewrite renumber_length, Hlen, renumber_numbers, Hlen.
    repeat split; auto; try lia.
    + apply renumber_themes. destruct (sharedHistory app ++ [p]); [constructor|].
      cbn. now apply Forall_inv_tail in Hth'.
    + apply renumber_deltas, deltas_follow_tail, Hd'.
  - apply Nat.ltb_ge in E. rewrite length_app in *. cbn [length] in *.
    repeat split; auto; try lia.
    rewrite map_app, Hn. cbn [map point_number p].
    rewrite Nat.add_1_r, (seq_snoc 1). reflexivity.
Qed.

Lemma loadSharedHistory_consistent (history : list API.Reading) (app : MonitorApp) :
  consistent app -> consistent (fst (loadSharedHistory history app)).
Proof.
  intros (Hm & Hl & Ht & Hn & Hc & Hth & Hd). unfold loadSharedHistory. cbn [fst].
  match goal with |- consistent (fold_left _ _ ?a) =>
    assert (H0 : consistent a) by (repeat split; cbn; auto; try lia; constructor);
    generalize dependent a end.
  induction (rev history) as [|r l IH]; intros a Ha; [exact Ha|].
  cbn [fold_left]. apply IH. now apply addToSharedHistory_consistent.
Qed.

Lemma act_consistent (app : MonitorApp) (a : action) :
  consistent app -> consistent (act app a).
Proof.
  intros H. destruct a as [v t iso|history|[|]|]; cbn [act].
  - unfold handleRealtimeData. destruct (isPaused app); [exact H|].
    now apply addToSharedHistory_consistent.
  - now apply loadSharedHistory_consistent.
  - destruct H as (Hm & _). repeat split; cbn; auto; try lia; constructor.
  - exact H.
  - exact H.
Qed.

Lemma session_consistent (actions : list action) : consistent (session actions).
Proof.
  unfold session.
  assert (H0 : consistent constructor) by (repeat split; cbn; auto; try lia; constructor).
  generalize dependent constructor. induction actions as [|a l IH]; intros app H; [exact H|].
  cbn [fold_left]. apply IH. now apply act_consistent.
Qed.

(** X4.  Whatever happens to the monitor page, in whatever order (readings
    arriving, a history being loaded, the data being cleared, pausing), its
    history never holds more than 100 points and never more than were
    counted, the points are numbered 1, 2, ... in order, the three band
    counters add up to [totalReadings], every point carries the band of its
    value, and every point but the first carries the difference to the
    value before it. *)
Theorem monitor_counters_consistent (actions : list action) :
  let app := session actions in
  (length (sharedHistory app) <= 100)%nat /\
  (length (sharedHistory app) <= totalReadings app)%nat /\
  map point_number (sharedHistory app) = seq 1 (length (sharedHistory app)) /\
  (dark (themeDistribution app) + medium (themeDistribution app)
   + bright (themeDistribution app))%nat = totalReadings app /\
  Forall (fun p => point_theme p = determineTheme (point_value p)) (sharedHistory app) /\
  deltas_follow (sharedHistory app).
Proof.
  cbv zeta.
  destruct (session_consistent actions) as (Hm & Hl & Ht & Hn & Hc & Hth & Hd).
  rewrite Hm in Hl. repeat split; auto.
Qed.

Lemma window_all {A} (n : nat) (l : list A) : (length l <= n)%nat -> window n l = l.
Proof. intros H. unfold window. replace (length l - n)%nat with 0%nat by lia. reflexivity. Qed.

Lemma window_length {A} (n : nat) (l : list A) : (length (window n l) <= n)%nat.
Proof. unfold window. rewrite length_drop. lia. Qed.

Lemma window_snoc {A} (n : nat) (l : list A) (v : A) :
  window n (window n l ++ [v]) = window n (l ++ [v]).
Proof.
  destruct (Nat.le_gt_cases (length l) n) as [H|H].
  - now rewrite (window_all n l H).
  - unfold window. rewrite !length_app, length_drop. cbn [length].
    replace (length l - (length l - n) + 1 - n)%nat with 1%nat by lia.
    destruct n as [|n].
    + rewrite (drop_ge l) by lia. cbn [app drop].
      rewrite drop_ge by (rewrite length_app; cbn; lia). reflexivity.
    + rewrite !drop_app_le by (rewrite ?length_drop; lia).
      rewrite drop_drop. f_equal. f_equal. lia.
Qed.

Lemma addToSharedHistory_values (v : number) (t : raw) (app : MonitorApp) :
  (length (sharedHistory app) <= maxHistoryPoints app)%nat ->
  map point_value (sharedHistory (addToSharedHistory v t app))
  = window (maxHistoryPoints app) (map point_value (sharedHistory app) ++ [v]).
Proof.
  intros H. unfold addToSharedHistory. cbn [sharedHistory].
  match goal with |- context [sharedHistory app ++ [?p]] => set (point := p) end.
  assert (E : map point_value (sharedHistory app ++ [point])
              = map point_value (sharedHistory app) ++ [v]).
  { now rewrite map_app. }
  destruct (maxHistoryPoints app <? length (sharedHistory app ++ [point]))%nat eqn:L.
  - apply Nat.ltb_lt in L. rewrite length_app in L. cbn [length] in L.
    rewrite renumber_values. unfold window. rewrite length_app, length_map. cbn [length].
    replace (length (sharedHistory app) + 1 - maxHistoryPoints app)%nat with 1%nat by lia.
    rewrite <- E. now destruct (sharedHistory app ++ [point]).
  - apply Nat.ltb_ge in L. rewrite E, window_all; [reflexivity|].
    now rewrite <- E, length_map.
Qed.

Lemma addToSharedHistory_bounded (v : number) (t : raw) (app : MonitorApp) :
  (length (sharedHistory app) <= maxHistoryPoints app)%nat ->
  (length (sharedHistory (addToSharedHistory v t app)) <= maxHistoryPoints app)%nat.
Proof.
  intros H. rewrite <- (length_map point_value), addToSharedHistory_values by exact H.
  apply window_length.
Qed.

Lemma fold_addToSharedHistory {R} (f : R -> number) (g : R -> raw)
      (readings : list R) (app : MonitorApp) :
  (length (sharedHistory app) <= maxHistoryPoints app)%nat ->
  let app' := fold_left (fun a r => addToSharedHistory (f r) (g r) a) readings app in
  map point_value (sharedHistory app')
  = window (maxHistoryPoints app) (map point_value (sharedHistory app) ++ map f readings) /\
  totalReadings app' = (totalReadings app + length readings)%nat /\
  counted (themeDistribution app') = (counted (themeDistribution app) + length readings)%nat /\
  isPaused app' = isPaused app /\ maxHistoryPoints app' = maxHistoryPoints app.
Proof.
  revert app. induction readings as [|r l IH]; intros app H; cbv zeta.
  - cbn [fold_left map length]. rewrite app_nil_r, window_all by now rewrite length_map.
    repeat split; lia.
  - cbn [fold_left map length].
    destruct (IH (addToSharedHistory (f r) (g r) app)) as (E1 & E2 & E3 & E4 & E5).
    { exact (addToSharedHistory_bounded _ _ _ H). }
    rewrite E1, E2, E3, E4, E5, addToSharedHistory_values by exact H.
    cbn [addToSharedHistory maxHistoryPoints totalReadings themeDistribution isPaused].
    rewrite counted_tally. repeat split; try lia.
    change (f r :: map f l) with ([f r] ++ map f l). rewrite app_assoc.
    generalize (map point_value (sharedHistory app) ++ [f r]). intros vs.
    clear. induction (map f l) as [|x xs IHx] using rev_ind.
    + rewrite !app_nil_r. apply window_all, window_length.
    + rewrite !app_assoc, <- window_snoc, IHx, window_snoc. reflexivity.
Qed.

Lemma loaded_value_cases (reading : API.Reading) :
  (truthy (API.value reading) = true /\ loaded_value reading = API.value reading) \/
  (truthy (API.value reading) = false /\ loaded_value reading = of_Z 0).
Proof.
  unfold loaded_value, raw_or, raw_truthy.
  destruct (truthy (API.value reading)); [left | right]; split; reflexivity.
Qed.

Lemma loaded_value_shown (reading : API.Reading) :
  loaded_value reading
  = match API.value reading with
    | NaN => of_Z 0
    | Num q => if Qeq_bool q 0 then of_Z 0 else Num q
    | Infinity b => Infinity b
    end.
Proof.
  destruct (loaded_value_cases reading) as [[Ht ->]|[Ht ->]]; unfold truthy in Ht;
    destruct (API.value reading) as [|q|b]; try discriminate; try reflexivity;
    destruct (Qeq_bool q 0); try discriminate; reflexivity.
Qed.

Lemma loadSharedHistory_run (history : list API.Reading) (app : MonitorApp) :
  let loaded := fst (loadSharedHistory history app) in
  map point_value (sharedHistory loaded)
  = window (maxHistoryPoints app) (map loaded_value (rev history)) /\
  totalReadings loaded = (totalReadings app + length history)%nat /\
  counted (themeDistribution loaded)
  = (counted (themeDistribution app) + length history)%nat /\
  maxHistoryPoints loaded = maxHistoryPoints app.
Proof.
  cbv zeta. unfold loadSharedHistory. cbn [fst].
  match goal with |- context [fold_left _ _ ?e] =>
    destruct (fold_addToSharedHistory loaded_value API.reading_timestamp
                (rev history) e) as (E1 & E2 & E3 & _ & E5); [cbn; lia|] end.
  unfold loaded_value in *. rewrite E1, E2, E3, E5, length_rev. auto.
Qed.

(** X5.  Loading a history reverses the array handed over where it
    stands and replaces the points shown by the last 100 readings of the
    array so reversed: for a history that lists the newest reading first,
    the last 100 oldest first.  A reading is shown with its value, a value
    of 0 or [NaN] as 0.  The counters are not replaced: the readings loaded
    are counted on top of what had been counted.  So loading the same array
    a second time shows its readings in the opposite order, the order the
    array had before the first load, and counts every reading twice. *)
Theorem loadSharedHistory_recounts (history : list API.Reading) (app : MonitorApp) :
  let once := loadSharedHistory history app in
  let twice := loadSharedHistory (snd once) (fst once) in
  snd once = rev history /\
  map point_value (sharedHistory (fst once))
  = window (maxHistoryPoints app) (map loaded_value (rev history)) /\
  (forall reading,
     loaded_value reading
     = match API.value reading with
       | NaN => of_Z 0
       | Num q => if Qeq_bool q 0 then of_Z 0 else Num q
       | Infinity b => Infinity b
       end) /\
  totalReadings (fst once) = (totalReadings app + length history)%nat /\
  counted (themeDistribution (fst once))
  = (counted (themeDistribution app) + length history)%nat /\
  snd twice = history /\
  map point_value (sharedHistory (fst twice))
  = window (maxHistoryPoints app) (map loaded_value history) /\
  totalReadings (fst twice) = (totalReadings app + 2 * length history)%nat /\
  counted (themeDistribution (fst twice))
  = (counted (themeDistribution app) + 2 * length history)%nat.
Proof.
  cbv zeta.
  destruct (loadSharedHistory_run history app) as (E1 & E2 & E3 & E4).
  destruct (loadSharedHistory_run (rev history) (fst (loadSharedHistory history app)))
    as (F1 & F2 & F3 & _).
  cbv zeta in *.
  change (snd (loadSharedHistory history app)) with (rev history).
  rewrite F1, F2, F3, E1, E2, E3, E4, length_rev, rev_involutive.
  split; [reflexivity|]. split; [reflexivity|]. split; [exact loaded_value_shown|].
  split; [reflexivity|]. split; [reflexivity|]. split; [apply rev_involutive|].
  split; [reflexivity|]. split; lia.
Qed.

(** X6.  In any state the page can reach, a reading that arrives while the
    page is paused is dropped, not kept for later: nothing changes.
    Otherwise the decoded value is appended, the oldest point leaves once
    there are more than 100, the reading is counted, and the point carries
    the time stamp of the payload, or the current time when the payload has
    none. *)
Theorem handleRealtimeData_slides (actions : list action)
        (value timestamp : raw) (iso : jsstring) :
  let app := session actions in
  let app' := handleRealtimeData value timestamp iso app in
  if isPaused app then app' = app
  else map point_value (sharedHistory app')
       = window 100 (map point_value (sharedHistory app) ++ [extractLDRValue value]) /\
       totalReadings app' = S (totalReadings app) /\
       (exists point, last (sharedHistory app') = Some point /\
          point_value point = extractLDRValue value /\
          point_theme point = determineTheme (extractLDRValue value) /\
          point_timestamp point = raw_or timestamp (RString iso)).
Proof.
  cbv zeta.
  destruct (session_consistent actions) as (Hm & Hl & _). unfold handleRealtimeData.
  destruct (isPaused (session actions)); [reflexivity|].
  rewrite addToSharedHistory_values, Hm by exact Hl. split; [reflexivity|].
  split; [reflexivity|]. unfold addToSharedHistory. cbn [sharedHistory].
  match goal with |- context [sharedHistory _ ++ [?p]] => set (point := p) end.
  destruct (maxHistoryPoints _ <? _)%nat eqn:E.
  - rewrite Hm in E. destruct (sharedHistory (session actions)) as [|p0 h];
      cbn [app tail renumber].
    + discriminate E.
    + assert (R : forall i l, last (renumber i (l ++ [point]))
                  = Some {| point_number := (i + length l + 1)%nat;
                            point_value := point_value point;
                            point_timestamp := point_timestamp point;
                            point_theme := point_theme point; delta := delta point |}).
      { intros i l. revert i. induction l as [|x l IHl]; intros i.
        - cbn [app renumber last length]. now rewrite Nat.add_0_r.
        - cbn [app renumber length]. rewrite last_cons, IHl.
          now replace (S i + length l + 1)%nat with (i + S (length l) + 1)%nat by lia. }
      rewrite R. eexists. split; [reflexivity|]. repeat split.
  - exists point. rewrite last_snoc. repeat split.
Qed.

End MonitorPage.

(** ** The feed client over whole runs *)

Section FeedTraces.
Import WS.

Ltac feed_run :=
  cbv [mbind mret M_bind M_ret bind ret this window tell update update_browser log
       level_num LOG_LEVEL Nat.ltb Nat.leb triggerCallbacks setTimeout setInterval
       clearTimeout clearInterval new_WebSocket readyState setupEventHandlers
       set_readyState].

(** *** Calm operations *)

Section Calm.
Variable P : effect -> bool.
Hypothesis P_ordinary :
  forall e, schedules_reconnect e = false -> sends_ping e = false -> P e = true.

Lemma calm_at_bind {A B} (m : M A) (k : A -> M B) (w : World) :
  calm_at P m w -> (forall a w1, calm_at P (k a) w1) -> calm_at P (m ≫= k) w.
Proof.
  unfold calm_at, calm_between. intros (Hm1 & Hm2 & Hm3 & Hm4) Hk. rewrite bind_run.
  specialize (Hk (result_of (m w)) (world_of (m w))).
  destruct (m w) as [[a w1] e1].
  unfold result_of, world_of, effects_of in *. cbn [fst snd] in *.
  destruct (k a w1) as [[b w2] e2]. cbn [fst snd] in *.
  destruct Hk as (Hk1 & Hk2 & Hk3 & Hk4).
  split; [congruence | split; [congruence | split; [lia | apply Forall_app; auto]]].
Qed.

Lemma calm_bind {A B} (m : M A) (k : A -> M B) :
  calm P m -> (forall a, calm P (k a)) -> calm P (m ≫= k).
Proof. intros Hm Hk w. apply calm_at_bind; [apply Hm | intros a w1; apply Hk]. Qed.

Lemma calm_between_refl (w : World) : calm_between P w w [].
Proof. repeat split; auto. Qed.

Lemma calm_ret {A} (a : A) : calm P (mret a : M A).
Proof. intros w. apply calm_between_refl. Qed.

Lemma calm_this : calm P this.
Proof. intros w. apply calm_between_refl. Qed.

Lemma calm_window : calm P window.
Proof. intros w. apply calm_between_refl. Qed.

Lemma calm_tell (e : effect) : P e = true -> calm P (tell e).
Proof. intros H w. repeat split; auto. repeat constructor. exact H. Qed.

Lemma calm_update (f : WebSocketService -> WebSocketService) :
  (forall s, totalReconnects (metrics (f s)) = totalReconnects (metrics s) /\
             maxReconnectAttempts (f s) = maxReconnectAttempts s /\
             (reconnectAttempts (f s) <= reconnectAttempts s)%nat) ->
  calm P (update f).
Proof.
  intros H w. destruct (H (service w)) as (H1 & H2 & H3).
  split; [exact H1 | split; [exact H2 | split; [exact H3 | constructor]]].
Qed.

Lemma calm_update_browser (f : Browser -> Browser) : calm P (update_browser f).
Proof. intros w. repeat split; auto. Qed.

Lemma calm_log (l : log_level) (text : string) : calm P (log l text).
Proof.
  unfold log. destruct (_ <? _)%nat; [apply calm_ret | apply calm_tell; now apply P_ordinary].
Qed.

Ltac calm_step :=
  match goal with
  | |- calm _ (_ ≫= _) => apply calm_bind; [|intros ?]
  | |- calm _ (mret _) => apply calm_ret
  | |- calm _ this => apply calm_this
  | |- calm _ window => apply calm_window
  | |- calm _ (log _ _) => apply calm_log
  | |- calm _ (tell _) => apply calm_tell; apply P_ordinary; reflexivity
  | |- calm _ (update _) => apply calm_update; intros; cbn; repeat split; lia
  | |- calm _ (update_browser _) => apply calm_update_browser
  | |- calm _ (if ?c then _ else _) => destruct c
  | |- calm _ (match ?x with _ => _ end) => destruct x
  end.

Ltac calm_auto := repeat calm_step.

Lemma calm_stopPingInterval : calm P stopPingInterval.
Proof. unfold stopPingInterval, clearInterval. calm_auto. Qed.

Lemma calm_connect (ctor_ok : bool) : calm P (connect ctor_ok).
Proof.
  unfold connect, new_WebSocket, setupEventHandlers, triggerCallbacks, setTimeout.
  calm_auto.
Qed.

Lemma calm_ws_close (sock : nat) (c : Z) (r : string) : calm P (ws_close sock c r).
Proof. unfold ws_close, readyState. calm_auto. Qed.

Lemma calm_disconnect (c : Z) (r : string) : calm P (disconnect c r).
Proof.
  unfold disconnect. apply calm_bind; [apply calm_this|]. intros s.
  destruct (ws s); [|apply calm_ret]. destruct (isConnected s); [|apply calm_ret].
  apply calm_bind; [apply calm_log|]. intros ?.
  apply calm_bind; [apply calm_stopPingInterval|]. intros ?.
  apply calm_bind; [|intros ?; apply calm_ws_close].
  unfold clearTimeout. calm_auto.
Qed.

Lemma calm_handleError : calm P handleError.
Proof. unfold handleError, triggerCallbacks. calm_auto. Qed.

Lemma calm_handleMessage (msg : message) (now : Z) : calm P (handleMessage msg now).
Proof.
  unfold handleMessage, handleLDRUpdate, handlePong, handleSystemStatus,
    updateMetrics, updateLatency, triggerCallbacks.
  destruct msg; calm_auto.
Qed.

Lemma calm_settle (sock : nat) (how : settlement) : calm P (settle sock how).
Proof. unfold settle. calm_auto. Qed.

Lemma calm_promise_listener (sock : nat) (how : settlement) :
  calm P (promise_listener sock how).
Proof.
  unfold promise_listener. apply calm_bind; [apply calm_window|]. intros b.
  destruct (promises b !! sock) as [p|]; [|apply calm_ret].
  destruct (listening p); [|apply calm_ret].
  apply calm_bind; [unfold clearTimeout; calm_auto|]. intros ?.
  apply calm_bind; [calm_auto|]. intros ?. apply calm_settle.
Qed.

Lemma calm_reconnect_callback (ctor_ok : bool) : calm P (reconnect_callback ctor_ok).
Proof.
  unfold reconnect_callback. apply calm_bind; [apply calm_connect|]. intros r.
  destruct r; calm_auto.
Qed.

Lemma calm_handleOpen (now : Z) : calm P (handleOpen now).
Proof.
  unfold handleOpen, startPingInterval, setInterval, triggerCallbacks. calm_auto.
Qed.

Lemma calm_forceReconnect (ctor_ok : bool) : calm P (forceReconnect ctor_ok).
Proof.
  unfold forceReconnect, forceReconnect_resume.
  apply calm_bind; [apply calm_log|]. intros ?.
  apply calm_bind; [apply calm_this|]. intros s. destruct (isConnected s).
  - apply calm_bind; [apply calm_disconnect|]. intros ?.
    unfold setTimeout. calm_auto.
  - apply calm_bind; [|intros ?; apply calm_ret].
    apply calm_bind; [calm_auto|]. intros ?. apply calm_connect.
Qed.

Lemma calm_handleClose (event : CloseEvent) :
  abnormal event = false -> calm P (handleClose event).
Proof.
  intros H. unfold handleClose. rewrite H.
  apply calm_bind; [apply calm_log|]. intros ?.
  apply calm_bind; [calm_auto|]. intros ?.
  apply calm_bind; [apply calm_stopPingInterval|]. intros ?.
  unfold triggerCallbacks. calm_auto.
Qed.

Lemma calm_fire_at (h : nat) (now : Z) (ctor_ok : bool) (w : World) :
  (timers (browser w) !! h = Some PingTimer -> forall sock t, P (SendPing sock t) = true) ->
  calm_at P (fire h now ctor_ok) w.
Proof.
  intros Hping. unfold calm_at, fire. rewrite window_bind_run.
  destruct (timers (browser w) !! h) as [[sock| | |]|]; [| | | |apply calm_ret].
  - apply calm_bind; [calm_auto|]. intros ?. apply calm_settle.
  - apply calm_bind; [calm_auto|]. intros ?. apply calm_reconnect_callback.
  - specialize (Hping eq_refl). revert w.
    unfold sendPing, readyState. apply calm_bind; [apply calm_this|]. intros s.
    destruct (ws s); [|apply calm_ret].
    apply calm_bind; [calm_auto|]. intros st.
    destruct st; try apply calm_ret. destruct (isConnected s); [|apply calm_ret].
    apply calm_bind; [apply calm_tell, Hping | intros ?; apply calm_log].
  - unfold forceReconnect_resume. apply calm_bind; [calm_auto|]. intros ?.
    apply calm_bind; [|intros ?; apply calm_ret].
    apply calm_bind; [calm_auto|]. intros ?. apply calm_connect.
Qed.

Lemma calm_fire (h : nat) (now : Z) (ctor_ok : bool) :
  (forall sock t, P (SendPing sock t) = true) -> calm P (fire h now ctor_ok).
Proof. intros Hping w. apply calm_fire_at. intros _. exact Hping. Qed.

Lemma calm_step_untimed (i : input) :
  abnormal_closure i = false -> (forall h now ctor_ok, i <> TimerFires h now ctor_ok) ->
  calm P (step i).
Proof.
  intros Hi Ht. destruct i as [sock now|sock|sock event|sock msg now|h now ok|ok|c r|ok];
    cbn [step].
  - unfold set_readyState. apply calm_bind; [calm_auto|]. intros ?.
    apply calm_bind; [apply calm_handleOpen|]. intros ?. apply calm_promise_listener.
  - apply calm_bind; [apply calm_handleError|]. intros ?. apply calm_promise_listener.
  - unfold set_readyState. apply calm_bind; [calm_auto|]. intros ?.
    now apply calm_handleClose.
  - apply calm_handleMessage.
  - now destruct (Ht h now ok).
  - apply calm_bind; [apply calm_connect|]. intros ?. apply calm_ret.
  - apply calm_bind; [apply calm_disconnect|]. intros ?. apply calm_ret.
  - apply calm_bind; [apply calm_forceReconnect|]. intros ?. apply calm_ret.
Qed.

Lemma calm_step (i : input) :
  (forall sock t, P (SendPing sock t) = true) -> abnormal_closure i = false ->
  calm P (step i).
Proof.
  intros Hping Hi. destruct i as [| | | |h now ok| | |];
    try (apply calm_step_untimed; [exact Hi | discriminate]).
  cbn [step]. now apply calm_fire.
Qed.

End Calm.

Lemma ge_bound (k n : nat) :
  ge (of_nat k) (ToNumber (VNumber (of_nat n))) = negb (k <? n)%nat.
Proof.
  unfold ge, of_nat, of_Z, ToNumber. destruct (k <? n)%nat eqn:E; cbn [negb].
  - apply Nat.ltb_lt in E. apply not_true_iff_false. intros H.
    apply Qle_bool_iff in H. rewrite <- Zle_Qle in H. lia.
  - apply Nat.ltb_ge in E. apply Qle_bool_iff. rewrite <- Zle_Qle. lia.
Qed.

Lemma closed_counts (w : World) :
  totalReconnects (metrics (service (closed w))) = totalReconnects (metrics (service w)) /\
  maxReconnectAttempts (service (closed w)) = maxReconnectAttempts (service w) /\
  reconnectAttempts (service (closed w)) = reconnectAttempts (service w).
Proof.
  unfold closed. rewrite stopPingInterval_run. cbn [service pingInterval set_isConnected].
  destruct (pingInterval (service w)); repeat split.
Qed.

Lemma scheduled_app (a b : list effect) : scheduled (a ++ b) = (scheduled a + scheduled b)%nat.
Proof. unfold scheduled. now rewrite List.filter_app, length_app. Qed.

Lemma scheduled_none (es : list effect) :
  Forall (fun e => negb (schedules_reconnect e) = true) es -> scheduled es = 0%nat.
Proof.
  unfold scheduled. induction 1 as [|e es He _ IH]; [reflexivity|].
  cbn [List.filter]. apply negb_true_iff in He. now rewrite He.
Qed.

Lemma clears_ping_plain (w : World) :
  scheduled (clears_ping w) = 0%nat /\
  Forall (fun e => sends_ping e = false) (clears_ping w).
Proof. unfold clears_ping. destruct (pingInterval (service w)); repeat constructor. Qed.

(** An abnormal closure, step by step: either the attempts are used up and
    nothing is armed, or one more attempt is counted and one timer armed. *)
Lemma step_abnormal_counts (sock : nat) (event : CloseEvent) (w : World) :
  abnormal event = true ->
  let out := step (SocketClose sock event) w in
  let s := service w in
  let s' := service (world_of out) in
  maxReconnectAttempts s' = maxReconnectAttempts s /\
  Forall (fun e => sends_ping e = false) (effects_of out) /\
  ((ge (of_nat (reconnectAttempts s)) (ToNumber (maxReconnectAttempts s)) = true /\
    reconnectAttempts s' = reconnectAttempts s /\
    totalReconnects (metrics s') = totalReconnects (metrics s) /\
    scheduled (effects_of out) = 0%nat) \/
   (ge (of_nat (reconnectAttempts s)) (ToNumber (maxReconnectAttempts s)) = false /\
    reconnectAttempts s' = S (reconnectAttempts s) /\
    totalReconnects (metrics s') = S (totalReconnects (metrics s)) /\
    scheduled (effects_of out) = 1%nat)).
Proof.
  intros Ha. cbv zeta. rewrite step_close_run, handleClose_run, Ha. cbv zeta.
  set (w0 := {| service := service w;
                browser := set_sockets (<[sock:=CLOSED]> (sockets (browser w))) (browser w) |}).
  destruct (closed_counts w0) as (Ct & Cm & Ca). change (service w0) with (service w) in *.
  destruct (clears_ping_plain w0) as [Ps Pp].
  destruct (ge (of_nat (reconnectAttempts (service w)))
               (ToNumber (maxReconnectAttempts (service w)))) eqn:G.
  - rewrite (attemptReconnect_exhausted (closed w0)) by (now rewrite Ca, Cm).
    unfold world_of, effects_of. cbn [fst snd]. split; [exact Cm|]. split.
    + repeat (apply Forall_app; split); auto; repeat constructor.
    + left. rewrite !scheduled_app, Ps. repeat split; auto.
  - rewrite (attemptReconnect_retries (closed w0)) by (now rewrite Ca, Cm).
    unfold world_of, effects_of. cbn [fst snd]. split; [exact Cm|]. split.
    + repeat (apply Forall_app; split); auto; repeat constructor.
    + right. rewrite !scheduled_app, Ps. cbn. rewrite Ca, Ct. repeat split; auto.
Qed.

Lemma step_counts (i : input) (w : World) :
  totalReconnects (metrics (service (world_of (step i w))))
  = (totalReconnects (metrics (service w)) + scheduled (effects_of (step i w)))%nat.
Proof.
  destruct (abnormal_closure i) eqn:Hi.
  - destruct i; try discriminate Hi. cbn [abnormal_closure] in Hi.
    destruct (step_abnormal_counts sock event w Hi) as (_ & _ & [H|H]);
      destruct H as (_ & _ & -> & ->); lia.
  - destruct (calm_step (fun e => negb (schedules_reconnect e))
                (fun e H _ => proj2 (negb_true_iff _) H) i (fun _ _ => eq_refl) Hi w)
      as (Ht & _ & _ & Hf).
    rewrite Ht, (scheduled_none _ Hf). lia.
Qed.

Lemma step_bounded (n : nat) (i : input) (w : World) :
  bounded n w -> bounded n (world_of (step i w)).
Proof.
  intros [Hm Ha]. unfold bounded. destruct (abnormal_closure i) eqn:Hi.
  - destruct i; try discriminate Hi. cbn [abnormal_closure] in Hi.
    destruct (step_abnormal_counts sock event w Hi) as (Em & _ & [H|H]);
      destruct H as (G & Ea & _); rewrite Em, Ea; split; auto.
    rewrite Hm, ge_bound in G. apply negb_false_iff, Nat.ltb_lt in G. lia.
  - destruct (calm_step (fun e => negb (schedules_reconnect e))
                (fun e H _ => proj2 (negb_true_iff _) H) i (fun _ _ => eq_refl) Hi w)
      as (_ & Em & Ea & _).
    rewrite Em. split; [exact Hm | lia].
Qed.

(** X7.  The attempt counter never passes the bound the service was built
    with: whatever happens, in whatever order (sockets opening, failing and
    closing, frames, timers, calls of [connect], [disconnect] and
    [forceReconnect]), a counter that is within a bound of [n] attempts stays
    within it, and the bound itself is never changed. *)
Theorem attempts_stay_bounded (n : nat) (ins : list input) (w : World) :
  bounded n w -> bounded n (world_of (run ins w)).
Proof.
  revert w. induction ins as [|i rest IH]; intros w H; [exact H|].
  rewrite (proj1 (run_cons i rest w)). apply IH. now apply step_bounded.
Qed.

Lemma attempts_stay_bounded_witness :
  bounded 10 initial /\
  bounded 10 (world_of (run ([CallConnect true; SocketOpen 0 100] ++ failed_rounds 12 0)
                            initial)).
Proof.
  assert (H : bounded 10 initial) by (split; [reflexivity | cbn; lia]).
  split; [exact H|]. apply (attempts_stay_bounded 10 _ initial H).
Defined.

(** X8.  [totalReconnects] counts the reconnect timers armed, nothing else:
    over any run of events it grows by exactly the number of reconnect
    timers armed during the run.  It is not the number of reconnections
    that succeeded, it is not put back by a successful open or a forced
    reconnection, and an abnormal closure that finds the attempts used up
    does not count. *)
Theorem totalReconnects_counts_timers (ins : list input) (w : World) :
  totalReconnects (metrics (service (world_of (run ins w))))
  = (totalReconnects (metrics (service w)) + scheduled (effects_of (run ins w)))%nat.
Proof.
  revert w. induction ins as [|i rest IH]; intros w; [cbn; lia|].
  destruct (run_cons i rest w) as [-> ->].
  rewrite IH, step_counts, scheduled_app. lia.
Qed.

(** X9.  A liveness probe goes out only when the ping timer fires while the
    client is marked connected and its current socket is open, and then it
    is the only thing that happens: the probe carries the time of the
    firing and goes to the current socket, and nothing in the client or the
    browser changes.  No other event sends a probe, and the timer sends none
    while the client is disconnected or its socket is not open. *)
Theorem ping_only_when_connected (i : input) (w : World) :
  (Exists (fun e => sends_ping e = true) (effects_of (step i w)) ->
   exists h now ctor_ok sock,
     i = TimerFires h now ctor_ok /\
     timers (browser w) !! h = Some PingTimer /\
     isConnected (service w) = true /\
     ws (service w) = Some sock /\
     sockets (browser w) !! sock = Some OPEN) /\
  (forall h now ctor_ok sock,
     i = TimerFires h now ctor_ok ->
     timers (browser w) !! h = Some PingTimer ->
     isConnected (service w) = true ->
     ws (service w) = Some sock ->
     sockets (browser w) !! sock = Some OPEN ->
     step i w = (tt, w, [SendPing sock now])).
Proof.
  split.
  2: { intros h now ok sock -> Et Hc Hw Hs. cbn [step]. unfold fire.
       rewrite window_bind_run, Et. unfold sendPing, readyState.
       cbv [mbind mret M_bind M_ret bind ret this window tell log level_num LOG_LEVEL
            Nat.ltb Nat.leb]. rewrite Hw. unfold default. rewrite Hs, Hc. reflexivity. }
  intros Hex.
  assert (Hno : forall es, Forall (fun e => negb (sends_ping e) = true) es ->
                           ~ Exists (fun e => sends_ping e = true) es).
  { intros es Hf He. apply Exists_exists in He as (e & Hin & He).
    rewrite Forall_forall in Hf. specialize (Hf e Hin). now rewrite He in Hf. }
  assert (Hord : forall e, schedules_reconnect e = false -> sends_ping e = false ->
                           negb (sends_ping e) = true).
  { intros e _ ->. reflexivity. }
  destruct (abnormal_closure i) eqn:Hi.
  { destruct i; try discriminate Hi. cbn [abnormal_closure] in Hi.
    destruct (step_abnormal_counts sock event w Hi) as (_ & Hf & _).
    exfalso. apply (Hno _ (Forall_impl _ _ _ Hf (fun e H => proj2 (negb_true_iff _) H))).
    exact Hex. }
  destruct i as [| | | |h now ok| | |];
    try (exfalso;
         refine (Hno _ (proj2 (proj2 (proj2 (calm_step_untimed _ Hord _ Hi _ w)))) Hex);
         discriminate).
  destruct (timers (browser w) !! h) as [t|] eqn:Et.
  2: { exfalso. refine (Hno _ (proj2 (proj2 (proj2 (calm_fire_at _ Hord h now ok w _)))) Hex).
       rewrite Et. discriminate. }
  assert (t = PingTimer \/ t <> PingTimer) as [->|Hne]
    by (destruct t; auto; right; discriminate).
  2: { exfalso. refine (Hno _ (proj2 (proj2 (proj2 (calm_fire_at _ Hord h now ok w _)))) Hex).
       rewrite Et. congruence. }
  exists h, now, ok. cbn [step] in *. unfold fire in *. rewrite window_bind_run, Et in *.
  unfold sendPing, readyState in *.
  cbv [mbind mret M_bind M_ret bind ret this window tell log level_num LOG_LEVEL
       Nat.ltb Nat.leb] in *.
  destruct (ws (service w)) as [sock|]; [|inversion Hex].
  exists sock. unfold default in *.
  destruct (sockets (browser w) !! sock) as [[| | |]|]; cbn in Hex |- *;
    try (inversion Hex; fail).
  destruct (isConnected (service w)); cbn in Hex |- *; [|inversion Hex].
  repeat split.
Qed.

Lemma ping_only_when_connected_witness :
  Exists (fun e => sends_ping e = true)
    (effects_of (step (TimerFires 2 500 true) connected_page)) /\
  step (TimerFires 2 500 true) connected_page = (tt, connected_page, [SendPing 0 500]).
Proof.
  assert (H : Exists (fun e => sends_ping e = true)
                (effects_of (step (TimerFires 2 500 true) connected_page))).
  { vm_compute. apply Exists_cons_hd. reflexivity. }
  split; [exact H|].
  destruct (ping_only_when_connected (TimerFires 2 500 true) connected_page) as [Ha Hb].
  destruct (Ha H) as (h & now & ok & sock & E & Et & Hc & Hw & Hs).
  injection E as <- <- <-. injection Hw as <-.
  exact (Hb 2%nat 500 true 0%nat eq_refl Et Hc eq_refl Hs).
Defined.

(** *** Frames *)




(** *** Forced reconnection and the connection timeout *)

Lemma forceReconnect_connected (ctor_ok : bool) (w : World) (sock : nat) :
  isConnected (service w) = true -> ws (service w) = Some sock ->
  let out := step (CallForceReconnect ctor_ok) w in
  let w1 := world_of out in
  isConnected (service w1) = true /\
  ws (service w1) = Some sock /\
  callbacks (service w1) = callbacks (service w) /\
  pingInterval (service w1) = None /\
  timers (browser w1) !! next_handle (browser w) = Some ForceReconnectWait /\
  next_socket (browser w1) = next_socket (browser w) /\
  Forall (fun e => creates_transport e = false /\ schedules_reconnect e = false)
         (effects_of out).
Proof.
  intros Hc Hw. cbv zeta. cbn [step]. unfold forceReconnect, disconnect, ws_close.
  feed_run. rewrite Hc, Hw, Hc, !stopPingInterval_run. destruct w as [s b].
  cbn [service browser] in *.
  destruct (pingInterval s) eqn:Ep, (reconnectTimeout s) eqn:Er; cbn;
    rewrite ?Er, ?Ep; cbn;
    destruct (default CLOSED (sockets b !! sock)); cbn;
    rewrite ?lookup_insert_eq; repeat split; auto; repeat constructor.
Qed.

Lemma force_wait_fires (h : nat) (now : Z) (ctor_ok : bool) (w : World) :
  timers (browser w) !! h = Some ForceReconnectWait ->
  step (TimerFires h now ctor_ok) w =
  let out := connect ctor_ok
               {| service := set_reconnectAttempts 0 (service w);
                  browser := set_timers (delete h (timers (browser w))) (browser w) |} in
  (tt, world_of out, effects_of out).
Proof.
  intros Ht. cbn [step]. unfold fire. rewrite window_bind_run, Ht.
  unfold forceReconnect_resume.
  cbv [mbind mret M_bind M_ret bind ret update update_browser]. cbn [service browser].
  match goal with |- context [connect ctor_ok ?x] =>
    destruct (connect ctor_ok x) as [[r w2] e2] end.
  unfold world_of, effects_of. cbn [fst snd app]. now rewrite app_nil_r.
Qed.

Lemma run_three (a b c : input) (w : World) :
  let w1 := world_of (step a w) in
  let w2 := world_of (step b w1) in
  world_of (run [a; b; c] w) = world_of (step c w2) /\
  effects_of (run [a; b; c] w)
  = effects_of (step a w) ++ effects_of (step b w1) ++ effects_of (step c w2).
Proof.
  cbv zeta. destruct (run_cons a [b; c] w) as [-> ->].
  destruct (run_cons b [c] (world_of (step a w))) as [-> ->].
  destruct (run_cons c [] (world_of (step b (world_of (step a w))))) as [-> ->].
  cbn [run]. unfold effects_of at 4. unfold world_of at 1. cbn [fst snd].
  now rewrite app_nil_r.
Qed.

Lemma connect_disconnected (w : World) :
  isConnected (service w) = false ->
  let out := connect true w in
  ws (service (world_of out)) = Some (next_socket (browser w)) /\
  reconnectAttempts (service (world_of out)) = reconnectAttempts (service w) /\
  isConnected (service (world_of out)) = false /\
  sockets (browser (world_of out)) !! next_socket (browser w) = Some CONNECTING /\
  Exists (fun e => creates_transport e = true) (effects_of out).
Proof.
  intros H. cbv zeta. unfold connect. feed_run. rewrite H. cbn.
  rewrite lookup_insert_eq. repeat split; auto.
Qed.

Lemma closed_unpinged (w : World) :
  pingInterval (service w) = None ->
  closed w = {| service := set_isConnected false (service w); browser := browser w |} /\
  clears_ping w = [].
Proof.
  intros H. unfold closed, clears_ping. rewrite stopPingInterval_run.
  cbn [service pingInterval set_isConnected]. now rewrite H.
Qed.

(** X11.  [forceReconnect()] on a connected client closes the socket and
    then sleeps for one second before it connects again; whether it
    reconnects depends on which comes first, the end of the sleep or the
    close event of the socket.  When the sleep ends first, the client still
    counts as connected, [connect()] answers [true] without creating a
    transport, and the close event that follows leaves the client
    disconnected with no transport created and no reconnection scheduled.
    When the close event comes first, the end of the sleep creates a new
    transport with the attempt counter at 0. *)
Theorem forceReconnect_races_close (w : World) (sock : nat) (now : Z)
        (ctor_ok retry_ok : bool) (event : CloseEvent) :
  isConnected (service w) = true ->
  ws (service w) = Some sock ->
  abnormal event = false ->
  let h := next_handle (browser w) in
  let asleep := world_of (step (CallForceReconnect ctor_ok) w) in
  let early := run [CallForceReconnect ctor_ok; TimerFires h now retry_ok;
                    SocketClose sock event] w in
  let late := run [CallForceReconnect ctor_ok; SocketClose sock event;
                   TimerFires h now true] w in
  (result_of (forceReconnect_resume retry_ok asleep) = Returned true /\
   isConnected (service (world_of early)) = false /\
   Forall (fun e => creates_transport e = false /\ schedules_reconnect e = false)
          (effects_of early)) /\
  (Exists (fun e => creates_transport e = true) (effects_of late) /\
   reconnectAttempts (service (world_of late)) = 0%nat /\
   ws (service (world_of late)) = Some (next_socket (browser w))).
Proof.
  intros Hc Hw Ha. cbv zeta.
  destruct (forceReconnect_connected ctor_ok w sock Hc Hw)
    as (Hc1 & Hw1 & Hcb1 & Hp1 & Ht1 & Hn1 & He1). cbv zeta in *.
  destruct (run_three (CallForceReconnect ctor_ok)
              (TimerFires (next_handle (browser w)) now retry_ok)
              (SocketClose sock event) w) as [-> ->].
  destruct (run_three (CallForceReconnect ctor_ok) (SocketClose sock event)
              (TimerFires (next_handle (browser w)) now true) w) as [-> ->].
  set (w1 := world_of (step (CallForceReconnect ctor_ok) w)) in *.
  assert (Econ : forall ok x,
            isConnected (service x) = true ->
            connect ok x = (Returned true, x, [Console WARN "Ya esta conectado"])).
  { intros ok x Hx. unfold connect. feed_run. now rewrite Hx. }
  assert (Eclose : forall x, step (SocketClose sock event) x
            = (tt, closed {| service := service x;
                             browser := set_sockets (<[sock:=CLOSED]> (sockets (browser x)))
                                          (browser x) |},
               [Console INFO "Conexion cerrada:"]
               ++ clears_ping {| service := service x;
                                 browser := set_sockets (<[sock:=CLOSED]> (sockets (browser x)))
                                              (browser x) |}
               ++ [Callbacks onDisconnected
                     (DisconnectedInfo (code event) (reason event) (wasClean event))
                     (callbacks (service x) onDisconnected)])).
  { intros x. now rewrite step_close_run, handleClose_quiet_close by exact Ha. }
  split; [split; [|split]|split; [|split]].
  - unfold forceReconnect_resume.
    cbv [mbind mret M_bind M_ret bind ret update]. rewrite Econ by exact Hc1. reflexivity.
  - rewrite Eclose. unfold world_of at 1. cbn [fst snd]. apply closed_fields.
  - apply Forall_app. split; [exact He1|]. apply Forall_app. split.
    + rewrite (force_wait_fires _ _ _ _ Ht1). cbv zeta. rewrite Econ by exact Hc1.
      repeat constructor.
    + rewrite Eclose. unfold effects_of. cbn [snd]. unfold clears_ping.
      match goal with |- context [pingInterval ?s] => destruct (pingInterval s) end;
        repeat constructor.
  - rewrite !Exists_app. right. right. rewrite Eclose. unfold world_of at 1. cbn [fst snd].
    match goal with |- context [closed ?x] => destruct (closed_unpinged x Hp1) as [-> _] end.
    rewrite force_wait_fires by exact Ht1. cbv zeta. unfold effects_of at 1. cbn [snd].
    now apply connect_disconnected.
  - rewrite Eclose. unfold world_of at 2. cbn [fst snd].
    match goal with |- context [closed ?x] => destruct (closed_unpinged x Hp1) as [-> _] end.
    rewrite force_wait_fires by exact Ht1. cbv zeta. unfold world_of at 1. cbn [fst snd].
    match goal with |- context [connect true ?x] =>
      now rewrite (proj1 (proj2 (connect_disconnected x eq_refl))) end.
  - rewrite Eclose. unfold world_of at 2. cbn [fst snd].
    match goal with |- context [closed ?x] => destruct (closed_unpinged x Hp1) as [-> _] end.
    rewrite force_wait_fires by exact Ht1. cbv zeta. unfold world_of at 1. cbn [fst snd].
    match goal with |- context [connect true ?x] =>
      rewrite (proj1 (connect_disconnected x eq_refl)) end.
    cbn. now rewrite Hn1.
Qed.

Lemma forceReconnect_races_close_witness :
  isConnected
    (service (world_of (run [CallForceReconnect true; TimerFires 3 5000 true;
                             SocketClose 0 {| code := 1000; reason := "Reconexion manual";
                                              wasClean := true |}] connected_page)))
  = false /\
  Exists (fun e => creates_transport e = true)
    (effects_of (run [CallForceReconnect true;
                      SocketClose 0 {| code := 1000; reason := "Reconexion manual";
                                       wasClean := true |};
                      TimerFires 3 5000 true] connected_page)).
Proof.
  destruct (forceReconnect_races_close connected_page 0 5000 true true
              {| code := 1000; reason := "Reconexion manual"; wasClean := true |}
              eq_refl eq_refl eq_refl) as [(_ & H1 & _) (H2 & _)].
  split; assumption.
Defined.

Lemma settle_run (sock : nat) (how : settlement) (w : World) :
  let out := settle sock how w in
  service (world_of out) = service w /\
  sockets (browser (world_of out)) = sockets (browser w) /\
  timers (browser (world_of out)) = timers (browser w) /\
  next_handle (browser (world_of out)) = next_handle (browser w) /\
  (forall p, promises (browser (world_of out)) !! sock = Some p -> settled p = true) /\
  Forall (fun e => closes_socket e = false /\ creates_transport e = false)
         (effects_of out) /\
  (forall p, promises (browser w) !! sock = Some p -> settled p = false ->
             List.filter settles (effects_of out) = [Settle sock how]) /\
  (forall p, promises (browser w) !! sock = Some p -> settled p = true ->
             effects_of out = []).
Proof.
  cbv zeta. unfold settle. rewrite window_bind_run.
  destruct (promises (browser w) !! sock) as [p|] eqn:Ep.
  2: { cbn. rewrite Ep. repeat split; auto; discriminate. }
  destruct (settled p) eqn:Es.
  { cbn. rewrite Ep. repeat split; auto; try congruence. }
  feed_run. destruct how as [b|why]; [|destruct (awaited_by_reconnect p)]; cbn;
    rewrite lookup_insert_eq; repeat split; auto; try congruence;
    try (intros ? [= <-]; reflexivity); repeat constructor.
Qed.

Lemma promise_listener_settled (sock : nat) (how : settlement) (w : World) :
  (forall p, promises (browser w) !! sock = Some p -> settled p = true) ->
  let out := promise_listener sock how w in
  service (world_of out) = service w /\
  sockets (browser (world_of out)) = sockets (browser w) /\
  Forall (fun e => settles e = false) (effects_of out).
Proof.
  intros Hs. cbv zeta. unfold promise_listener. rewrite window_bind_run.
  destruct (promises (browser w) !! sock) as [p|] eqn:Ep; [|repeat split; constructor].
  specialize (Hs p eq_refl).
  destruct (listening p); [|repeat split; constructor].
  unfold settle. feed_run. cbn. rewrite lookup_insert_eq. cbn. rewrite Hs.
  repeat split; repeat constructor.
Qed.

Lemma handleOpen_run (now : Z) (w : World) :
  let out := handleOpen now w in
  isConnected (service (world_of out)) = true /\
  reconnectAttempts (service (world_of out)) = 0%nat /\
  ws (service (world_of out)) = ws (service w) /\
  pingInterval (service (world_of out)) = Some (next_handle (browser w)) /\
  timers (browser (world_of out)) = <[next_handle (browser w) := PingTimer]> (timers (browser w)) /\
  promises (browser (world_of out)) = promises (browser w) /\
  sockets (browser (world_of out)) = sockets (browser w) /\
  effects_of out =
    [Console INFO "Conectado al servidor";
     SetInterval (next_handle (browser w)) PingTimer
       (get (TIMEOUTS APP_CONFIG) "WS_PING_INTERVAL");
     Callbacks onConnected (ConnectedInfo now WEBSOCKET_URL)
       (callbacks (service w) onConnected)].
Proof.
  cbv zeta. unfold handleOpen, startPingInterval. feed_run. cbn. repeat split.
Qed.

Lemma step_open_run (sock : nat) (now : Z) (w : World) :
  step (SocketOpen sock now) w =
  let w0 := {| service := service w;
               browser := set_sockets (<[sock := OPEN]> (sockets (browser w))) (browser w) |} in
  let opened := handleOpen now w0 in
  let out := promise_listener sock (ResolvedWith true) (world_of opened) in
  (tt, world_of out, effects_of opened ++ effects_of out).
Proof.
  cbn [step]. unfold set_readyState. rewrite bind_run. unfold update_browser.
  cbv beta iota zeta. rewrite bind_run.
  match goal with |- context [handleOpen now ?x] =>
    destruct (handleOpen now x) as [[[] w1] e1] end.
  unfold world_of, effects_of. cbn [fst snd app].
  now destruct (promise_listener sock (ResolvedWith true) w1) as [[[] w2] e2].
Qed.

(** X12.  When the connection timeout of a [connect()] fires, the promise
    is rejected and that is all: the socket is not closed and the service
    is left as it was.  So the socket can still open afterwards, and when
    it does the client becomes connected, starts its probe and tells its
    listeners so, while the caller of [connect()] has been told that the
    connection failed and hears nothing more. *)
Theorem connect_timeout_keeps_transport (w : World) (h sock : nat) (now later : Z)
        (ctor_ok : bool) :
  timers (browser w) !! h = Some (ConnectTimeout sock) ->
  let out := step (TimerFires h now ctor_ok) w in
  let late := step (SocketOpen sock later) (world_of out) in
  service (world_of out) = service w /\
  sockets (browser (world_of out)) = sockets (browser w) /\
  timers (browser (world_of out)) = delete h (timers (browser w)) /\
  Forall (fun e => closes_socket e = false /\ creates_transport e = false)
         (effects_of out) /\
  (forall p, promises (browser w) !! sock = Some p -> settled p = false ->
     List.filter settles (effects_of out)
     = [Settle sock (RejectedWith "Timeout de conexion WebSocket")]) /\
  isConnected (service (world_of late)) = true /\
  sockets (browser (world_of late)) !! sock = Some OPEN /\
  Exists (fun e => announces_connected e = true) (effects_of late) /\
  Forall (fun e => settles e = false) (effects_of late).
Proof.
  intros Ht. cbv zeta.
  assert (E : step (TimerFires h now ctor_ok) w
              = settle sock (RejectedWith "Timeout de conexion WebSocket")
                  {| service := service w;
                     browser := set_timers (delete h (timers (browser w))) (browser w) |}).
  { cbn [step]. unfold fire. rewrite window_bind_run, Ht, bind_run.
    unfold update_browser. cbv beta iota zeta.
    match goal with |- context [settle sock ?how ?x] =>
      now destruct (settle sock how x) as [[[] w2] e2] end. }
  rewrite E.
  match goal with |- context [settle sock ?how ?x] =>
    destruct (settle_run sock how x) as (Hs & Hk & Hti & Hn & Hp & He & Hf & _);
    set (out := settle sock how x) in * end.
  cbv zeta in *. cbn [service browser timers sockets promises set_timers] in *.
  split; [exact Hs|]. split; [exact Hk|]. split; [exact Hti|]. split; [exact He|].
  split; [exact Hf|].
  set (w1 := world_of out) in *. rewrite step_open_run. cbv zeta.
  set (w0 := {| service := service w1;
                browser := set_sockets (<[sock := OPEN]> (sockets (browser w1))) (browser w1) |}).
  destruct (handleOpen_run later w0) as (Oc & _ & _ & _ & _ & Op & Ok & Oe).
  cbv zeta in *. set (w2 := world_of (handleOpen later w0)) in *.
  destruct (promise_listener_settled sock (ResolvedWith true) w2) as (Ls & Lk & Le).
  { rewrite Op. exact Hp. }
  assert (Hopen : sockets (browser w2) !! sock = Some OPEN).
  { rewrite Ok. apply lookup_insert_eq. }
  cbv zeta in *. set (fin := promise_listener sock (ResolvedWith true) w2) in *.
  clearbody fin w2 w0 w1 out. unfold world_of, effects_of in *. cbn [fst snd] in *.
  split; [now rewrite Ls|]. split.
  - now rewrite Lk.
  - split.
    + apply Exists_app. left. rewrite Oe.
      apply Exists_cons_tl, Exists_cons_tl, Exists_cons_hd. reflexivity.
    + apply Forall_app. split; [|exact Le]. rewrite Oe. repeat constructor.
Qed.

Lemma connect_timeout_keeps_transport_witness :
  let pending := world_of (step (CallConnect true) initial) in
  let out := step (TimerFires 1 10000 true) pending in
  service (world_of out) = service pending /\
  effects_of out = [Settle 0 (RejectedWith "Timeout de conexion WebSocket")] /\
  isConnected (service (world_of (step (SocketOpen 0 10500) (world_of out)))) = true.
Proof.
  cbv zeta.
  destruct (connect_timeout_keeps_transport (world_of (step (CallConnect true) initial))
              1 0 10000 10500 true eq_refl) as (H1 & _ & _ & _ & _ & H2 & _).
  split; [exact H1|]. split; [reflexivity | exact H2].
Defined.

(** *** Coming back after a drop *)

Lemma filter_events_clears_ping (w : World) : List.filter emits_event (clears_ping w) = [].
Proof. unfold clears_ping. now destruct (pingInterval (service w)). Qed.

Lemma close_then_retry (sock : nat) (event : CloseEvent) (w : World) :
  abnormal event = true ->
  ge (of_nat (reconnectAttempts (service w))) (ToNumber (maxReconnectAttempts (service w)))
  = false ->
  let out := step (SocketClose sock event) w in
  let w1 := world_of out in
  let n := S (reconnectAttempts (service w)) in
  isConnected (service w1) = false /\
  reconnectAttempts (service w1) = n /\
  callbacks (service w1) = callbacks (service w) /\
  timers (browser w1) !! next_handle (browser w) = Some ReconnectTimer /\
  next_handle (browser w1) = S (next_handle (browser w)) /\
  next_socket (browser w1) = next_socket (browser w) /\
  List.filter emits_event (effects_of out) =
    [Callbacks onDisconnected
       (DisconnectedInfo (code event) (reason event) (wasClean event))
       (callbacks (service w) onDisconnected);
     Callbacks onReconnecting
       (ReconnectingInfo n (maxReconnectAttempts (service w)) (reconnect_delay n))
       (callbacks (service w) onReconnecting)] /\
  Forall (fun e => creates_transport e = false /\ settles e = false) (effects_of out).
Proof.
  intros Ha G. cbv zeta. rewrite step_close_run, handleClose_run, Ha. cbv zeta.
  set (w0 := {| service := service w;
                browser := set_sockets (<[sock:=CLOSED]> (sockets (browser w))) (browser w) |}).
  destruct (closed_fields w0) as (Ca & Cm & _ & Cc & Ci & Cn & _).
  change (service w0) with (service w) in *.
  rewrite (attemptReconnect_retries (closed w0)) by (now rewrite Ca, Cm).
  cbv zeta. unfold world_of, effects_of. cbn [fst snd service browser].
  cbn [isConnected reconnectAttempts callbacks set_reconnectTimeout set_metrics
       set_reconnectAttempts timers next_handle next_socket set_next_handle set_timers].
  rewrite Ci, Ca, Cc, Cm, Cn. cbn [next_handle browser w0 set_sockets].
  rewrite lookup_insert_eq.
  assert (Hs : next_socket (browser (closed w0)) = next_socket (browser w)).
  { unfold closed, w0. rewrite stopPingInterval_run. cbn.
    destruct (pingInterval (service w)); reflexivity. }
  repeat split; auto.
  - rewrite !List.filter_app, filter_events_clears_ping. reflexivity.
  - repeat (apply Forall_app; split); repeat constructor.
    unfold clears_ping. destruct (pingInterval (service w0)); repeat constructor.
Qed.

Lemma retry_fires (h : nat) (now : Z) (w : World) :
  timers (browser w) !! h = Some ReconnectTimer ->
  isConnected (service w) = false ->
  let out := step (TimerFires h now true) w in
  let w2 := world_of out in
  let sock := next_socket (browser w) in
  ws (service w2) = Some sock /\
  isConnected (service w2) = false /\
  callbacks (service w2) = callbacks (service w) /\
  promises (browser w2) !! sock
  = Some {| timeout_handle := next_handle (browser w); awaited_by_reconnect := true;
            listening := true; settled := false |} /\
  List.filter emits_event (effects_of out) =
    [Callbacks onReconnecting (ConnectAttempt (reconnectAttempts (service w) + 1))
       (callbacks (service w) onReconnecting)] /\
  List.filter creates_transport (effects_of out) = [NewWebSocket WEBSOCKET_URL sock] /\
  Forall (fun e => settles e = false) (effects_of out).
Proof.
  intros Ht Hc. cbv zeta. cbn [step]. unfold fire. rewrite window_bind_run, Ht.
  unfold reconnect_callback, connect. feed_run. cbn. rewrite Hc. cbn.
  rewrite !lookup_insert_eq. cbn. rewrite lookup_insert_eq.
  repeat split; auto. repeat constructor.
Qed.

Lemma open_resolves (sock : nat) (now : Z) (w : World) (p : connecting) :
  promises (browser w) !! sock = Some p -> listening p = true -> settled p = false ->
  let out := step (SocketOpen sock now) w in
  let w3 := world_of out in
  isConnected (service w3) = true /\
  reconnectAttempts (service w3) = 0%nat /\
  ws (service w3) = ws (service w) /\
  sockets (browser w3) !! sock = Some OPEN /\
  pingInterval (service w3) = Some (next_handle (browser w)) /\
  List.filter emits_event (effects_of out) =
    [Callbacks onConnected (ConnectedInfo now WEBSOCKET_URL)
       (callbacks (service w) onConnected)] /\
  List.filter settles (effects_of out) = [Settle sock (ResolvedWith true)] /\
  Forall (fun e => creates_transport e = false) (effects_of out).
Proof.
  intros Hp Hl Hs. cbv zeta. cbn [step].
  unfold handleOpen, startPingInterval, promise_listener, settle. feed_run. cbn.
  rewrite Hp, Hl. cbn. rewrite lookup_insert_eq. cbn. rewrite Hs. cbn.
  rewrite lookup_insert_eq.
  repeat split; auto; try (repeat constructor; fail).
Qed.

(** X13.  A dropped connection comes back on the first retry that
    succeeds.  When a socket closes abnormally while attempts are left, the
    reconnect timer that the closure arms creates a new transport when it
    fires, and when that transport opens the client is connected again on
    the new socket, with the attempt counter back at 0, a fresh ping timer
    and the promise of the retry resolved.  On the way the listeners hear,
    in this order and nothing else: disconnected, reconnecting as attempt
    [n], reconnecting as attempt [n + 1], connected, where [n] is the
    number of the retry.  The same retry is thus announced under two
    different numbers, once by [attemptReconnect] and once by [connect]. *)
Theorem reconnects_after_drop (w : World) (sock : nat) (event : CloseEvent)
        (now later : Z) :
  abnormal event = true ->
  ge (of_nat (reconnectAttempts (service w))) (ToNumber (maxReconnectAttempts (service w)))
  = false ->
  let n := S (reconnectAttempts (service w)) in
  let retry := next_socket (browser w) in
  let out := run [SocketClose sock event; TimerFires (next_handle (browser w)) now true;
                  SocketOpen retry later] w in
  isConnected (service (world_of out)) = true /\
  reconnectAttempts (service (world_of out)) = 0%nat /\
  ws (service (world_of out)) = Some retry /\
  sockets (browser (world_of out)) !! retry = Some OPEN /\
  pingInterval (service (world_of out)) = Some (S (S (next_handle (browser w)))) /\
  List.filter emits_event (effects_of out) =
    [Callbacks onDisconnected
       (DisconnectedInfo (code event) (reason event) (wasClean event))
       (callbacks (service w) onDisconnected);
     Callbacks onReconnecting
       (ReconnectingInfo n (maxReconnectAttempts (service w)) (reconnect_delay n))
       (callbacks (service w) onReconnecting);
     Callbacks onReconnecting (ConnectAttempt (n + 1))
       (callbacks (service w) onReconnecting);
     Callbacks onConnected (ConnectedInfo later WEBSOCKET_URL)
       (callbacks (service w) onConnected)] /\
  List.filter creates_transport (effects_of out) = [NewWebSocket WEBSOCKET_URL retry] /\
  List.filter settles (effects_of out) = [Settle retry (ResolvedWith true)].
Proof.
  intros Ha G. cbv zeta.
  destruct (run_three (SocketClose sock event) (TimerFires (next_handle (browser w)) now true)
              (SocketOpen (next_socket (browser w)) later) w) as [-> ->].
  destruct (close_then_retry sock event w Ha G) as (A1 & A2 & A3 & A4 & A5 & A6 & A7 & A8).
  cbv zeta in *. set (w1 := world_of (step (SocketClose sock event) w)) in *.
  destruct (retry_fires (next_handle (browser w)) now w1 A4 A1)
    as (B1 & B2 & B3 & B4 & B5 & B6 & B7).
  cbv zeta in *. rewrite A6, A2, A3 in *.
  set (w2 := world_of (step (TimerFires (next_handle (browser w)) now true) w1)) in *.
  destruct (open_resolves (next_socket (browser w)) later w2 _ B4 eq_refl eq_refl)
    as (C1 & C2 & C3 & C4 & C5 & C6 & C7 & C8).
  cbv zeta in *. rewrite B3 in *.
  assert (Hn : next_handle (browser w2) = S (S (next_handle (browser w)))).
  { unfold w2. cbn [step]. unfold fire. rewrite window_bind_run, A4.
    unfold reconnect_callback, connect. feed_run. cbn. rewrite A1. cbn.
    rewrite lookup_insert_eq. cbn. now rewrite A5. }
  split; [exact C1|]. split; [exact C2|]. split; [now rewrite C3|]. split; [exact C4|].
  split; [now rewrite C5, Hn|].
  rewrite !List.filter_app, A7, B5, B6, C6, C7.
  assert (F1 : forall es, Forall (fun e => creates_transport e = false /\ settles e = false) es ->
                          List.filter creates_transport es = [] /\ List.filter settles es = []).
  { clear. induction 1 as [|e es [H1 H2] _ [IH1 IH2]]; [split; reflexivity|].
    cbn [List.filter]. rewrite H1, H2. split; assumption. }
  assert (F2 : forall (f : effect -> bool) es, Forall (fun e => f e = false) es ->
                          List.filter f es = []).
  { clear. intros f es. induction 1 as [|e es H1 _ IH]; [reflexivity|].
    cbn [List.filter]. rewrite H1. exact IH. }
  destruct (F1 _ A8) as [-> ->]. rewrite (F2 _ _ B7), (F2 _ _ C8).
  cbn [app]. rewrite Nat.add_1_r. split; [reflexivity|]. split; reflexivity.
Qed.

Lemma reconnects_after_drop_witness :
  let out := run [SocketClose 0 dropped; TimerFires 3 0 true; SocketOpen 1 200]
                 connected_page in
  isConnected (service (world_of out)) = true /\
  reconnectAttempts (service (world_of out)) = 0%nat /\
  ws (service (world_of out)) = Some 1%nat.
Proof.
  cbv zeta.
  destruct (reconnects_after_drop connected_page 0 dropped 0 200 eq_refl eq_refl)
    as (H1 & H2 & H3 & _).
  split; [exact H1|]. split; [exact H2 | exact H3].
Defined.

(** *** Two opens in a row *)

(** X24.  A second open leaks the ping timer of the first.  [handleOpen]
    starts a new ping interval and overwrites the handle of the one that is
    running, so when the connection is closed afterwards only the new
    interval is cleared: the old one keeps running, and no field of the
    service holds its handle any more. *)
Theorem second_open_leaks_ping_timer (w : World) (h : nat) (now : Z) :
  pingInterval (service w) = Some h ->
  timers (browser w) !! h = Some PingTimer ->
  h <> next_handle (browser w) ->
  let opened := world_of (handleOpen now w) in
  let shut := closed opened in
  pingInterval (service opened) = Some (next_handle (browser w)) /\
  timers (browser opened) !! h = Some PingTimer /\
  timers (browser opened) !! next_handle (browser w) = Some PingTimer /\
  pingInterval (service shut) = None /\
  reconnectTimeout (service shut) = reconnectTimeout (service w) /\
  timers (browser shut) !! next_handle (browser w) = None /\
  timers (browser shut) !! h = Some PingTimer.
Proof.
  intros Hp Ht Hne. cbv zeta.
  destruct (handleOpen_run now w) as (_ & _ & _ & Op & Oti & _ & _ & _). cbv zeta in *.
  set (opened := world_of (handleOpen now w)) in *.
  unfold closed. rewrite stopPingInterval_run.
  cbn [service browser pingInterval set_isConnected]. rewrite Op.
  cbn [service browser pingInterval reconnectTimeout set_pingInterval set_isConnected
       timers set_timers].
  rewrite Oti.
  split; [reflexivity|]. split; [now rewrite lookup_insert_ne by congruence|].
  split; [apply lookup_insert_eq|]. split; [reflexivity|]. split.
  - unfold opened, handleOpen, startPingInterval.
    cbv [mbind mret M_bind M_ret bind ret this window tell update update_browser log
         level_num LOG_LEVEL Nat.ltb Nat.leb triggerCallbacks setInterval]. reflexivity.
  - unfold world_of. cbn [fst snd browser timers set_timers].
    split; [apply lookup_delete_eq|].
    rewrite lookup_delete_ne by congruence. now rewrite lookup_insert_ne by congruence.
Qed.

Lemma second_open_leaks_ping_timer_witness :
  let twice := world_of (run [CallConnect true; CallConnect true; SocketOpen 0 100]
                             initial) in
  pingInterval (service twice) = Some 3%nat /\
  timers (browser (closed (world_of (handleOpen 110 twice)))) !! 3%nat = Some PingTimer.
Proof.
  cbv zeta.
  assert (Hp : pingInterval
                 (service (world_of (run [CallConnect true; CallConnect true;
                                          SocketOpen 0 100] initial))) = Some 3%nat)
    by (vm_compute; reflexivity).
  split; [exact Hp|].
  refine (proj2 (proj2 (proj2 (proj2 (proj2 (proj2
            (second_open_leaks_ping_timer _ 3 110 Hp _ _))))))).
  - vm_compute. reflexivity.
  - vm_compute. discriminate.
Defined.

End FeedTraces.

(** ** The polling client over whole calls *)

Section PollingTraces.
Import API.

Ltac api_run :=
  cbv [mbind mret API.M_bind API.M_ret API.bind API.ret API.this API.tell API.update
       API.log API.level_num API.LOG_LEVEL Nat.ltb Nat.leb
       API.count_request API.count_success API.count_error API.updateResponseTime].

Ltac api_step :=
  cbv [mbind mret API.M_bind API.M_ret API.bind API.ret API.this API.tell API.update
       API.level_num API.LOG_LEVEL
       API.count_request API.count_success API.count_error API.updateResponseTime].

(** The cache [setCache] leaves behind. *)
Lemma setCache_cache (key : string) (d : Envelope) (now : Z) (s : APIService) :
  let c := <[key := {| entry_data := d; entry_timestamp := now |}]> (cache s) in
  cache (state_of (setCache key d now s))
  = if (50 <? size c)%nat
    then filter (fun kv => expired now (cacheTimeout s) kv.2 = false) c
    else c.
Proof.
  cbv zeta. unfold setCache, cleanupCache, API.log, state_of. api_step. simpl.
  match goal with |- context [(50 <? ?n)%nat] => destruct (50 <? n)%nat end; simpl;
    [|reflexivity].
  match goal with |- context [(0 <? ?n)%nat] => destruct (0 <? n)%nat end; reflexivity.
Qed.

Lemma request_catch_cache (e : js_error) (s : APIService) :
  cache (state_of (request_catch e s)) = cache s.
Proof.
  unfold request_catch. api_run. cbn.
  destruct (String.eqb (name e) "AbortError"); reflexivity.
Qed.

Lemma request_end_cache (ctx : in_flight) (res : fetch_result) (s : APIService) :
  let out := request_end ctx res s in
  match result_of out with
  | Rejected _ => cache (state_of out) = cache s
  | Fulfilled d =>
      exists arrived status statusText stored,
        res = Response arrived true status statusText (Body d) stored /\
        success d = true /\
        cache (state_of out)
        = if safe ctx
          then let c := <[cacheKey ctx := {| entry_data := d; entry_timestamp := stored |}]>
                          (cache s) in
               if (50 <? size c)%nat
               then filter (fun kv => expired stored (cacheTimeout s) kv.2 = false) c
               else c
          else cache s
  end.
Proof.
  cbv zeta.
  unfold request_end, request_catch, setCache, cleanupCache, API.log, result_of, state_of.
  destruct res as [why|arrived ok status statusText content stored].
  - api_step. simpl. destruct (String.eqb (name why) "AbortError"); reflexivity.
  - destruct ok;
      [destruct content as [| |d];
         [| |destruct (success d) eqn:Hd; [destruct (safe ctx)|]] |];
      api_step; simpl; auto.
    + match goal with |- context [(50 <? ?n)%nat] => destruct (50 <? n)%nat eqn:E end; simpl;
        [match goal with |- context [(0 <? ?n)%nat] => destruct (0 <? n)%nat end; simpl|];
        exists arrived, status, statusText, stored; repeat split; auto;
        simpl in E; now rewrite E.
    + exists arrived, status, statusText, stored. repeat split; auto.
Qed.

Lemma request_end_config (ctx : in_flight) (res : fetch_result) (s : APIService) :
  baseUrl (state_of (request_end ctx res s)) = baseUrl s /\
  cacheTimeout (state_of (request_end ctx res s)) = cacheTimeout s /\
  timeout (state_of (request_end ctx res s)) = timeout s.
Proof.
  unfold request_end, request_catch, setCache, cleanupCache, API.log, state_of.
  destruct res as [why|arrived ok status statusText content stored].
  - api_step. simpl. destruct (String.eqb (name why) "AbortError"); repeat split.
  - destruct ok;
      [destruct content as [| |d];
         [| |destruct (success d) eqn:Hd; [destruct (safe ctx)|]] |];
      api_step; simpl; auto.
    match goal with |- context [(50 <? ?n)%nat] => destruct (50 <? n)%nat end; simpl;
      [match goal with |- context [(0 <? ?n)%nat] => destruct (0 <? n)%nat end; simpl|];
      repeat split.
Qed.

Lemma request_end_succeeds (ctx : in_flight) (arrived stored : Z) (status statusText : string)
      (d : Envelope) (s : APIService) :
  success d = true ->
  result_of (request_end ctx (Response arrived true status statusText (Body d) stored) s)
  = Fulfilled d.
Proof.
  intros Hd. unfold request_end, setCache, cleanupCache, API.log, result_of.
  rewrite Hd. api_step. simpl. destruct (safe ctx); simpl; [|reflexivity].
  match goal with |- context [(50 <? ?n)%nat] => destruct (50 <? n)%nat end; simpl;
    [|reflexivity].
  match goal with |- context [(0 <? ?n)%nat] => destruct (0 <? n)%nat end; reflexivity.
Qed.

(** What one call of [request] does, case by case. *)
Lemma request_cases (endpoint : string) (o : options) (now : Z) (res : fetch_result)
      (s : APIService) :
  let key := cache_key o (full_url s endpoint) in
  let out := request endpoint o now res s in
  let s1 := state_of (count_request now s) in
  (exists e, is_get o = true /\ cache s !! key = Some e /\
             expired now (cacheTimeout s) e = false /\
             out = (Fulfilled (entry_data e), s1, [])) \/
  (exists ctx s1',
     (is_get o = false \/ cache s !! key = None \/
      exists e, cache s !! key = Some e /\ expired now (cacheTimeout s) e = true) /\
     (cache s1' = cache s \/
      (is_get o = true /\ cache s1' = delete key (cache s) /\
       exists e, cache s !! key = Some e /\ expired now (cacheTimeout s) e = true)) /\
     metrics s1' = metrics s1 /\ baseUrl s1' = baseUrl s /\
     cacheTimeout s1' = cacheTimeout s /\
     cacheKey ctx = key /\ safe ctx = is_get o /\ startTime ctx = now /\
     result_of out = result_of (request_end ctx res s1') /\
     state_of out = state_of (request_end ctx res s1') /\
     effects_of out
     = [SetAbortTimer (timeout s); Fetch (full_url s endpoint) (method o)]
       ++ effects_of (request_end ctx res s1')).
Proof.
  cbv zeta. rewrite request_run, request_begin_run. cbv zeta.
  set (key := cache_key o (full_url s endpoint)).
  set (s1 := state_of (count_request now s)).
  set (ctx := {| startTime := now; url := full_url s endpoint; cacheKey := key;
                 safe := is_get o |}).
  destruct (is_get o) eqn:Hg.
  - destruct (cache s !! key) as [e|] eqn:El.
    + destruct (expired now (cacheTimeout s) e) eqn:Ex.
      * right. exists ctx, (set_cache (delete key (cache s)) s1).
        split; [right; right; eauto|].
        split; [right; split; [reflexivity|split; [reflexivity|eauto]]|].
        repeat split.
      * left. exists e. repeat split; auto.
    + right. exists ctx, s1. split; [right; left; reflexivity|].
      split; [left; reflexivity|]. repeat split.
  - right. exists ctx, s1. split; [left; reflexivity|].
    split; [left; reflexivity|]. repeat split.
Qed.

(** X14.  A request whose method is not GET never touches the cache: it
    goes to the network exactly once, whatever the cache holds under its
    key, and whether it succeeds or fails the cache afterwards is the cache
    before. *)
Theorem non_get_requests_bypass_cache (endpoint : string) (o : options) (now : Z)
        (res : fetch_result) (s : APIService) :
  is_get o = false ->
  let out := request endpoint o now res s in
  network_calls (effects_of out) = [Fetch (full_url s endpoint) (method o)] /\
  cache (state_of out) = cache s.
Proof.
  intros Hg. cbv zeta.
  destruct (request_cases endpoint o now res s)
    as [(e & Hg' & _)|(ctx & s1' & _ & Hc & _ & _ & _ & _ & Hs & _ & Er & Es & Ee)];
    [congruence|].
  rewrite Hg in Hs. destruct Hc as [Hc|(Hg' & _)]; [|congruence].
  destruct (request_end_facts ctx res s1') as (Hn & _).
  pose proof (request_end_cache ctx res s1') as Hk. cbv zeta in *.
  rewrite Ee, Es. unfold network_calls in *. rewrite List.filter_app, Hn. split; [reflexivity|].
  destruct (result_of (request_end ctx res s1')).
  - destruct Hk as (? & ? & ? & ? & _ & _ & ->). rewrite Hs. exact Hc.
  - now rewrite Hk.
Qed.

Lemma non_get_requests_bypass_cache_witness :
  let out := request "/api/latest" {| method := Some "POST"%string |} 500 sample_response
               warmed_up in
  network_calls (effects_of out)
  = [Fetch (full_url warmed_up "/api/latest") (Some "POST"%string)] /\
  cache (state_of out) = cache warmed_up.
Proof.
  exact (non_get_requests_bypass_cache "/api/latest" {| method := Some "POST"%string |} 500
           sample_response warmed_up eq_refl).
Defined.

(** X15.  A request that fails stores nothing.  The only thing it can do
    to the cache is to drop the entry under its own key, and only when that
    entry had expired: an expired answer is not kept as a fallback for the
    case that the backend is down. *)
Theorem failed_requests_are_not_cached (endpoint : string) (o : options) (now : Z)
        (res : fetch_result) (s : APIService) (why : js_error) :
  let key := cache_key o (full_url s endpoint) in
  let out := request endpoint o now res s in
  result_of out = Rejected why ->
  network_calls (effects_of out) = [Fetch (full_url s endpoint) (method o)] /\
  (cache (state_of out) = cache s \/
   (cache (state_of out) = delete key (cache s) /\
    exists e, cache s !! key = Some e /\ expired now (cacheTimeout s) e = true)) /\
  (forall k e, cache (state_of out) !! k = Some e -> cache s !! k = Some e).
Proof.
  cbv zeta. intros Hr.
  destruct (request_cases endpoint o now res s)
    as [(e & _ & _ & _ & E)|(ctx & s1' & _ & Hc & _ & _ & _ & _ & _ & _ & Er & Es & Ee)].
  { rewrite E in Hr. discriminate. }
  destruct (request_end_facts ctx res s1') as (Hn & _).
  pose proof (request_end_cache ctx res s1') as Hk. cbv zeta in *.
  rewrite Er in Hr. rewrite Hr in Hk. rewrite Ee, Es, Hk.
  unfold network_calls in *. rewrite List.filter_app, Hn. split; [reflexivity|].
  destruct Hc as [Hc|(_ & Hc & Hex)]; rewrite Hc.
  - split; [now left | auto].
  - split; [right; split; [reflexivity | exact Hex]|].
    intros k e H. apply lookup_delete_Some in H. tauto.
Qed.

Lemma failed_requests_are_not_cached_witness :
  let out := request "/api/latest" GET 400000
               (FetchRejected {| name := "TypeError"; message := "Failed to fetch" |})
               warmed_up in
  network_calls (effects_of out) = [Fetch (full_url warmed_up "/api/latest") None] /\
  (forall k e, cache (state_of out) !! k = Some e -> cache warmed_up !! k = Some e).
Proof.
  cbv zeta.
  destruct (failed_requests_are_not_cached "/api/latest" GET 400000
              (FetchRejected {| name := "TypeError"; message := "Failed to fetch" |})
              warmed_up {| name := "TypeError"; message := "Failed to fetch" |} eq_refl)
    as (H1 & _ & H3).
  split; assumption.
Defined.

Lemma fresh_entry_survives (key : string) (d : Envelope) (stored later : Z) (s : APIService) :
  stored <= later ->
  lt (of_Z (later - stored)) (ToNumber (cacheTimeout s)) = true ->
  let c := <[key := {| entry_data := d; entry_timestamp := stored |}]> (cache s) in
  (if (50 <? size c)%nat
   then filter (fun kv => expired stored (cacheTimeout s) kv.2 = false) c
   else c) !! key = Some {| entry_data := d; entry_timestamp := stored |}.
Proof.
  intros Hle Hlt. cbv zeta. destruct (50 <? _)%nat; [|apply lookup_insert_eq].
  apply map_lookup_filter_Some. split; [apply lookup_insert_eq|].
  cbn [snd]. unfold expired. cbn [entry_timestamp]. rewrite Z.sub_diag.
  unfold lt in Hlt. unfold gt, lt.
  destruct (ToNumber (cacheTimeout s)) as [|ttl|[|]];
    [reflexivity| |discriminate Hlt|reflexivity].
  unfold of_Z in *. apply negb_true_iff in Hlt. apply negb_false_iff, Qle_bool_iff.
  apply not_true_iff_false in Hlt. rewrite Qle_bool_iff in Hlt.
  apply Qnot_le_lt in Hlt. apply Qlt_le_weak. eapply Qle_lt_trans; [|exact Hlt].
  rewrite <- Zle_Qle. lia.
Qed.

Lemma request_remembered (endpoint : string) (o : options)
        (now arrived stored later : Z) (status statusText : string) (d : Envelope)
        (res' : fetch_result) (s : APIService) :
  is_get o = true ->
  cache s !! cache_key o (full_url s endpoint) = None ->
  success d = true ->
  stored <= later ->
  lt (of_Z (later - stored)) (ToNumber (cacheTimeout s)) = true ->
  let first := request endpoint o now
                 (Response arrived true status statusText (Body d) stored) s in
  let second := request endpoint o later res' (state_of first) in
  result_of first = Fulfilled d /\
  network_calls (effects_of first) = [Fetch (full_url s endpoint) (method o)] /\
  result_of second = Fulfilled d /\
  network_calls (effects_of second) = [].
Proof.
  intros Hg Hcold Hd Hle Hlt. cbv zeta.
  set (res := Response arrived true status statusText (Body d) stored).
  destruct (request_cases endpoint o now res s)
    as [(e & _ & E & _)|(ctx & s1' & _ & Hc & _ & Hb & Ht & Hk & Hs & _ & Er & Es & Ee)];
    [congruence|].
  destruct Hc as [Hc|(_ & _ & e & E & _)]; [|congruence].
  destruct (request_end_facts ctx res s1') as (Hn & _).
  pose proof (request_end_cache ctx res s1') as Hca.
  destruct (request_end_config ctx res s1') as (Cb & Ct & _).
  cbv zeta in *. unfold res in Hca at 1. rewrite request_end_succeeds in Hca by exact Hd.
  destruct Hca as (a' & st' & tx' & stored' & [= <- <- <- <-] & _ & Hca).
  rewrite Hs, Hg, Hk, Hc, Ht in Hca.
  assert (Hfresh : cache (state_of (request endpoint o now res s))
                   !! cache_key o (full_url s endpoint)
                   = Some {| entry_data := d; entry_timestamp := stored |}).
  { rewrite Es. fold res. rewrite Hca.
    exact (fresh_entry_survives _ d stored later s Hle Hlt). }
  assert (Hurl : full_url (state_of (request endpoint o now res s)) endpoint
                 = full_url s endpoint).
  { unfold full_url. now rewrite Es, Cb, Hb. }
  assert (Httl : cacheTimeout (state_of (request endpoint o now res s)) = cacheTimeout s).
  { now rewrite Es, Ct, Ht. }
  split; [rewrite Er; unfold res; now apply request_end_succeeds|].
  split; [rewrite Ee; unfold network_calls in *; now rewrite List.filter_app, Hn|].
  destruct (request_cases endpoint o later res' (state_of (request endpoint o now res s)))
    as [(e & _ & E & _ & ->)|(ctx2 & s2' & Hmiss & _)].
  - rewrite Hurl, Hfresh in E. injection E as <-. split; reflexivity.
  - exfalso. rewrite Hurl, Hfresh, Hg, Httl in Hmiss.
    destruct Hmiss as [?|[?|(e & [= <-] & Hex)]]; try discriminate.
    unfold expired in Hex. cbn [entry_timestamp] in Hex.
    rewrite (lt_not_gt _ _ Hlt) in Hex. discriminate.
Qed.

(** X16.  A GET that succeeds is remembered: the same GET, made again
    before the TTL has elapsed since the answer was stored, gets the same
    answer back without any network call, whatever the network would have
    said this time. *)
Theorem successful_get_is_served_again (endpoint : string) (o : options)
        (now arrived stored later : Z) (status statusText : string) (d : Envelope)
        (res' : fetch_result) (s : APIService) :
  is_get o = true ->
  cache s !! cache_key o (full_url s endpoint) = None ->
  success d = true ->
  stored <= later ->
  lt (of_Z (later - stored)) (ToNumber (cacheTimeout s)) = true ->
  let first := request endpoint o now
                 (Response arrived true status statusText (Body d) stored) s in
  let second := request endpoint o later res' (state_of first) in
  result_of first = Fulfilled d /\
  network_calls (effects_of first) = [Fetch (full_url s endpoint) (method o)] /\
  result_of second = Fulfilled d /\
  network_calls (effects_of second) = [].
Proof. apply request_remembered. Qed.

Lemma successful_get_is_served_again_witness :
  let first := request "/api/latest" GET 0 sample_response constructor in
  let second := request "/api/latest" GET 300040
                  (FetchRejected {| name := "TypeError"; message := "Failed to fetch" |})
                  (state_of first) in
  result_of second = Fulfilled sample_envelope /\
  network_calls (effects_of second) = [].
Proof.
  cbv zeta.
  destruct (successful_get_is_served_again "/api/latest" GET 0 40 41 300040 "200" "OK"
              sample_envelope
              (FetchRejected {| name := "TypeError"; message := "Failed to fetch" |})
              constructor eq_refl eq_refl eq_refl) as (_ & _ & H3 & H4).
  - lia.
  - reflexivity.
  - split; assumption.
Defined.

Lemma request_counts (endpoint : string) (o : options) (now : Z) (res : fetch_result)
      (s : APIService) :
  let out := request endpoint o now res s in
  let m := metrics s in
  let m' := metrics (state_of out) in
  requestCount m' = S (requestCount m) /\
  (length (network_calls (effects_of out)) <= 1)%nat /\
  (successCount m' + errorCount m'
   = successCount m + errorCount m + length (network_calls (effects_of out)))%nat /\
  errorCount m' = (errorCount m + failed (result_of out))%nat.
Proof.
  cbv zeta.
  destruct (request_cases endpoint o now res s)
    as [(e & _ & _ & _ & ->)|(ctx & s1' & _ & _ & Hm & _ & _ & _ & _ & _ & Er & Es & Ee)].
  { cbn. repeat split; lia. }
  destruct (request_end_facts ctx res s1') as (Hn & Hq & Hr). cbv zeta in *.
  rewrite Er, Es, Ee. unfold network_calls in *. rewrite List.filter_app, Hn, Hq, Hm.
  cbn [List.filter is_fetch app length].
  change (requestCount (metrics (state_of (count_request now s))))
    with (S (requestCount (metrics s))).
  destruct (result_of (request_end ctx res s1')); rewrite Hm in Hr; cbn [failed];
    change (successCount (metrics (state_of (count_request now s))))
      with (successCount (metrics s)) in Hr;
    change (errorCount (metrics (state_of (count_request now s))))
      with (errorCount (metrics s)) in Hr.
  - destruct Hr as (-> & -> & _). repeat split; lia.
  - destruct Hr as (-> & ->). repeat split; lia.
Qed.

Lemma requests_cons (c : call) (rest : list call) (s : APIService) :
  let first := request (call_endpoint c) (call_options c) (call_time c) (call_answer c) s in
  let others := requests rest (state_of first) in
  result_of (requests (c :: rest) s) = result_of first :: result_of others /\
  state_of (requests (c :: rest) s) = state_of others /\
  effects_of (requests (c :: rest) s) = effects_of first ++ effects_of others.
Proof.
  cbv zeta. cbn [requests]. rewrite api_bind_run.
  destruct (request _ _ _ _ s) as [[r s1] e1]. rewrite api_bind_run.
  unfold result_of, state_of, effects_of. cbn [fst snd].
  destruct (requests rest s1) as [[rs s2] e2]. cbn. now rewrite app_nil_r.
Qed.

(** X17.  Over any sequence of requests made one after the other,
    [requestCount] grows by the number of requests, while [successCount]
    and [errorCount] together grow by the number of requests that reached
    the network, and [errorCount] by the number that failed.  A request
    answered from the cache is counted as a request but neither as a
    success nor as an error, so the two never add up to more than
    [requestCount]. *)
Theorem counters_account_for_network_calls (calls : list call) (s : APIService) :
  let out := requests calls s in
  let m := metrics s in
  let m' := metrics (state_of out) in
  length (result_of out) = length calls /\
  requestCount m' = (requestCount m + length calls)%nat /\
  (successCount m' + errorCount m'
   = successCount m + errorCount m + length (network_calls (effects_of out)))%nat /\
  errorCount m' = (errorCount m + list_sum (map failed (result_of out)))%nat /\
  (length (network_calls (effects_of out)) <= length calls)%nat /\
  ((successCount m + errorCount m <= requestCount m)%nat ->
   (successCount m' + errorCount m' <= requestCount m')%nat).
Proof.
  cbv zeta. revert s. induction calls as [|c rest IH]; intros s.
  - cbn. repeat split; intros; lia.
  - destruct (requests_cons c rest s) as (-> & -> & ->). cbv zeta.
    destruct (request_counts (call_endpoint c) (call_options c) (call_time c)
                (call_answer c) s) as (R1 & R2 & R3 & R4).
    cbv zeta in *.
    destruct (IH (state_of (request (call_endpoint c) (call_options c) (call_time c)
                              (call_answer c) s))) as (I1 & I2 & I3 & I4 & I5 & _).
    unfold network_calls in *. rewrite List.filter_app, length_app.
    cbn [length map].
    match goal with |- context [list_sum (?a :: ?l)] =>
      change (list_sum (a :: l)) with (a + list_sum l)%nat end.
    set (m1 := metrics (state_of (request (call_endpoint c) (call_options c) (call_time c)
                                    (call_answer c) s))) in *.
    repeat split; intros; lia.
Qed.

Lemma checkHealth_call_run (now : Z) (res : fetch_result) (s : APIService) :
  let asked := request HEALTH GET now res s in
  let probed := checkHealth (result_of asked) (state_of asked) in
  result_of (testConnection_call now res s) = testConnection (result_of probed) /\
  result_of (checkHealth_call now res s) = result_of probed /\
  network_calls (effects_of (testConnection_call now res s))
  = network_calls (effects_of asked) /\
  state_of (testConnection_call now res s) = state_of asked.
Proof.
  cbv zeta. unfold testConnection_call, checkHealth_call. rewrite !api_bind_run.
  destruct (request HEALTH GET now res s) as [[r s1] e1].
  unfold result_of, state_of, effects_of, network_calls. cbn [fst snd].
  destruct r as [d|why]; unfold checkHealth; api_run; cbn;
    rewrite ?List.filter_app, ?app_nil_r; cbn; rewrite ?app_nil_r; repeat split.
Qed.

(** X18.  The health probe trusts the cache.  Once a health check has
    succeeded, every [testConnection()] made until the TTL has elapsed since
    the answer was stored reports the backend as available without asking
    it, whatever the network would answer, a dead backend included. *)
Theorem health_probe_trusts_cache (s : APIService) (ttl : Z)
        (t arrived stored now : Z) (status statusText : string) (d : Envelope)
        (res : fetch_result) :
  cacheTimeout s = VNumber (of_Z ttl) ->
  cache s !! cache_key GET (full_url s HEALTH) = None ->
  success d = true ->
  stored <= now < stored + ttl ->
  let first := testConnection_call t (Response arrived true status statusText (Body d) stored) s in
  let probe := testConnection_call now res (state_of first) in
  result_of first = true /\
  result_of probe = true /\
  network_calls (effects_of probe) = [].
Proof.
  intros Httl Hcold Hd Hnow. cbv zeta.
  assert (Hlt : lt (of_Z (now - stored)) (ToNumber (cacheTimeout s)) = true).
  { rewrite Httl. unfold lt, ToNumber, of_Z. apply negb_true_iff, not_true_iff_false.
    rewrite Qle_bool_iff, <- Zle_Qle. lia. }
  destruct (request_remembered HEALTH GET t arrived stored now status statusText
              d res s eq_refl Hcold Hd (proj1 Hnow) Hlt) as (H1 & _ & H3 & H4).
  cbv zeta in *.
  destruct (checkHealth_call_run t (Response arrived true status statusText (Body d) stored) s)
    as (E1 & _ & _ & E4).
  cbv zeta in *. rewrite E1, H1, E4.
  destruct (checkHealth_call_run now res
              (state_of (request HEALTH GET t
                           (Response arrived true status statusText (Body d) stored) s)))
    as (F1 & _ & F3 & _).
  cbv zeta in *. rewrite F1, F3, H3, H4. repeat split.
Qed.

Lemma health_probe_trusts_cache_witness :
  let first := testConnection_call 0 sample_response constructor in
  let probe := testConnection_call 300040
                 (FetchRejected {| name := "TypeError"; message := "Failed to fetch" |})
                 (state_of first) in
  result_of probe = true /\ network_calls (effects_of probe) = [].
Proof.
  cbv zeta.
  destruct (health_probe_trusts_cache constructor 300000 0 40 41 300040 "200" "OK"
              sample_envelope
              (FetchRejected {| name := "TypeError"; message := "Failed to fetch" |})
              eq_refl eq_refl eq_refl) as (_ & H2 & H3).
  - lia.
  - split; assumption.
Defined.

Lemma call_all_settles {A} (entries : list (batch_entry A)) (results : list (settled A)) :
  call_all entries = inr results -> entries = map Settles results.
Proof.
  revert results. induction entries as [|[e|s] rest IH]; intros results H; cbn in H.
  - now injection H as <-.
  - discriminate.
  - destruct (call_all rest) as [e|rs]; [discriminate|]. injection H as <-.
    cbn. f_equal. now apply IH.
Qed.

Lemma call_all_throws {A} (entries : list (batch_entry A)) (e : js_error) :
  call_all entries = inl e -> In (FunctionThrows e) entries.
Proof.
  induction entries as [|[e'|s] rest IH]; intros H; cbn in H.
  - discriminate.
  - injection H as ->. now left.
  - destruct (call_all rest) as [e'|rs]; [|discriminate]. injection H as ->.
    right. now apply IH.
Qed.

Lemma sort_out_spec {A} (results : list (settled A)) : forall index ok ko,
  sort_out index results = Some (ok, ko) ->
  (forall i v, In (i, v) ok <->
               (index <= i)%nat /\ results !! (i - index)%nat = Some (SettledFulfilled v)) /\
  (forall i m, In (i, m) ko <->
               (index <= i)%nat /\
               results !! (i - index)%nat = Some (SettledRejected (ReasonValue m))) /\
  (length ok + length ko = length results)%nat.
Proof.
  induction results as [|[v|[|m]] rest IH]; intros index ok ko H; cbn in H.
  - injection H as <- <-.
    split; [|split; [|reflexivity]]; intros i x; (split; [intros [] | intros [_ E]; discriminate]).
  - destruct (sort_out (S index) rest) as [[ok' ko']|] eqn:E; [|discriminate].
    injection H as <- <-. destruct (IH _ _ _ E) as (H1 & H2 & H3).
    split; [|split].
    + intros i w. cbn [In]. rewrite H1. split.
      * intros [[= <- <-]|[Hi Hl]].
        -- split; [lia|]. now rewrite Nat.sub_diag.
        -- split; [lia|]. replace (i - index)%nat with (S (i - S index)) by lia. exact Hl.
      * intros [Hi Hl]. destruct (decide (i = index)) as [->|Hne].
        -- rewrite Nat.sub_diag in Hl. injection Hl as <-. now left.
        -- right. split; [lia|].
           replace (i - index)%nat with (S (i - S index)) in Hl by lia. exact Hl.
    + intros i m. rewrite H2. split.
      * intros [Hi Hl]. split; [lia|].
        replace (i - index)%nat with (S (i - S index)) by lia. exact Hl.
      * intros [Hi Hl]. destruct (decide (i = index)) as [->|Hne].
        -- rewrite Nat.sub_diag in Hl. discriminate.
        -- split; [lia|].
           replace (i - index)%nat with (S (i - S index)) in Hl by lia. exact Hl.
    + cbn [length]. lia.
  - discriminate.
  - destruct (sort_out (S index) rest) as [[ok' ko']|] eqn:E; [|discriminate].
    injection H as <- <-. destruct (IH _ _ _ E) as (H1 & H2 & H3).
    split; [|split].
    + intros i w. rewrite H1. split.
      * intros [Hi Hl]. split; [lia|].
        replace (i - index)%nat with (S (i - S index)) by lia. exact Hl.
      * intros [Hi Hl]. destruct (decide (i = index)) as [->|Hne].
        -- rewrite Nat.sub_diag in Hl. discriminate.
        -- split; [lia|].
           replace (i - index)%nat with (S (i - S index)) in Hl by lia. exact Hl.
    + intros i m'. cbn [In]. rewrite H2. split.
      * intros [[= <- <-]|[Hi Hl]].
        -- split; [lia|]. now rewrite Nat.sub_diag.
        -- split; [lia|]. replace (i - index)%nat with (S (i - S index)) by lia. exact Hl.
      * intros [Hi Hl]. destruct (decide (i = index)) as [->|Hne].
        -- rewrite Nat.sub_diag in Hl. injection Hl as <-. now left.
        -- right. split; [lia|].
           replace (i - index)%nat with (S (i - S index)) in Hl by lia. exact Hl.
    + cbn [length]. lia.
Qed.

Lemma sort_out_none {A} (results : list (settled A)) (index : nat) :
  sort_out index results = None <-> In (SettledRejected ReasonNullish) results.
Proof.
  revert index. induction results as [|[v|[|m]] rest IH]; intros index; cbn.
  - split; [discriminate | intros []].
  - specialize (IH (S index)). destruct (sort_out (S index) rest) as [[ok ko]|].
    + split; [discriminate|]. intros [H|H]; [discriminate|]. now apply IH in H.
    + split; [|reflexivity]. intros _. right. now apply IH.
  - split; [now left | reflexivity].
  - specialize (IH (S index)). destruct (sort_out (S index) rest) as [[ok ko]|].
    + split; [discriminate|]. intros [H|H]; [discriminate|]. now apply IH in H.
    + split; [|reflexivity]. intros _. right. now apply IH.
Qed.

(** X19.  [batchRequest] sorts what it is given by outcome and keeps the
    positions: entry [i] is listed as successful with its value exactly when
    it fulfilled, and as failed with the message of its reason exactly when
    it was rejected; nothing is listed twice or left out, and [total] is the
    number of entries.  The call itself fails in two cases only: when one of
    the entries is a function that throws as it is called, and when a
    promise was rejected with [undefined] or [null], because the message is
    then read off nothing.  On an empty batch [successRate] is [NaN]. *)
Theorem batchRequest_sorts_outcomes {A} (entries : list (batch_entry A))
        (startTime finish : Z) (s : APIService) :
  let out := batchRequest entries startTime finish s in
  state_of out = s /\
  match result_of out with
  | Fulfilled b =>
      (forall i v, In (i, v) (successful b)
                   <-> entries !! i = Some (Settles (SettledFulfilled v))) /\
      (forall i m, In (i, m) (batch_failed b)
                   <-> entries !! i = Some (Settles (SettledRejected (ReasonValue m)))) /\
      (length (successful b) + length (batch_failed b) = length entries)%nat /\
      total b = length entries /\
      duration b = finish - startTime /\
      batch_successRate b
      = nmul (ndiv (of_nat (length (successful b))) (of_nat (length entries))) (of_Z 100) /\
      (entries = [] -> batch_successRate b = NaN)
  | Rejected e =>
      In (FunctionThrows e) entries \/
      (e = TypeError /\ In (Settles (SettledRejected ReasonNullish)) entries)
  end.
Proof.
  cbv zeta. unfold batchRequest. api_run.
  destruct (call_all entries) as [e|results] eqn:Ec.
  - cbn. split; [reflexivity|]. left. now apply call_all_throws.
  - pose proof (call_all_settles _ _ Ec) as ->.
    destruct (sort_out 0 results) as [[ok ko]|] eqn:Es.
    + cbn. split; [reflexivity|].
      destruct (sort_out_spec results 0 ok ko Es) as (H1 & H2 & H3).
      assert (Hl : forall i (r : settled A),
                 map Settles results !! i = Some (Settles r) <-> results !! i = Some r).
      { intros i r. rewrite list_lookup_fmap. destruct (results !! i); cbn; split; congruence. }
      split; [|split; [|split; [|split; [|split; [|split]]]]]; try reflexivity.
      * intros i v. rewrite H1, Hl, Nat.sub_0_r. split; [tauto|]. split; [lia | assumption].
      * intros i m. rewrite H2, Hl, Nat.sub_0_r. split; [tauto|]. split; [lia | assumption].
      * now rewrite length_map.
      * intros E. destruct results; [|discriminate]. cbn in Es. injection Es as <- <-.
        reflexivity.
    + cbn. split; [reflexivity|]. right. split; [reflexivity|].
      apply sort_out_none in Es. now apply in_map.
Qed.

(** X20.  [getSystemInfo] fails as a whole in one case only: when the
    health check succeeded with no data ([undefined] or [null]), because
    the status is then read off nothing.  That is what [checkHealth] hands
    over when the backend answers with success and no data, a case in which
    [testConnection] reports the backend as available.  In every other case
    [getSystemInfo] answers, with one error message for each of its two
    sub-calls that failed, the health message first; the status is
    [unknown] when the health check failed and defaults to [healthy] when
    the health data names none, and the number of readings is 0 when the
    statistics failed. *)
Theorem getSystemInfo_needs_health_data (health : attempt data_field)
        (status service endpoints : raw) (stats : attempt Stats) (iso : string)
        (s : APIService) :
  let out := getSystemInfo health status service endpoints stats iso s in
  state_of out = s /\
  match result_of out with
  | Rejected e => e = TypeError /\ health = Fulfilled DataNullish
  | Fulfilled info =>
      health <> Fulfilled DataNullish /\
      length (info_errors info) = (failed health + failed stats)%nat /\
      (forall why, health = Rejected why ->
         info_status info = RString (lit "unknown") /\
         head (info_errors info) = Some ("Health check: " +:+ message why)) /\
      (forall d, health = Fulfilled d ->
         raw_truthy (info_status info) = true /\
         (forall f, d = DataObject f -> raw_truthy status = true ->
                    info_status info = status) /\
         ((forall f, d <> DataObject f) -> info_status info = RString (lit "healthy"))) /\
      (forall why, stats = Rejected why -> info_totalReadings info = RNumber (of_Z 0)) /\
      (forall v, stats = Fulfilled v -> info_totalReadings info = totalReadings v) /\
      lastUpdate info = iso
  end /\
  (forall response s0,
     data response = DataNullish ->
     let checked := result_of (checkHealth (Fulfilled response) s0) in
     testConnection checked = true /\
     result_of (getSystemInfo checked status service endpoints stats iso s)
     = Rejected TypeError).
Proof.
  cbv zeta. split; [|split].
  - unfold getSystemInfo. destruct health as [d|why]; [|reflexivity].
    destruct (health_properties d status service endpoints) as [[[? ?] ?]|]; reflexivity.
  - unfold getSystemInfo, health_properties, raw_or.
    destruct health as [[| |items|f]|why], stats as [v|why'], (raw_truthy status) eqn:Ht;
      api_run; cbn -[lit];
      repeat (split || intro); simplify_eq; auto;
      try reflexivity; try congruence;
      try (exfalso; match goal with H : forall f, _ <> _ |- _ => now apply (H f) end).
  - intros response s0 Hd. unfold checkHealth. api_run. cbn. rewrite Hd.
    split; reflexivity.
Qed.

Lemma endpointTests_run (tests : list (string * string * attempt Envelope)) (s : APIService) :
  result_of (endpointTests tests s)
  = map (fun t => (fst (fst t),
                   {| report_endpoint := snd (fst t); available := fulfilled (snd t);
                      status := if fulfilled (snd t) then "healthy" else "unreachable" |}))
        tests /\
  state_of (endpointTests tests s) = s.
Proof.
  induction tests as [|[[name endpoint] r] rest [IH1 IH2]]; [split; reflexivity|].
  cbn [endpointTests map fst snd]. rewrite api_bind_run.
  assert (E : exists es, pingEndpoint r s = (fulfilled r, s, es)).
  { destruct r; unfold pingEndpoint; api_run; cbn; eauto. }
  destruct E as [es ->]. rewrite api_bind_run.
  unfold result_of, state_of in *. destruct (endpointTests rest s) as [[reports s2] e2].
  cbn [fst snd] in *. subst. split; reflexivity.
Qed.

Lemma filter_all_length {A} (p : A -> bool) (l : list A) :
  length (List.filter p l) = length l <-> Forall (fun x => p x = true) l.
Proof.
  induction l as [|a l IH]; cbn [List.filter length]; [split; auto|].
  pose proof (List.filter_length_le p l) as Hle.
  destruct (p a) eqn:E; cbn [length].
  - split.
    + intros H. constructor; [exact E|]. apply IH. lia.
    + intros H. apply Forall_cons in H as [_ H]. apply IH in H. lia.
  - split; [lia|]. intros H. apply Forall_cons in H as [H _]. congruence.
Qed.

Lemma filter_none_length {A} (p : A -> bool) (l : list A) :
  length (List.filter p l) = 0%nat <-> Forall (fun x => p x = false) l.
Proof.
  induction l as [|a l IH]; cbn [List.filter length]; [split; auto|].
  destruct (p a) eqn:E; cbn [length].
  - split; [lia|]. intros H. apply Forall_cons in H as [H _]. congruence.
  - split.
    + intros H. constructor; [exact E|]. now apply IH.
    + intros H. apply Forall_cons in H as [_ H]. now apply IH.
Qed.

Lemma runDiagnostics_run (started : APIService) (random : number) (iso : string)
        (startTime finish : Z) (tests : list (string * string * attempt Envelope))
        (s : APIService) :
  let out := runDiagnostics started random iso startTime finish tests s in
  let d := result_of out in
  let up := length (List.filter (fun t => fulfilled (snd t)) tests) in
  state_of out = s /\
  diagnostics_errors d = [] /\
  endpoints d
  = map (fun t => (fst (fst t),
                   {| report_endpoint := snd (fst t); available := fulfilled (snd t);
                      status := if fulfilled (snd t) then "healthy" else "unreachable" |}))
        tests /\
  (overall d = "healthy"%string <-> Forall (fun t => fulfilled (snd t) = true) tests) /\
  (overall d = "down"%string
   <-> tests <> [] /\ Forall (fun t => fulfilled (snd t) = false) tests) /\
  (overall d = "degraded"%string <-> (0 < up < length tests)%nat) /\
  availability d
  = (if (0 <? length tests)%nat
     then nmul (ndiv (of_nat up) (of_nat (length tests))) (of_Z 100)
     else of_Z 0).
Proof.
  cbv zeta. unfold runDiagnostics. rewrite api_bind_run.
  destruct (endpointTests_run tests s) as [E1 E2].
  unfold result_of, state_of in *. destruct (endpointTests tests s) as [[reports s1] e1].
  cbn [fst snd] in *. subst. api_run. cbn [fst snd overall endpoints diagnostics_errors
                                           availability].
  set (f := fun t : string * string * attempt Envelope =>
              (fst (fst t),
               {| report_endpoint := snd (fst t); available := fulfilled (snd t);
                  status := if fulfilled (snd t) then "healthy" else "unreachable" |})).
  assert (Hup : length (List.filter (fun r => available (snd r)) (map f tests))
                = length (List.filter (fun t => fulfilled (snd t)) tests)).
  { clear. induction tests as [|t l IH]; [reflexivity|]. cbn [map List.filter].
    unfold f at 1. cbn [snd available]. destruct (fulfilled (snd t)); cbn [length]; lia. }
  rewrite Hup, length_map.
  pose proof (filter_all_length (fun t => fulfilled (snd t)) tests) as Hall.
  pose proof (filter_none_length (fun t => fulfilled (snd t)) tests) as Hnone.
  pose proof (List.filter_length_le (fun t => fulfilled (snd t)) tests) as Hle.
  set (up := length (List.filter (fun t => fulfilled (snd t)) tests)) in *.
  split; [reflexivity|]. split; [reflexivity|]. split; [reflexivity|].
  destruct (up =? length tests)%nat eqn:Q1; [apply Nat.eqb_eq in Q1 | apply Nat.eqb_neq in Q1].
  - split; [split; [intros _; now apply Hall | reflexivity]|].
    split; [|split; [|reflexivity]].
    + split; [discriminate|]. intros [Hne Hf]. apply Hnone in Hf.
      clearbody up. destruct tests; [now destruct Hne | cbn [length] in Q1; lia].
    + split; [discriminate | lia].
  - repeat match goal with |- context [if ?c then "degraded"%string else _] =>
      progress change c with (0 <? up)%nat end.
    destruct (0 <? up)%nat eqn:Q2; [apply Nat.ltb_lt in Q2 | apply Nat.ltb_ge in Q2].
    + split; [split; [discriminate | intros H; apply Hall in H; lia]|].
      split; [|split; [|reflexivity]].
      * split; [discriminate|]. intros [_ Hf]. apply Hnone in Hf. lia.
      * split; [lia | reflexivity].
    + split; [split; [discriminate | intros H; apply Hall in H; lia]|].
      split; [|split; [|reflexivity]].
      * split; [|reflexivity]. intros _. split; [|apply Hnone; lia].
        intros ->. cbn in Q1, Q2. lia.
      * split; [discriminate | lia].
Qed.

(** X21.  The diagnosis lists the five endpoints of the configuration, in
    the order in which their probes settled, each as available exactly when
    the request of its probe succeeded, with status [healthy] or
    [unreachable]: a failing probe is never reported as an error, and the
    list of errors is always empty.  The overall verdict is [healthy]
    exactly when all five probes succeeded, [down] exactly when none did,
    and [degraded] otherwise; the availability is the percentage of probes
    that succeeded. *)
Theorem runDiagnostics_classifies (started : APIService) (random : number) (iso : string)
        (startTime finish : Z) (tests : list (string * string * attempt Envelope))
        (s : APIService) :
  map fst tests ≡ₚ ENDPOINTS ->
  let out := runDiagnostics started random iso startTime finish tests s in
  let d := result_of out in
  let up := length (List.filter (fun t => fulfilled (snd t)) tests) in
  state_of out = s /\
  diagnostics_errors d = [] /\
  map (fun r => (fst r, report_endpoint (snd r))) (endpoints d) = map fst tests /\
  Forall2 (fun t r => available (snd r) = fulfilled (snd t) /\
                      status (snd r) = if fulfilled (snd t) then "healthy"%string
                                       else "unreachable"%string)
          tests (endpoints d) /\
  (overall d = "healthy"%string <-> Forall (fun t => fulfilled (snd t) = true) tests) /\
  (overall d = "down"%string <-> Forall (fun t => fulfilled (snd t) = false) tests) /\
  (overall d = "degraded"%string <-> (0 < up < 5)%nat) /\
  availability d = nmul (ndiv (of_nat up) (of_Z 5)) (of_Z 100).
Proof.
  intros Hp. cbv zeta.
  assert (Hlen : length tests = 5%nat).
  { rewrite <- (length_map fst), Hp. reflexivity. }
  destruct (runDiagnostics_run started random iso startTime finish tests s)
    as (H1 & H2 & H3 & H4 & H5 & H6 & H7).
  cbv zeta in *. rewrite Hlen in *. rewrite H3.
  split; [exact H1|]. split; [exact H2|]. split.
  { rewrite map_map. cbn [fst snd report_endpoint]. apply map_ext. now intros [[? ?] ?]. }
  split.
  { clear. induction tests as [|t l IH]; constructor; [split; reflexivity | exact IH]. }
  split; [exact H4|]. split.
  { rewrite H5. split; [tauto|]. intros H. split; [|exact H]. intros ->. discriminate Hlen. }
  split; [exact H6 | exact H7].
Qed.

Lemma runDiagnostics_classifies_witness :
  let broken := Rejected {| name := "Error"; message := "HTTP 500: Internal Server Error" |} in
  overall (result_of (runDiagnostics constructor (Num 0) "2024-01-01T00:00:00.000Z" 0 90
                        [ ("LATEST", "/api/latest", Fulfilled sample_envelope);
                          ("HEALTH", HEALTH, Fulfilled sample_envelope);
                          ("NETWORK", "/api/network", broken);
                          ("STATS", "/api/stats", Fulfilled sample_envelope);
                          ("HISTORY", "/api/history", Fulfilled sample_envelope) ]%string
                        constructor))
  = "degraded"%string.
Proof.
  cbv zeta.
  refine (proj2 (proj1 (proj2 (proj2 (proj2 (proj2 (proj2 (proj2
            (runDiagnostics_classifies constructor (Num 0) _ 0 90 _ constructor _))))))))
            _).
  - cbn [map fst]. unfold ENDPOINTS.
    apply (Permutation_trans (l' := [("HEALTH", HEALTH); ("LATEST", "/api/latest");
                                      ("NETWORK", "/api/network"); ("STATS", "/api/stats");
                                      ("HISTORY", "/api/history")]%string)).
    + apply perm_swap.
    + do 2 apply perm_skip.
      apply (Permutation_trans (l' := [("STATS", "/api/stats"); ("NETWORK", "/api/network");
                                        ("HISTORY", "/api/history")]%string)).
      * apply perm_swap.
      * apply (Permutation_trans (l' := [("STATS", "/api/stats"); ("HISTORY", "/api/history");
                                          ("NETWORK", "/api/network")]%string)).
        -- apply perm_skip, perm_swap.
        -- apply perm_swap.
  - cbn. lia.
Defined.

(** *** The size of the cache *)

(** X23.  Storing an answer never pushes a live entry out of the cache.
    After [setCache] every entry that had not expired is still there, the
    new entry is there too unless the TTL is negative, and nothing appears
    that was not there before.  Entries are removed only once the cache
    holds more than 50, and then only the expired ones: while its entries
    are live the cache grows without bound, and while it holds at most 50
    the expired ones stay as well. *)
Theorem setCache_keeps_live_entries (key : string) (d : Envelope) (now : Z) (s : APIService) :
  let entry := {| entry_data := d; entry_timestamp := now |} in
  let stored := <[key := entry]> (cache s) in
  let c := cache (state_of (setCache key d now s)) in
  (forall k e, c !! k = Some e -> stored !! k = Some e) /\
  (forall k e, stored !! k = Some e -> expired now (cacheTimeout s) e = false ->
               c !! k = Some e) /\
  (gt (of_Z 0) (ToNumber (cacheTimeout s)) = false -> c !! key = Some entry) /\
  ((size stored <= 50)%nat -> c = stored) /\
  ((forall k e, stored !! k = Some e -> expired now (cacheTimeout s) e = false) ->
   c = stored /\ (cache s !! key = None -> size c = S (size (cache s)))).
Proof.
  cbv zeta. rewrite setCache_cache. cbv zeta.
  set (entry := {| entry_data := d; entry_timestamp := now |}).
  set (stored := <[key := entry]> (cache s)).
  assert (Hsize : cache s !! key = None -> size stored = S (size (cache s))).
  { intros H. unfold stored. now rewrite map_size_insert_None. }
  destruct (50 <? size stored)%nat eqn:E.
  - split; [|split; [|split; [|split]]].
    + intros k e H. apply map_lookup_filter_Some in H. tauto.
    + intros k e H Hx. apply map_lookup_filter_Some. auto.
    + intros Hx. apply map_lookup_filter_Some. split; [apply lookup_insert_eq|].
      cbn [snd]. unfold expired, entry. cbn [entry_timestamp]. now rewrite Z.sub_diag.
    + intros H. apply Nat.ltb_lt in E. lia.
    + intros Hall.
      assert (Heq : filter (fun kv : string * CacheEntry =>
                              expired now (cacheTimeout s) kv.2 = false) stored = stored).
      { apply map_eq. intros k. destruct (stored !! k) as [e|] eqn:El.
        - apply map_lookup_filter_Some. split; [exact El|]. cbn [snd]. eauto.
        - apply map_lookup_filter_None. left. exact El. }
      rewrite Heq. split; [reflexivity | exact Hsize].
  - split; [|split; [|split; [|split]]]; auto.
    intros _. apply lookup_insert_eq.
Qed.

End PollingTraces.

(** ** From the sensor to the monitor page *)

Section Pipeline.

Lemma map_items_datagrams (samples : list (Z * raw)) :
  Forall (fun x => 0 <= fst x <= 2 ^ 53) samples ->
  API.map_items (map (fun x => API.ItemValue (RString (Firmware.datagram (fst x))) (snd x))
                     samples)
  = Some (map (fun x => {| API.value := of_Z (fst x); API.reading_timestamp := snd x;
                           API.rawData := RString (Firmware.datagram (fst x)) |}) samples).
Proof.
  induction 1 as [|[n t] l Hn _ IH]; [reflexivity|].
  cbn [map API.map_items fst snd] in *. rewrite IH, (datagram_decodes n Hn). reflexivity.
Qed.

Lemma loaded_value_integer (n : Z) (t r : raw) :
  Monitor.loaded_value {| API.value := of_Z n; API.reading_timestamp := t; API.rawData := r |}
  = of_Z n.
Proof.
  destruct (loaded_value_cases {| API.value := of_Z n; API.reading_timestamp := t;
                                  API.rawData := r |}) as [[_ E]|[Ht E]]; [exact E|].
  rewrite E. cbn [API.value] in Ht. unfold truthy, of_Z in Ht.
  apply negb_false_iff, Qeq_bool_iff in Ht. change 0%Q with (inject_Z 0) in Ht.
  now rewrite (proj1 (inject_Z_injective _ _) Ht).
Qed.

(** X22.  From the sketch to the page.  When the history the backend hands
    out lists the datagrams of the sketch, newest first, for readings from
    0 to 2^53, [getHistory] decodes every one of them to the reading it was
    printed from, and the monitor page that loads the result, in whatever
    state it is, shows the readings oldest first, the last 100 of them when
    there are more, each in the band of its value. *)
Theorem history_reaches_monitor (samples : list (Z * raw)) (response : API.Envelope)
        (s : API.APIService) (actions : list Monitor.action) :
  Forall (fun x => 0 <= fst x <= 2 ^ 53) samples ->
  API.data response
  = API.DataArray (map (fun x => API.ItemValue (RString (Firmware.datagram (fst x))) (snd x))
                       samples) ->
  exists history,
    API.result_of (API.getHistory (API.Fulfilled response) s) = API.Fulfilled history /\
    map API.value history = map (fun x => of_Z (fst x)) samples /\
    let page := fst (Monitor.loadSharedHistory history (Monitor.session actions)) in
    map Monitor.point_value (Monitor.sharedHistory page)
    = Monitor.window 100 (map (fun x => of_Z (fst x)) (rev samples)) /\
    Forall (fun p => Monitor.point_theme p = determineTheme (Monitor.point_value p))
           (Monitor.sharedHistory page).
Proof.
  intros Hs Hd.
  exists (map (fun x => {| API.value := of_Z (fst x); API.reading_timestamp := snd x;
                           API.rawData := RString (Firmware.datagram (fst x)) |}) samples).
  pose proof (session_consistent actions) as Hc.
  split; [|split; [|split]].
  - unfold API.getHistory. rewrite Hd, (map_items_datagrams samples Hs). reflexivity.
  - rewrite map_map. reflexivity.
  - rewrite (proj1 (loadSharedHistory_run _ _)), (proj1 Hc). f_equal.
    rewrite <- map_rev, !map_map. apply map_ext. intros [n t]. apply loaded_value_integer.
  - now apply loadSharedHistory_consistent.
Qed.

Lemma history_reaches_monitor_witness :
  exists history,
    API.result_of
      (API.getHistory
         (API.Fulfilled {| API.success := true; API.error := None;
                           API.data := API.DataArray
                             [API.ItemValue (RString (Firmware.datagram 812)) API.undefined;
                              API.ItemValue (RString (Firmware.datagram 150)) API.undefined] |})
         API.constructor) = API.Fulfilled history /\
    map Monitor.point_value
      (Monitor.sharedHistory (fst (Monitor.loadSharedHistory history Monitor.constructor)))
    = [of_Z 150; of_Z 812].
Proof.
  destruct (history_reaches_monitor [(812, API.undefined); (150, API.undefined)]
              {| API.success := true; API.error := None;
                 API.data := API.DataArray
                   [API.ItemValue (RString (Firmware.datagram 812)) API.undefined;
                    API.ItemValue (RString (Firmware.datagram 150)) API.undefined] |}
              API.constructor []) as (history & H1 & _ & H2 & _).
  - repeat constructor; cbn; try lia; discriminate.
  - reflexivity.
  - exists history. split; [exact H1 | exact H2].
Defined.

End Pipeline.
